(** * Scam Report Hub: the report store, moderation, search and link extraction

    A shallow embedding of [app/main.py], [app/models.py] and
    [legacy_streamlit_app.py].

    Conventions.
    - A table is the list of its rows in insertion order; a primary-key lookup
      ([db.get]) returns the first row with that id.
    - An instant or a naive wall-clock value is a count of seconds, in [Z].
      The wall clock of a [datetime] lies between [datetime.min] and
      [datetime.max]; [astimezone] raises when it would leave this range.
    - A Python [str] is a [string]; a character is a code point below 256.
    - SQL conditions are three-valued ([option bool], [None] for NULL); a
      [WHERE] clause keeps the rows whose condition is [Some true].
    - The store is reliable: the [except SQLAlchemyError] branches of
      [safe_rows], [insert_simple] and [insert_and_return_id] are not taken.
    - Functions of the Python standard library or of the database that the
      handlers call ([ILIKE], [datetime.fromisoformat], [urlparse], the
      timezone database) are Section variables where a theorem holds for any
      of them, and concrete models where a scenario has to be evaluated.
      So are the choices that the code leaves to a library: the order that
      the database gives to rows of equal [created_on] on the pages of the
      admin list, and the value that [pd.DataFrame] hands back for a NULL. *)

From Stdlib Require Import ZArith List String Ascii Bool Lia Arith.
From Stdlib Require Import Sorting.Permutation Sorting.Sorted.
Import ListNotations.

Local Open Scope string_scope.
Local Open Scope list_scope.
Local Open Scope Z_scope.

(** ** SQL helpers shared by both applications *)

Module Sql.

(** [a OR b] in SQL: true when one side is true, NULL when no side is true
    and one is NULL. *)
Definition or3 (a b : option bool) : option bool :=
  match a, b with
  | Some true, _ | _, Some true => Some true
  | Some false, Some false => Some false
  | _, _ => None
  end.

(** A row passes [WHERE c] when [c] is true; false and NULL both drop it. *)
Definition holds (c : option bool) : bool :=
  match c with Some true => true | _ => false end.

(** A comparison on a nullable column is NULL on a NULL value. *)
Definition on_nullable {A} (p : A -> bool) (v : option A) : option bool :=
  option_map p v.

Section OrderBy.
Context {A : Type} (key : A -> Z).

(** Insertion into a list sorted by descending key; among equal keys
    the inserted row goes first, so [order_by_desc] keeps equal keys in
    table order. *)
Fixpoint insert_desc (x : A) (l : list A) : list A :=
  match l with
  | [] => [x]
  | y :: l' => if key y <=? key x then x :: l else y :: insert_desc x l'
  end.

(** [ORDER BY key DESC]. SQL leaves the order of rows with equal keys
    open; this model keeps them in table order. *)
Fixpoint order_by_desc (l : list A) : list A :=
  match l with
  | [] => []
  | x :: l' => insert_desc x (order_by_desc l')
  end.

(** A list is newest first when no row has a larger key than a row
    before it. *)
Definition newest_first (l : list A) : Prop :=
  StronglySorted (fun a b => key b <= key a) l.

(** [LIMIT n OFFSET k]. *)
Definition limit_offset (n k : nat) (l : list A) : list A :=
  firstn n (skipn k l).

(** What [ORDER BY key DESC] promises of [order], the order in which the
    database returns the rows of one query: the rows are the same, and
    they come newest first. The order of rows with equal keys is the
    choice of the database. *)
Definition orders_desc (order : list A -> list A) : Prop :=
  forall l, Permutation (order l) l /\ newest_first (order l).
End OrderBy.

(** The largest 64-bit integer, the bound of [LIMIT] and [OFFSET]. *)
Definition bigint_max : Z := 2 ^ 63 - 1.

(** A model of [ILIKE] for evaluating scenarios: both sides are folded to
    lower case (ASCII letters), a percent sign in the pattern stands for
    any run of characters and an underscore for any one character.
    Escape characters are not modelled. *)
Definition lower (c : ascii) : ascii :=
  let n := nat_of_ascii c in
  if ((65 <=? n) && (n <=? 90))%nat then ascii_of_nat (n + 32) else c.

Fixpoint like (pattern : string) : string -> bool :=
  match pattern with
  | EmptyString =>
      fun s => match s with EmptyString => true | _ => false end
  | String c p' =>
      if Ascii.eqb c "%"%char then
        fix any (s : string) : bool :=
          like p' s
          || match s with String _ s' => any s' | EmptyString => false end
      else
        fun s =>
          match s with
          | String x s' =>
              (Ascii.eqb c "_"%char || Ascii.eqb (lower c) (lower x))
              && like p' s'
          | EmptyString => false
          end
  end.

Definition ilike (v pattern : string) : bool := like pattern v.


End Sql.

(** ** The legacy Streamlit application *)

Module Legacy.

(** *** Text scanning: [extract_urls] *)

(** The fragment of Python's [re] syntax that the pattern of
    [extract_urls] uses. A repetition applies to a character class only,
    which is all the pattern needs. *)
Inductive regex : Type :=
| Lit (s : string)                       (* a literal string *)
| Many (cls : ascii -> bool) (min : nat) (* [cls]{min,}, greedy *)
| Seq (a b : regex)
| Alt (a b : regex)                      (* a|b, left first *)
| Opt (a : regex).                       (* (?:a)?, greedy *)

(** [strip_prefix p s] is the rest of [s] after the prefix [p]. *)
Fixpoint strip_prefix (p s : string) : option string :=
  match p, s with
  | EmptyString, _ => Some s
  | String a p', String b s' =>
      if Ascii.eqb a b then strip_prefix p' s' else None
  | String _ _, EmptyString => None
  end.

Section Backtracking.
Context {R : Type}.

(** Greedy repetition of a class with backtracking: the longest run is
    tried first, then shorter ones down to [min] characters. [n] counts
    the characters taken so far; [k] is the rest of the pattern. *)
Fixpoint many (cls : ascii -> bool) (min : nat) (s : string) (n : nat)
         (k : string -> option R) : option R :=
  let stop := if (min <=? n)%nat then k s else None in
  match s with
  | String c s' =>
      if cls c then
        match many cls min s' (S n) k with
        | Some r => Some r
        | None => stop
        end
      else stop
  | EmptyString => stop
  end.

(** The backtracking matcher in continuation-passing style: [k] receives
    the unread rest of the input; the first success in Python's search
    order wins. *)
Fixpoint run (r : regex) (s : string) (k : string -> option R)
  : option R :=
  match r with
  | Lit p => match strip_prefix p s with Some s' => k s' | None => None end
  | Many cls min => many cls min s 0 k
  | Seq a b => run a s (fun s' => run b s' k)
  | Alt a b =>
      match run a s k with Some x => Some x | None => run b s k end
  | Opt a =>
      match run a s k with Some x => Some x | None => k s end
  end.
End Backtracking.

(** A pattern that cannot match the empty string. *)
Fixpoint nonempty (r : regex) : bool :=
  match r with
  | Lit p => negb (String.eqb p "")
  | Many _ min => (0 <? min)%nat
  | Seq a b => nonempty a || nonempty b
  | Alt a b => nonempty a && nonempty b
  | Opt _ => false
  end.

(** Length of the match of [r] anchored at the start of [s]. *)
Definition match_here (r : regex) (s : string) : option nat :=
  run r s (fun rest => Some (String.length s - String.length rest)%nat).

(** [re.findall] for a pattern without capture groups and without empty
    matches: scan left to right, take the match at the first position
    that has one, resume after it. [inside] is the number of characters
    still covered by the previous match. *)
Fixpoint findall_from (r : regex) (s : string) (inside : nat)
  : list string :=
  match s with
  | EmptyString => []
  | String _ s' =>
      match inside with
      | S n => findall_from r s' n
      | O =>
          match match_here r s with
          | Some len =>
              String.substring 0 len s :: findall_from r s' (len - 1)
          | None => findall_from r s' 0
          end
      end
  end.

Definition findall (r : regex) (s : string) : list string :=
  findall_from r s 0.

Definition code (c : ascii) : nat := nat_of_ascii c.

Definition between (lo hi : nat) (c : ascii) : bool :=
  ((lo <=? code c) && (code c <=? hi))%nat.

Definition is_code (n : nat) (c : ascii) : bool := (code c =? n)%nat.

(** [\s] on a [str]: the ASCII whitespace of [str.isspace] (tab to
    carriage return, the four separators 0x1c-0x1f, space) and, below
    256, NEL and the no-break space. *)
Definition re_space (c : ascii) : bool :=
  between 9 13 c || between 28 31 c || is_code 32 c
  || is_code 133 c || is_code 160 c.

(** The class of the scheme alternative: anything but whitespace, the
    angle brackets, the two quote characters (codes 34 and 39), the
    closing parenthesis and the closing square bracket. *)
Definition url_char (c : ascii) : bool :=
  negb (re_space c || is_code 60 c || is_code 62 c || is_code 34 c
        || is_code 39 c || is_code 41 c || is_code 93 c).

(** [[a-zA-Z0-9.-]] *)
Definition host_char (c : ascii) : bool :=
  between 97 122 c || between 65 90 c || between 48 57 c
  || is_code 46 c || is_code 45 c.

(** [[a-z]] *)
Definition lower_char (c : ascii) : bool := between 97 122 c.

(** [[^\s]] *)
Definition non_space (c : ascii) : bool := negb (re_space c).

(** First alternative: http, an optional s, then ://, then one or more
    characters of [url_char]. *)
Definition scheme_url : regex :=
  Seq (Lit "http") (Seq (Opt (Lit "s")) (Seq (Lit "://") (Many url_char 1))).

(** Second alternative: an optional www., one or more host characters, a
    dot, two or more lower-case letters, and optionally a slash followed
    by any run of non-space characters. *)
Definition bare_domain : regex :=
  Seq (Opt (Lit "www."))
    (Seq (Many host_char 1)
       (Seq (Lit ".")
          (Seq (Many lower_char 2)
             (Opt (Seq (Lit "/") (Many non_space 0)))))).

Definition url_pattern : regex := Alt scheme_url bare_domain.

(** [extract_urls(text)]: no URL in an empty text, else every match of
    the pattern, in order, repeats included. *)
Definition extract_urls (text : string) : list string :=
  if String.eqb text "" then [] else findall url_pattern text.

(** *** [urllib.parse.urlparse(url).netloc] *)

(** [str.find]: index of the first character satisfying [p]. *)
Fixpoint find_index (p : ascii -> bool) (s : string) : option nat :=
  match s with
  | EmptyString => None
  | String c s' =>
      if p c then Some O else option_map S (find_index p s')
  end.

Fixpoint string_forallb (p : ascii -> bool) (s : string) : bool :=
  match s with
  | EmptyString => true
  | String c s' => p c && string_forallb p s'
  end.

Fixpoint string_filter (p : ascii -> bool) (s : string) : string :=
  match s with
  | EmptyString => EmptyString
  | String c s' =>
      if p c then String c (string_filter p s') else string_filter p s'
  end.

Fixpoint lstrip (p : ascii -> bool) (s : string) : string :=
  match s with
  | EmptyString => EmptyString
  | String c s' => if p c then lstrip p s' else s
  end.

Definition drop (n : nat) (s : string) : string :=
  String.substring n (String.length s - n) s.

Definition is_alpha (c : ascii) : bool :=
  between 97 122 c || between 65 90 c.

(** [scheme_chars]: letters, digits, plus, minus and dot. *)
Definition scheme_char (c : ascii) : bool :=
  is_alpha c || between 48 57 c
  || is_code 43 c || is_code 45 c || is_code 46 c.

Definition has_code (n : nat) (s : string) : bool :=
  match find_index (is_code n) s with Some _ => true | None => false end.

(** The network location that [urlsplit] finds, following CPython's
    [urllib/parse.py]: leading control characters and spaces are
    stripped, tab, line feed and carriage return removed, a scheme is cut
    off at the first colon when everything before it is a scheme
    character and the first character a letter; what follows a leading
    double slash, up to the first slash, question mark or hash, is the
    network location. [None] stands for the [ValueError] raised when only
    one of the two square brackets occurs in it. The validation of a
    bracketed host is not modelled. *)
Definition netloc (url : string) : option string :=
  let url := lstrip (fun c => (code c <=? 32)%nat) url in
  let url :=
    string_filter
      (fun c => negb (is_code 9 c || is_code 10 c || is_code 13 c)) url in
  let rest :=
    match find_index (is_code 58) url with
    | Some (S i) =>
        let pre := String.substring 0 (S i) url in
        if string_forallb is_alpha (String.substring 0 1 url)
           && string_forallb scheme_char pre
        then drop (S (S i)) url else url
    | _ => url
    end in
  match strip_prefix "//" rest with
  | Some after =>
      let loc :=
        match find_index
                (fun c => is_code 47 c || is_code 63 c || is_code 35 c)
                after with
        | Some j => String.substring 0 j after
        | None => after
        end in
      if xorb (has_code 91 loc) (has_code 93 loc) then None else Some loc
  | None => Some ""
  end.

(** *** Tables *)

(** The columns of [reports] that the modelled handlers read or write. *)
Record ReportRow : Type := mkReportRow {
  id : Z;
  type : string;
  source_from : option string;
  message_content : option string;
  ocr_preview : option string;
  contain_link : bool;
  created_on : Z;
  updated_on : Z;
  deleted : bool;
  deleted_on : option Z
}.

Record LinkRow : Type := mkLinkRow {
  link_report_id : Z;
  url : string;
  domain : string;
  safety : option string;
  link_created_on : Z;
  link_updated_on : Z;
  link_deleted : bool
}.

Record AuditRow : Type := mkAuditRow {
  audit_report_id : option Z;
  performed_by : option Z;
  action : string;
  comment : string;
  audit_created_on : Z;
  audit_updated_on : Z;
  audit_deleted : bool
}.

Record AttachmentRow : Type := mkAttachmentRow {
  att_report_id : option Z;
  att_type : string;
  att_storage_path : string;
  att_checksum : option string;
  att_mime_type : option string;
  att_size_bytes : Z;
  att_transcript : option string;
  att_created_on : Z;
  att_updated_on : Z;
  att_deleted : bool
}.

Record DB : Type := mkDB {
  reports : list ReportRow;
  report_links : list LinkRow;
  report_audit : list AuditRow;
  attachments : list AttachmentRow
}.

Definition with_links (links : list LinkRow) (db : DB) : DB :=
  mkDB (reports db) links (report_audit db) (attachments db).

(** [insert_simple(table, payload)] on a reliable store: the row is
    appended and the transaction committed. *)
Definition insert_simple {A : Type} (table : list A) (payload : A) : list A :=
  table ++ [payload].

(** *** The [Run extraction] handler *)

(** The state of one run: the database, the two counters of the handler
    and the number of times the clock has been read. *)
Record Run : Type := mkRun {
  db : DB;
  inserted : nat;
  skipped : nat;
  clock_reads : nat
}.

(** A run either reaches [st.success] or stops at an exception; every
    insert made before the exception is already committed. *)
Inductive outcome : Type :=
| Finished (st : Run)
| Raised (st : Run).

Definition state_of (o : outcome) : Run :=
  match o with Finished st | Raised st => st end.

(** [x or ""] on a nullable text column. *)
Definition or_empty (x : option string) : string :=
  match x with Some s => s | None => "" end.

Definition newline : string := String (ascii_of_nat 10) EmptyString.

(** The text that is scanned for a row. *)
Definition scanned_text (r : ReportRow) : string :=
  (or_empty (message_content r) ++ newline ++ or_empty (ocr_preview r))%string.

(** [url in existing_urls] *)
Definition mem (u : string) (existing : list string) : bool :=
  existsb (String.eqb u) existing.

(** [select url from report_links where report_id = rid]; the query has
    no condition on [deleted]. *)
Definition existing_urls (d : DB) (rid : Z) : list string :=
  map url (filter (fun l => link_report_id l =? rid) (report_links d)).

Section Extraction.
(** [urlparse(url).netloc], [None] when [urlparse] raises. *)
Variable urlparse_netloc : string -> option string.
(** [utcnow n] is the value of the [n]-th call of [datetime.utcnow()]
    in the run. *)
Variable utcnow : nat -> Z.

(** [urlparse(url).netloc or url] *)
Definition domain_of (u loc : string) : string :=
  if String.eqb loc "" then u else loc.

(** The inner loop over the URLs of one report. [existing] is computed
    once before the loop and not extended by the inserts. *)
Fixpoint insert_new (rid : Z) (existing urls : list string) (st : Run)
  : outcome :=
  match urls with
  | [] => Finished st
  | u :: rest =>
      if mem u existing then
        insert_new rid existing rest
          (mkRun (db st) (inserted st) (S (skipped st)) (clock_reads st))
      else
        match urlparse_netloc u with
        | None => Raised st
        | Some loc =>
            let n := clock_reads st in
            let row :=
              mkLinkRow rid u (domain_of u loc) None
                        (utcnow n) (utcnow (S n)) false in
            insert_new rid existing rest
              (mkRun (with_links (insert_simple (report_links (db st)) row)
                                 (db st))
                     (S (inserted st)) (skipped st) (S (S n)))
        end
  end.

(** The body of the outer loop for one selected row. *)
Definition scan_report (r : ReportRow) (st : Run) : outcome :=
  match extract_urls (scanned_text r) with
  | [] => Finished st
  | urls => insert_new (id r) (existing_urls (db st) (id r)) urls st
  end.

Fixpoint scan_reports (rows : list ReportRow) (st : Run) : outcome :=
  match rows with
  | [] => Finished st
  | r :: rows' =>
      match scan_report r st with
      | Finished st' => scan_reports rows' st'
      | Raised st' => Raised st'
      end
  end.

(** The rows the handler selects: reports with [contain_link] set and
    not deleted, newest first, at most 200. *)
Definition selected_rows (d : DB) : list ReportRow :=
  firstn 200
    (Sql.order_by_desc created_on
       (filter (fun r => contain_link r && negb (deleted r)) (reports d))).

(** The handler of the [Run extraction] button. *)
Definition run_extraction (d : DB) : outcome :=
  scan_reports (selected_rows d) (mkRun d 0 0 0).
End Extraction.

(** The URLs of the links of a report that are not deleted. *)
Definition live_urls (d : DB) (rid : Z) : list string :=
  map url
    (filter (fun l => (link_report_id l =? rid) && negb (link_deleted l))
            (report_links d)).


(** *** The [Attachment & Audit] form handler *)

(** What the form passes on for an uploaded file once it is on disk. *)
Record Upload : Type := mkUpload {
  up_path : string;
  up_mime : option string;
  up_size : Z
}.

Definition with_audit (a : list AuditRow) (d : DB) : DB :=
  mkDB (reports d) (report_links d) a (attachments d).

Definition with_attachments (a : list AttachmentRow) (d : DB) : DB :=
  mkDB (reports d) (report_links d) (report_audit d) a.

Definition with_reports (r : list ReportRow) (d : DB) : DB :=
  mkDB r (report_links d) (report_audit d) (attachments d).

(** [reports.c.id == report_id]; with no report selected the comparison
    is with NULL and no row matches. *)
Definition id_is (report_id : option Z) (r : ReportRow) : bool :=
  match report_id with Some k => id r =? k | None => false end.

(** [reports.update().where(id == report_id).values(deleted=True,
    deleted_on=now_utc, updated_on=now_utc)]: the condition is on the id
    alone. *)
Definition mark_deleted (report_id : option Z) (now_utc : Z) (d : DB) : DB :=
  with_reports
    (map (fun r =>
            if id_is report_id r then
              mkReportRow (id r) (type r) (source_from r)
                (message_content r) (ocr_preview r) (contain_link r)
                (created_on r) now_utc true (Some now_utc)
            else r)
         (reports d))
    d.

Definition log_audit (report_id : option Z) (by_user : option Z)
           (act cmt : string) (now_utc : Z) (d : DB) : DB :=
  with_audit
    (insert_simple (report_audit d)
       (mkAuditRow report_id by_user act cmt now_utc now_utc false))
    d.

Definition save_attachment (report_id : option Z) (attach_type : string)
           (u : Upload) (now_utc : Z) (d : DB) : DB :=
  with_attachments
    (insert_simple (attachments d)
       (mkAttachmentRow report_id attach_type (up_path u) None (up_mime u)
          (up_size u) None now_utc now_utc false))
    d.

(** The handler runs up to three transactions, one per [engine.begin()]
    block. The result lists the database after each commit, in order;
    a reader between two commits sees the state in between. *)
Definition audit_submit (d : DB) (report_id : option Z)
           (attach_type : string) (uploaded : option Upload)
           (by_user : option Z) (act cmt : string) (now_utc : Z)
  : list DB :=
  let '(d1, t1) :=
    match uploaded with
    | Some u =>
        if negb (String.eqb attach_type "none")
        then let d' := save_attachment report_id attach_type u now_utc d in
             (d', [d'])
        else (d, [])
    | None => (d, [])
    end in
  if negb (String.eqb act "none") then
    let d2 := log_audit report_id by_user act cmt now_utc d1 in
    if String.eqb act "delete"
    then t1 ++ [d2; mark_deleted report_id now_utc d2]
    else t1 ++ [d2]
  else t1.

(** The database a later request finds. *)
Definition final (d : DB) (commits : list DB) : DB := last commits d.

(** *** Time zones *)

(** A zone of the timezone database: the UTC offset in force before the
    first transition and the transitions, each a UTC instant with the
    offset in force from then on. The rule that extends a zone past its
    last listed transition is not modelled: the last offset stays. *)
Record Zone : Type := mkZone {
  before : Z;
  transitions : list (Z * Z)
}.

(** [ZoneInfo.fromutc]: offset and fold at the UTC instant [u]; the fold
    is set in the second pass through a repeated wall-clock interval. *)
Fixpoint info_at_utc (cur : Z) (fold : bool) (ts : list (Z * Z)) (u : Z)
  : Z * bool :=
  match ts with
  | [] => (cur, fold)
  | (t, o) :: ts' =>
      if t <=? u then info_at_utc o (u - t <? cur - o) ts' u
      else (cur, fold)
  end.

(** [ZoneInfo.utcoffset] of a wall-clock value: the transitions are
    compared in local time, each placed at its UTC instant plus the
    larger of the two offsets around it for [fold = 0], the smaller for
    [fold = 1]. *)
Fixpoint offset_at_wall (fold : bool) (cur : Z) (ts : list (Z * Z)) (w : Z)
  : Z :=
  match ts with
  | [] => cur
  | (t, o) :: ts' =>
      if t + (if fold then Z.min cur o else Z.max cur o) <=? w
      then offset_at_wall fold o ts' w
      else cur
  end.

(** The two kinds of [tzinfo] object the handlers build. [ZoneInfo]
    caches its instances, so two [ZoneInfo] objects are the same object
    exactly when their keys are equal. *)
Inductive tzinfo : Type :=
| PytzUtc
| ZoneInfo (key : string) (z : Zone).

Definition same_object (a b : tzinfo) : bool :=
  match a, b with
  | PytzUtc, PytzUtc => true
  | ZoneInfo k1 _, ZoneInfo k2 _ => String.eqb k1 k2
  | _, _ => false
  end.

(** An aware [datetime]: its wall-clock fields as a count of seconds,
    its fold and its zone. *)
Record datetime : Type := mkDatetime {
  wall : Z;
  fold : bool;
  tz : tzinfo
}.

Definition utcoffset (dt : datetime) : Z :=
  match tz dt with
  | PytzUtc => 0
  | ZoneInfo _ z => offset_at_wall (fold dt) (before z) (transitions z) (wall dt)
  end.

(** The absolute instant of an aware datetime. *)
Definition instant (dt : datetime) : Z := wall dt - utcoffset dt.

Definition fromutc (target : tzinfo) (u : Z) : datetime :=
  match target with
  | PytzUtc => mkDatetime u false PytzUtc
  | ZoneInfo _ z =>
      let '(o, f) := info_at_utc (before z) false (transitions z) u in
      mkDatetime (u + o) f target
  end.

(** Days from 1970-01-01 to a date of the proleptic Gregorian calendar. *)
Definition days_from_civil (y m d : Z) : Z :=
  let y' := if m <=? 2 then y - 1 else y in
  let era := y' / 400 in
  let yoe := y' - era * 400 in
  let mp := if 2 <? m then m - 3 else m + 9 in
  let doy := (153 * mp + 2) / 5 + d - 1 in
  let doe := yoe * 365 + yoe / 4 - yoe / 100 + doy in
  era * 146097 + doe - 719468.

(** [datetime.combine(date(y, m, d), time(hh, mm, ss))] as wall-clock
    seconds. *)
Definition combine (y m d hh mm ss : Z) : Z :=
  days_from_civil y m d * 86400 + hh * 3600 + mm * 60 + ss.

(** The wall-clock fields of a [datetime] lie between [datetime.min]
    and [datetime.max], the years 1 and 9999; arithmetic that leaves
    this range raises [OverflowError]. *)
Definition datetime_min : Z := combine 1 1 1 0 0 0.
Definition datetime_max : Z := combine 9999 12 31 23 59 59.

Definition representable (w : Z) : bool :=
  (datetime_min <=? w) && (w <=? datetime_max).

(** [dt.astimezone(target)]: the same object when the zone is already
    [target]; else [dt - dt.utcoffset()], handed to [target.fromutc],
    which adds the offset of the target. [None] when one of the two
    steps leaves the range of [datetime] and raises. *)
Definition astimezone (dt : datetime) (target : tzinfo) : option datetime :=
  if same_object (tz dt) target then Some dt
  else if representable (instant dt) then
    let local := fromutc target (instant dt) in
    if representable (wall local) then Some local else None
  else None.

Section Timestamps.
(** The timezone database behind [ZoneInfo(name)]; [None] when the
    constructor raises. The model follows the branches taken when the
    import of [zoneinfo] at the top of the module succeeded (Python 3.9
    and later); the [pytz] branches, taken when [ZoneInfo] is [None],
    are not modelled. *)
Variable tzdb : string -> option Zone.

(** [convert_local_to_utc(naive_dt, tz_name)], with [naive_dt] the
    wall-clock seconds of [datetime.combine(date, time)], fold 0. The
    [except Exception] branch is taken when a [ZoneInfo] constructor
    raises and when [astimezone] overflows. *)
Definition convert_local_to_utc (naive_dt : Z) (tz_name : option string)
  : datetime :=
  let as_utc := mkDatetime naive_dt false PytzUtc in
  match tz_name with
  | None => as_utc
  | Some name =>
      match tzdb name with
      | None => as_utc
      | Some z =>
          let local := mkDatetime naive_dt false (ZoneInfo name z) in
          match tzdb "UTC" with
          | None => as_utc
          | Some zu =>
              match astimezone local (ZoneInfo "UTC" zu) with
              | Some utc => utc
              | None => as_utc
              end
          end
      end
  end.

(** [convert_utc_to_local(utc_dt, tz_name)]. With a missing or empty
    [tz_name] the [try] block ends without a [return] and the function
    returns [None]; the [except Exception] branch, taken when the
    [ZoneInfo] constructor raises and when [astimezone] overflows,
    returns [utc_dt]. *)
Definition convert_utc_to_local (utc_dt : option datetime)
           (tz_name : option string) : option datetime :=
  match utc_dt with
  | None => None
  | Some dt =>
      match tz_name with
      | Some name =>
          if String.eqb name "" then None
          else
            match tzdb name with
            | Some z =>
                match astimezone dt (ZoneInfo name z) with
                | Some local => Some local
                | None => Some dt
                end
            | None => Some dt
            end
      | None => None
      end
  end.
End Timestamps.

Definition utc_zone : Zone := mkZone 0 [].

(** America/New_York from 2023 to 2025: Eastern Standard Time before the
    second Sunday of March, daylight time until the first Sunday of
    November, both changes at 2 o'clock local time. *)
Definition new_york : Zone :=
  mkZone (-18000)
    [ (combine 2023 3 12 7 0 0, -14400); (combine 2023 11 5 6 0 0, -18000);
      (combine 2024 3 10 7 0 0, -14400); (combine 2024 11 3 6 0 0, -18000);
      (combine 2025 3 9 7 0 0, -14400); (combine 2025 11 2 6 0 0, -18000) ].

(** A timezone database with the two zones above. *)
Definition tzdata (name : string) : option Zone :=
  if String.eqb name "UTC" then Some utc_zone
  else if String.eqb name "America/New_York" then Some new_york
  else None.

(** [w] is a wall-clock value that a forward transition skips. *)
Fixpoint skipped_wall (cur : Z) (ts : list (Z * Z)) (w : Z) : bool :=
  match ts with
  | [] => false
  | (t, o) :: ts' =>
      ((t + cur <=? w) && (w <? t + o)) || skipped_wall o ts' w
  end.

(** The transitions of a zone are listed in increasing order, in UTC and
    in both local renderings, which is what the binary searches of
    [ZoneInfo] rely on. *)
Fixpoint increasing (l : list Z) : bool :=
  match l with
  | [] => true
  | x :: l' =>
      match l' with [] => true | y :: _ => (x <? y) && increasing l' end
  end.

Fixpoint local_times (fold : bool) (cur : Z) (ts : list (Z * Z)) : list Z :=
  match ts with
  | [] => []
  | (t, o) :: ts' =>
      (t + (if fold then Z.min cur o else Z.max cur o))
        :: local_times fold o ts'
  end.

Definition well_formed (z : Zone) : bool :=
  increasing (map fst (transitions z))
  && increasing (local_times false (before z) (transitions z))
  && increasing (local_times true (before z) (transitions z)).

End Legacy.

(** ** The FastAPI application: [app/models.py] and [app/main.py] *)

Module App.

(** *** [models.py] *)

Record Report : Type := mkReport {
  id : Z;
  report_type : string;
  source_from : option string;
  subject : option string;
  message_content : string;
  received_at : option Z;
  reporter_name : option string;
  reporter_contact : option string;
  suggested_classification : string;
  classification : string;
  classified_by : option string;
  classified_on : option Z;
  is_verified : bool;
  verified_by : option string;
  verified_on : option Z;
  is_flagged : bool;
  flag_reason : option string;
  flagged_on : option Z;
  flagged_by : option string;
  created_on : Z;
  updated_on : Z;
  deleted : bool
}.

Record Attachment : Type := mkAttachment {
  att_id : Z;
  att_report_id : Z;
  original_name : string;
  storage_path : string;
  mime_type : option string;
  size_bytes : option Z;
  att_created_on : Z;
  att_deleted : bool
}.

(** The two tables of [Base.metadata]. *)
Record DB : Type := mkDB {
  reports : list Report;
  attachments : list Attachment
}.

Definition option_eq_dec {A} (dec : forall a b : A, {a = b} + {a <> b})
  : forall a b : option A, {a = b} + {a <> b}.
Proof. decide equality. Defined.

Definition Report_eq_dec : forall a b : Report, {a = b} + {a <> b}.
Proof.
  decide equality;
    first [ apply Z.eq_dec | apply string_dec | apply bool_dec
          | apply (option_eq_dec Z.eq_dec)
          | apply (option_eq_dec string_dec) ].
Defined.

(** [db.get(Report, report_id)] *)
Definition get_report (d : DB) (report_id : Z) : option Report :=
  find (fun r => id r =? report_id) (reports d).

(** [db.get(Attachment, attachment_id)] *)
Definition get_attachment (d : DB) (attachment_id : Z) : option Attachment :=
  find (fun a => att_id a =? attachment_id) (attachments d).

(** The next value of an autoincrement key. *)
Definition next_id (ids : list Z) : Z := fold_right Z.max 0 ids + 1.

(** Truth value of a Python string. *)
Definition truthy (s : string) : bool := negb (String.eqb s "").

(** [s or None] *)
Definition or_none (s : string) : option string :=
  if truthy s then Some s else None.

(** What a handler returns when it does not render a page. *)
Inductive Response : Type :=
| RedirectResponse (url : string) (status_code : Z)
| FileResponse (path filename media_type : string).

(** *** Queries *)

Section Queries.
(** [ilike v pattern]: the database's case-insensitive [LIKE] of the
    value [v] against [pattern]. *)
Variable ilike : string -> string -> bool.

(** [f"%{q}%"] *)
Definition like_pattern (q : string) : string := ("%" ++ q ++ "%")%string.

(** [or_(message_content.ilike(like), source_from.ilike(like),
    subject.ilike(like))]; the last two columns are nullable. *)
Definition text_condition (q : string) (r : Report) : option bool :=
  let like := like_pattern q in
  Sql.or3
    (Sql.or3 (Some (ilike (message_content r) like))
             (Sql.on_nullable (fun v => ilike v like) (source_from r)))
    (Sql.on_nullable (fun v => ilike v like) (subject r)).

(** The text condition in words: the pattern matches the message body,
    or the source identifier, or the subject. *)
Definition text_matches (q : string) (r : Report) : Prop :=
  ilike (message_content r) (like_pattern q) = true
  \/ (exists v, source_from r = Some v /\ ilike v (like_pattern q) = true)
  \/ (exists v, subject r = Some v /\ ilike v (like_pattern q) = true).

(** The type filter that [search_page] applies: set when [report_type]
    is given, not empty and not the word all. *)
Definition type_given (report_type : option string) : option string :=
  match report_type with
  | Some t => if truthy t && negb (String.eqb t "all") then Some t else None
  | None => None
  end.

(** The text filter: set when [q] is given and not empty. *)
Definition text_given (q : option string) : option string :=
  match q with
  | Some s => if truthy s then Some s else None
  | None => None
  end.

(** The [WHERE] clause of [search_page]. *)
Definition public_condition (q report_type : option string) (r : Report)
  : bool :=
  negb (deleted r) && negb (is_flagged r)
  && match type_given report_type with
     | Some t => String.eqb (App.report_type r) t
     | None => true
     end
  && match text_given q with
     | Some s => Sql.holds (text_condition s r)
     | None => true
     end.

(** The statement of [search_page]: the conditions added after
    [limit(200)] still go into the same [WHERE] clause. *)
Definition search_reports (d : DB) (q report_type : option string)
  : list Report :=
  firstn 200
    (Sql.order_by_desc created_on
       (filter (public_condition q report_type) (reports d))).

(** [attachments_map.setdefault(att.report_id, []).append(att)] *)
Fixpoint setdefault_append (k : Z) (a : Attachment)
         (m : list (Z * list Attachment)) : list (Z * list Attachment) :=
  match m with
  | [] => [(k, [a])]
  | (k', l) :: m' =>
      if k' =? k then (k', l ++ [a]) :: m'
      else (k', l) :: setdefault_append k a m'
  end.

Definition attachments_map (d : DB) (report_ids : list Z)
  : list (Z * list Attachment) :=
  match report_ids with
  | [] => []
  | _ =>
      fold_left (fun m a => setdefault_append (att_report_id a) a m)
        (filter (fun a =>
                   existsb (Z.eqb (att_report_id a)) report_ids
                   && negb (att_deleted a))
                (attachments d))
        []
  end.

(** The context that [search_page] hands to the template. *)
Record SearchPage : Type := mkSearchPage {
  sp_reports : list Report;
  sp_attachments_map : list (Z * list Attachment);
  sp_q : string;
  sp_report_type : string
}.

Definition search_page (d : DB) (q report_type : option string)
  : SearchPage :=
  let rs := search_reports d q report_type in
  mkSearchPage rs (attachments_map d (map id rs))
    (match text_given q with Some s => s | None => "" end)
    (match report_type with
     | Some t => if truthy t then t else "all"
     | None => "all"
     end).

(** The [filters] list of [admin_page], as one condition. *)
Definition admin_condition (status : string) (show_deleted : Z)
           (q : string) (r : Report) : bool :=
  (if show_deleted =? 0 then negb (deleted r) else true)
  && (if String.eqb status "flagged" then is_flagged r
      else if String.eqb status "unflagged" then negb (is_flagged r)
      else true)
  && (if truthy q then Sql.holds (text_condition q r) else true).

Definition page_size : Z := 25.

(** The context that [admin_page] hands to the template. *)
Record AdminPage : Type := mkAdminPage {
  ap_reports : list Report;
  ap_admin_user : string;
  ap_status : string;
  ap_show_deleted : Z;
  ap_q : string;
  ap_page : Z;
  ap_total_pages : Z;
  ap_total : Z;
  ap_total_all : Z;
  ap_total_flagged : Z;
  ap_total_deleted : Z
}.

Definition count {A} (p : A -> bool) (l : list A) : Z :=
  Z.of_nat (List.length (filter p l)).

(** [admin_page]. [order] is the order in which the database returns
    the rows of the page query of this request: [ORDER BY created_on
    DESC] fixes it up to the rows with equal [created_on], and each
    request sends a query of its own. The result is [None] when the
    offset is not a 64-bit integer: the page query raises and the
    request ends in a server error. *)
Definition admin_page (order : list Report -> list Report) (d : DB)
           (admin_user status : string) (show_deleted : Z) (q : string)
           (page : Z) : option AdminPage :=
  let page := Z.max page 1 in
  let matching := filter (admin_condition status show_deleted q) (reports d) in
  let total := Z.of_nat (List.length matching) in
  let offset := (page - 1) * page_size in
  if offset <=? Sql.bigint_max then
    Some
      (mkAdminPage
         (Sql.limit_offset (Z.to_nat page_size) (Z.to_nat offset)
            (order matching))
         admin_user status show_deleted q page
         (Z.max ((total + page_size - 1) / page_size) 1)
         total
         (count (fun _ => true) (reports d))
         (count is_flagged (reports d))
         (count deleted (reports d)))
  else None.
End Queries.

(** *** [submit_report] *)

(** The uploaded file of the form. *)
Record UploadFile : Type := mkUploadFile {
  filename : string;
  content_type : option string;
  content_length : Z
}.

Section Submit.
(** [datetime.fromisoformat], [None] when it raises [ValueError]. *)
Variable fromisoformat : string -> option Z.
(** [Path(name).suffix] *)
Variable suffix : string -> string.

(** The row that [Report(...)] and the server defaults produce. *)
Definition new_report (new_id : Z) (rtype source subj message : string)
           (received : option Z) (name contact : string) (db_now : Z)
  : Report :=
  mkReport new_id rtype (or_none source) (or_none subj) message received
    (or_none name) (or_none contact)
    "unclassified" "unclassified" None None
    false None None
    false None None None
    db_now db_now false.

(** [submit_report]. [uuid_hex] is the value of [uuid4().hex] and
    [db_now] the database clock at the two inserts. *)
Definition submit_report (d : DB)
           (rtype source subj message received_at name contact : string)
           (attachment : option UploadFile) (uuid_hex : string)
           (db_now : Z) : DB * Response :=
  let parsed_received_at :=
    if truthy received_at then fromisoformat received_at else None in
  let report :=
    new_report (next_id (map id (reports d))) rtype source subj message
      parsed_received_at name contact db_now in
  let d1 := mkDB (reports d ++ [report]) (attachments d) in
  let d2 :=
    match attachment with
    | Some f =>
        if truthy (filename f) then
          let dest_path :=
            ("uploads/" ++ uuid_hex ++ suffix (filename f))%string in
          mkDB (reports d1)
            (attachments d1
             ++ [mkAttachment (next_id (map att_id (attachments d1)))
                   (id report) (filename f) dest_path (content_type f)
                   (Some (content_length f)) db_now false])
        else d1
    | None => d1
    end in
  (d2, RedirectResponse "/" 303).
End Submit.

(** *** [admin_action] *)

Definition flag (r : Report) (reason admin_user : string) (now : Z) : Report :=
  mkReport (id r) (report_type r) (source_from r) (subject r)
    (message_content r) (received_at r) (reporter_name r)
    (reporter_contact r) (suggested_classification r) (classification r)
    (classified_by r) (classified_on r) (is_verified r) (verified_by r)
    (verified_on r)
    true (Some (if truthy reason then reason else "flagged by admin"))
    (Some now) (Some admin_user)
    (created_on r) (updated_on r) (deleted r).

Definition unflag (r : Report) : Report :=
  mkReport (id r) (report_type r) (source_from r) (subject r)
    (message_content r) (received_at r) (reporter_name r)
    (reporter_contact r) (suggested_classification r) (classification r)
    (classified_by r) (classified_on r) (is_verified r) (verified_by r)
    (verified_on r)
    false None None None
    (created_on r) (updated_on r) (deleted r).

(** [report.deleted = True]. The handler also assigns
    [report.deleted_on = now], an attribute that [models.py] does not
    map to a column, so the commit does not store it. *)
Definition delete (r : Report) : Report :=
  mkReport (id r) (report_type r) (source_from r) (subject r)
    (message_content r) (received_at r) (reporter_name r)
    (reporter_contact r) (suggested_classification r) (classification r)
    (classified_by r) (classified_on r) (is_verified r) (verified_by r)
    (verified_on r)
    (is_flagged r) (flag_reason r) (flagged_on r) (flagged_by r)
    (created_on r) (updated_on r) true.

Definition touch (r : Report) (db_now : Z) : Report :=
  mkReport (id r) (report_type r) (source_from r) (subject r)
    (message_content r) (received_at r) (reporter_name r)
    (reporter_contact r) (suggested_classification r) (classification r)
    (classified_by r) (classified_on r) (is_verified r) (verified_by r)
    (verified_on r)
    (is_flagged r) (flag_reason r) (flagged_on r) (flagged_by r)
    (created_on r) db_now (deleted r).

(** [db.commit()] for one loaded row: an [UPDATE] is sent when a mapped
    attribute has a new value, and it sets [updated_on] ([onupdate]). *)
Definition commit (d : DB) (old new : Report) (db_now : Z) : DB :=
  if Report_eq_dec new old then d
  else
    mkDB (map (fun r => if id r =? id old then touch new db_now else r)
              (reports d))
         (attachments d).

(** The [if action == ...] chain of [admin_action]; any other action
    leaves the loaded row as it is. *)
Definition transition (action reason admin_user : string) (now : Z)
           (report : Report) : Report :=
  if String.eqb action "flag" then flag report reason admin_user now
  else if String.eqb action "unflag" then unflag report
  else if String.eqb action "delete" then delete report
  else report.

(** [admin_action]; [now] is [datetime.utcnow()] and [db_now] the
    database clock at the commit. *)
Definition admin_action (d : DB) (report_id : Z) (action reason : string)
           (admin_user : string) (now db_now : Z) : DB * Response :=
  match get_report d report_id with
  | None => (d, RedirectResponse "/admin" 303)
  | Some report =>
      if deleted report then (d, RedirectResponse "/admin" 303)
      else
        (commit d report (transition action reason admin_user now report)
           db_now,
         RedirectResponse "/admin" 303)
  end.

(** *** [download_attachment] *)

Definition download_attachment (d : DB) (attachment_id : Z) : Response :=
  match get_attachment d attachment_id with
  | None => RedirectResponse "/" 303
  | Some att =>
      if att_deleted att then RedirectResponse "/" 303
      else
        match get_report d (att_report_id att) with
        | None => RedirectResponse "/" 303
        | Some report =>
            if deleted report || is_flagged report
            then RedirectResponse "/" 303
            else
              FileResponse (storage_path att) (original_name att)
                (match mime_type att with
                 | Some m => if truthy m then m else "application/octet-stream"
                 | None => "application/octet-stream"
                 end)
        end
  end.

(** *** A model of [datetime.fromisoformat] *)

Definition digit (c : ascii) : option Z :=
  let n := nat_of_ascii c in
  if ((48 <=? n) && (n <=? 57))%nat then Some (Z.of_nat (n - 48)) else None.

(** Reads exactly [n] decimal digits. *)
Fixpoint number (n : nat) (s : string) (acc : Z) : option (Z * string) :=
  match n with
  | O => Some (acc, s)
  | S n' =>
      match s with
      | String c s' =>
          match digit c with
          | Some v => number n' s' (acc * 10 + v)
          | None => None
          end
      | EmptyString => None
      end
  end.

Definition expect (c : ascii) (s : string) : option string :=
  match s with
  | String x s' => if Ascii.eqb c x then Some s' else None
  | EmptyString => None
  end.

Definition bind {A B} (x : option A) (f : A -> option B) : option B :=
  match x with Some a => f a | None => None end.

Definition leap (y : Z) : bool :=
  ((y mod 4 =? 0) && negb (y mod 100 =? 0)) || (y mod 400 =? 0).

Definition days_in_month (y m : Z) : Z :=
  if m =? 2 then (if leap y then 29 else 28)
  else if (m =? 4) || (m =? 6) || (m =? 9) || (m =? 11) then 30 else 31.

Definition valid_date (y m d : Z) : bool :=
  (1 <=? y) && (1 <=? m) && (m <=? 12) && (1 <=? d)
  && (d <=? days_in_month y m).

(** The time part: HH:MM or HH:MM:SS, nothing after it. *)
Definition parse_time (s : string) : option Z :=
  bind (number 2 s 0) (fun '(hh, s) =>
  bind (expect ":" s) (fun s =>
  bind (number 2 s 0) (fun '(mm, s) =>
  bind (match s with
        | EmptyString => Some 0
        | _ => bind (expect ":" s) (fun s =>
               bind (number 2 s 0) (fun '(ss, s) =>
               match s with EmptyString => Some ss | _ => None end))
        end) (fun ss =>
  if (hh <? 24) && (mm <? 60) && (ss <? 60)
  then Some (hh * 3600 + mm * 60 + ss) else None)))).

(** [fromisoformat] on the values of a date or datetime-local form
    field: YYYY-MM-DD, alone or followed by one separator character and
    a time. Every other string is rejected ([None] for [ValueError]);
    the further formats that Python accepts are not modelled. *)
Definition fromisoformat (s : string) : option Z :=
  bind (number 4 s 0) (fun '(y, s) =>
  bind (expect "-" s) (fun s =>
  bind (number 2 s 0) (fun '(m, s) =>
  bind (expect "-" s) (fun s =>
  bind (number 2 s 0) (fun '(d, s) =>
  if valid_date y m d then
    match s with
    | EmptyString => Some (Legacy.days_from_civil y m d * 86400)
    | String _ s' =>
        bind (parse_time s') (fun t =>
        Some (Legacy.days_from_civil y m d * 86400 + t))
    end
  else None))))).

End App.

(** ** The search conditions in the words of the specification *)

Module Spec.
Section Search.
Variable ilike : string -> string -> bool.



End Search.



End Spec.

(** ** Sample data for the scenarios *)

Module Examples.

Definition scam_text : string :=
  "Win now http://bit.ly/x and www.scam.test/y".

(** Three reports: a plain one, a flagged one and a deleted one, each
    with one attachment. *)
Definition plain : App.Report :=
  App.new_report 1 "sms" "+15551234567" "" scam_text None "" "" 100.

Definition flagged : App.Report :=
  App.flag (App.new_report 2 "email" "win@scam.test" "You win" "Claim it"
              None "" "" 200)
           "phishing" "admin" 250.

Definition removed : App.Report :=
  App.delete (App.new_report 3 "sms" "" "" "Win a prize" None "" "" 300).

Definition file_of (k rid : Z) : App.Attachment :=
  App.mkAttachment k rid "shot.png" "uploads/shot.png" (Some "image/png")
                   (Some 10) 400 false.

Definition small_db : App.DB :=
  App.mkDB [plain; flagged; removed] [file_of 1 1; file_of 2 2; file_of 3 3].

(** 201 plain reports, created one second apart. *)
Definition big_db : App.DB :=
  App.mkDB
    (map (fun n => App.new_report (Z.of_nat n) "sms" "" "" "spam" None ""
                     "" (Z.of_nat n))
         (seq 1 201))
    [].

(** The legacy database of the link scenario: one report that contains
    links, no link recorded yet. *)
Definition link_report (text : string) : Legacy.ReportRow :=
  Legacy.mkReportRow 1 "sms" (Some "+15551234567") (Some text) None true
                     100 100 false None.

Definition link_db (text : string) : Legacy.DB :=
  Legacy.mkDB [link_report text] [] [] [].

Definition clock (n : nat) : Z := 1000 + Z.of_nat n.

End Examples.

(** ** Notions used by the further properties *)

Module Links.

(** Two databases that differ in the links table at most. *)
Definition same_but_links (d d' : Legacy.DB) : Prop :=
  Legacy.reports d' = Legacy.reports d
  /\ Legacy.report_audit d' = Legacy.report_audit d
  /\ Legacy.attachments d' = Legacy.attachments d.

(** A link row as the extraction writes it for one of [rows], given the
    database [d] that the run started from. *)
Definition extracted (d : Legacy.DB) (rows : list Legacy.ReportRow)
           (l : Legacy.LinkRow) : Prop :=
  Legacy.link_deleted l = false
  /\ Legacy.safety l = None
  /\ Legacy.url l <> ""
  /\ Legacy.domain l <> ""
  /\ exists r,
      In r rows
      /\ Legacy.id r = Legacy.link_report_id l
      /\ In (Legacy.url l) (Legacy.extract_urls (Legacy.scanned_text r))
      /\ ~ In (Legacy.url l) (Legacy.existing_urls d (Legacy.id r)).

(** The link rows of one report, deleted ones included. *)
Definition links_of (d : Legacy.DB) (rid : Z) : list Legacy.LinkRow :=
  filter (fun l => Legacy.link_report_id l =? rid) (Legacy.report_links d).

End Links.

Module Tokens.

(** The 256 characters. *)
Definition all_ascii : list ascii := map ascii_of_nat (seq 0 256).

(** Every character that the pattern [r] can consume satisfies [ok]. *)
Fixpoint within (ok : ascii -> bool) (r : Legacy.regex) : bool :=
  match r with
  | Legacy.Lit p => Legacy.string_forallb ok p
  | Legacy.Many cls _ => forallb (fun c => implb (cls c) (ok c)) all_ascii
  | Legacy.Seq a b | Legacy.Alt a b => within ok a && within ok b
  | Legacy.Opt a => within ok a
  end.

End Tokens.

Module Zones.

(** The wall-clock intervals that two consecutive transitions skip or
    repeat do not overlap: the later end of the first is not after the
    earlier end of the second. *)
Fixpoint spaced (cur : Z) (ts : list (Z * Z)) : bool :=
  match ts with
  | [] => true
  | (t, o) :: ts' =>
      match ts' with
      | [] => true
      | (t1, o1) :: _ => t + Z.max cur o <=? t1 + Z.min o o1
      end
      && spaced o ts'
  end.

End Zones.

Module Moderation.

(** The arguments of one call of [admin_action]. *)
Record Call : Type := mkCall {
  call_report_id : Z;
  call_action : string;
  call_reason : string;
  call_admin_user : string;
  call_now : Z;
  call_db_now : Z
}.

(** The database after one call, and after a sequence of calls. *)
Definition apply_call (d : App.DB) (c : Call) : App.DB :=
  fst (App.admin_action d (call_report_id c) (call_action c) (call_reason c)
         (call_admin_user c) (call_now c) (call_db_now c)).

Definition apply_calls (d : App.DB) (calls : list Call) : App.DB :=
  fold_left apply_call calls d.

(** The flag fields of a row agree with its flag: a flagged report has a
    reason that is not empty, a time and a moderator; a report that is
    not flagged has none of the three. *)
Definition flag_consistent (r : App.Report) : Prop :=
  if App.is_flagged r
  then (exists reason, App.flag_reason r = Some reason /\ reason <> "")
       /\ App.flagged_on r <> None
       /\ App.flagged_by r <> None
  else App.flag_reason r = None
       /\ App.flagged_on r = None
       /\ App.flagged_by r = None.

(** The columns that moderation writes: the flag fields and
    [deleted]. *)
Definition marks (r : App.Report) :=
  (App.is_flagged r, App.flag_reason r, App.flagged_on r, App.flagged_by r,
   App.deleted r).

(** What was reported, how it was classified and verified, and when it
    was created: every column but the flag fields, [deleted] and
    [updated_on]. *)
Definition content (r : App.Report) :=
  (App.id r, App.report_type r, App.source_from r, App.subject r,
   App.message_content r, App.received_at r,
   (App.reporter_name r, App.reporter_contact r),
   (App.suggested_classification r, App.classification r,
    App.classified_by r, App.classified_on r),
   (App.is_verified r, App.verified_by r, App.verified_on r),
   App.created_on r).

End Moderation.

Module Pages.

(** [attachments_map.get(k)] on the dictionary that [search_page] builds:
    the entry under the first occurrence of the key. *)
Definition dict_get (k : Z) (m : list (Z * list App.Attachment))
  : option (list App.Attachment) :=
  option_map snd (find (fun e => fst e =? k) m).

(** The attachments of report [k] that are not deleted, in table order. *)
Definition live_attachments (d : App.DB) (k : Z) : list App.Attachment :=
  filter (fun a => (App.att_report_id a =? k) && negb (App.att_deleted a))
         (App.attachments d).

End Pages.

(** ** The legacy application: submitting a report and the dashboard *)

Module Intake.

(** A row of the legacy [reports] table with every column of the
    payload that the [Submit Report] form inserts. *)
Record FullReport : Type := mkFullReport {
  id : Z;
  type : string;
  reported_via : string;
  received_at : option Legacy.datetime;
  received_at_tz : option string;
  source_from : option string;
  subject : option string;
  message_content : option string;
  pose_as_id : option Z;
  contain_link : bool;
  screenshot : option string;
  screenshot_mime : option string;
  screenshot_size : option Z;
  ocr_preview : option string;
  spam_score : option Z;
  source_ip : option string;
  report_status : string;
  processing_flags : list string;
  created_on : Legacy.datetime;
  updated_on : Legacy.datetime;
  deleted : bool
}.

(** The uploaded screenshot: its bytes, its type and its size. *)
Record Screenshot : Type := mkScreenshot {
  shot_bytes : string;
  shot_type : string;
  shot_size : Z
}.

(** The values of the form. *)
Record Form : Type := mkForm {
  type_val : string;
  form_reported_via : string;
  form_source_from : string;
  form_subject : string;
  form_message_content : string;
  naive_local_dt : Z;
  user_tz : string;
  pose_id : option Z;
  form_contain_link : bool;
  form_link_url : string;
  form_screenshot : option Screenshot
}.

(** What a run of the submit handler leaves: the two tables, the id of
    the new report and whether the success message was reached. *)
Record Submitted : Type := mkSubmitted {
  reports : list FullReport;
  report_links : list Legacy.LinkRow;
  new_id : Z;
  succeeded : bool
}.

(** The rows of the query go through [pd.DataFrame] before the loop
    reads them. A NULL comes out of the frame as Python's [None] or as
    the missing-value marker of pandas ([NaT] in a column of datetimes,
    [NaN] otherwise), according to the type that pandas gives to the
    column. The marker is truthy, and [NaT.strftime] raises. *)
Inductive Cell (A : Type) : Type :=
| Present (a : A)
| PyNone
| Marker.
Arguments Present {A} a.
Arguments PyNone {A}.
Arguments Marker {A}.

(** What a frame holds in place of the NULLs of one column. *)
Inductive Null : Type := AsNone | AsMarker.

Definition cell {A : Type} (null : Null) (v : option A) : Cell A :=
  match v with
  | Some a => Present a
  | None => match null with AsNone => PyNone | AsMarker => Marker end
  end.

Definition of_option {A : Type} (v : option A) : Cell A :=
  match v with Some a => Present a | None => PyNone end.

Section Handlers.
Variable tzdb : string -> option Legacy.Zone.
(** [urlparse(url).netloc], [None] when [urlparse] raises. *)
Variable urlparse_netloc : string -> option string.

(** [datetime.now(pytz.utc)] for the instant [now]. *)
Definition utc_now (now : Z) : Legacy.datetime :=
  Legacy.mkDatetime now false Legacy.PytzUtc.

(** The payload of the report. *)
Definition payload (new_id : Z) (f : Form) (now : Z) : FullReport :=
  mkFullReport new_id (type_val f) (form_reported_via f)
    (Some (Legacy.convert_local_to_utc tzdb (naive_local_dt f)
             (Some (user_tz f))))
    (Some (user_tz f))
    (App.or_none (form_source_from f))
    (App.or_none (form_subject f))
    (App.or_none (form_message_content f))
    (pose_id f)
    (form_contain_link f)
    (option_map shot_bytes (form_screenshot f))
    (option_map shot_type (form_screenshot f))
    (option_map shot_size (form_screenshot f))
    None None None "new" []
    (utc_now now) (utc_now now) false.

(** The [if submit:] block of the [Submit Report] page. The link URL
    field is only shown, and so only read, when the box is ticked. *)
Definition submit (rs : list FullReport) (links : list Legacy.LinkRow)
           (f : Form) (now : Z) : Submitted :=
  let new_id := App.next_id (map id rs) in
  let rs' := Legacy.insert_simple rs (payload new_id f now) in
  let link_url := if form_contain_link f then form_link_url f else "" in
  if negb (new_id =? 0) && form_contain_link f && App.truthy link_url then
    match urlparse_netloc link_url with
    | None => mkSubmitted rs' links new_id false
    | Some loc =>
        mkSubmitted rs'
          (Legacy.insert_simple links
             (Legacy.mkLinkRow new_id link_url
                (Legacy.domain_of link_url loc) None now now false))
          new_id (negb (new_id =? 0))
    end
  else mkSubmitted rs' links new_id (negb (new_id =? 0)).

(** *** The dashboard *)

Variable ilike : string -> string -> bool.




(** The choice of pandas for the columns [received_at] and
    [received_at_tz] of the frame at hand. *)
Variable null_received_at : Null.
Variable null_received_at_tz : Null.

(** [strftime] with the format of the dashboard. *)
Variable strftime : Legacy.datetime -> string.

(** [utc_dt = r["received_at"] or r["created_on"]]: only [None] falls
    back to [created_on]. The datetimes of the store are aware, so the
    [replace] of the next line is not reached. *)
Definition utc_dt (r : FullReport) : Cell Legacy.datetime :=
  match cell null_received_at (received_at r) with
  | PyNone => Present (created_on r)
  | c => c
  end.

(** [tz_name = r.get("received_at_tz") or None] *)
Definition tz_name (r : FullReport) : Cell string :=
  match cell null_received_at_tz (received_at_tz r) with
  | Present s => if App.truthy s then Present s else PyNone
  | c => c
  end.

(** [local_dt = convert_utc_to_local(utc_dt, tz_name) if utc_dt else
    None]. With [NaN] as name the [ZoneInfo] constructor raises and the
    [except] branch returns [utc_dt]; [NaT] stays [NaT] under a name
    and gives [None] without one. *)
Definition local_dt (r : FullReport) : Cell Legacy.datetime :=
  match utc_dt r, tz_name r with
  | Present dt, Present name =>
      of_option (Legacy.convert_utc_to_local tzdb (Some dt) (Some name))
  | Present dt, PyNone =>
      of_option (Legacy.convert_utc_to_local tzdb (Some dt) None)
  | Present dt, Marker => Present dt
  | PyNone, _ => PyNone
  | Marker, PyNone => PyNone
  | Marker, _ => Marker
  end.

(** [x.strftime(...) if x else "unknown"]; [None] when [strftime]
    raises. *)
Definition display (x : Cell Legacy.datetime) : option string :=
  match x with
  | Present dt => Some (strftime dt)
  | PyNone => Some "unknown"
  | Marker => None
  end.

(** The two times shown for a row. *)
Definition local_display (r : FullReport) : option string :=
  display (local_dt r).

Definition utc_display (r : FullReport) : option string :=
  display (utc_dt r).
End Handlers.

End Intake.

Module Samples.

(** Two submissions of the scenario text on the fourth of July 2024, nine
    in the morning in New York: one with a link URL that [urlparse]
    accepts, one with a URL that has an opening bracket only. *)
Definition form_with (link_url : string) : Intake.Form :=
  Intake.mkForm "sms" "web" "+15551234567" "" Examples.scam_text
    (Legacy.combine 2024 7 4 9 0 0) "America/New_York" None true link_url
    None.

Definition good_form : Intake.Form := form_with "http://bit.ly/x".

Definition bad_form : Intake.Form := form_with "http://[bit.ly/x".

(** A row as an import without timezone name leaves it. *)
Definition row_without_zone : Intake.FullReport :=
  Intake.mkFullReport 7 "sms" "self"
    (Some (Legacy.mkDatetime (Legacy.combine 2024 7 4 13 0 0) false
                             Legacy.PytzUtc))
    None None None (Some "Win now") None false None None None None None None
    "new" []
    (Intake.utc_now (Legacy.combine 2024 7 4 13 5 0))
    (Intake.utc_now (Legacy.combine 2024 7 4 13 5 0)) false.

End Samples.

(** * Properties *)

(** ** Ordering and limits *)

Section OrderByFacts.
Context {A : Type} (key : A -> Z).

Lemma insert_desc_perm (x : A) (l : list A) :
  Permutation (x :: l) (Sql.insert_desc key x l).
Proof.
  induction l as [|y l IH]; simpl; [reflexivity|].
  destruct (key y <=? key x); [reflexivity|].
  rewrite perm_swap. now apply perm_skip.
Qed.

Lemma order_by_desc_perm (l : list A) :
  Permutation l (Sql.order_by_desc key l).
Proof.
  induction l as [|x l IH]; simpl; [constructor|].
  rewrite <- insert_desc_perm. now apply perm_skip.
Qed.

Lemma insert_desc_sorted (x : A) (l : list A) :
  Sql.newest_first key l -> Sql.newest_first key (Sql.insert_desc key x l).
Proof.
  unfold Sql.newest_first.
  induction l as [|y l IH]; simpl; intros Hs.
  - repeat constructor.
  - destruct (key y <=? key x) eqn:E.
    + apply Z.leb_le in E. constructor; [assumption|].
      inversion Hs as [|? ? _ Hall]; subst.
      constructor; [assumption|].
      eapply Forall_impl; [|exact Hall]. simpl. intros; lia.
    + apply Z.leb_gt in E.
      inversion Hs as [|? ? Hs' Hall]; subst.
      constructor; [now apply IH|].
      rewrite <- insert_desc_perm.
      constructor; [lia | assumption].
Qed.

Lemma order_by_desc_sorted (l : list A) :
  Sql.newest_first key (Sql.order_by_desc key l).
Proof.
  induction l as [|x l IH]; simpl.
  - constructor.
  - now apply insert_desc_sorted.
Qed.

Lemma order_by_desc_length (l : list A) :
  List.length (Sql.order_by_desc key l) = List.length l.
Proof. symmetry. apply Permutation_length, order_by_desc_perm. Qed.

Lemma order_by_desc_In (l : list A) (x : A) :
  In x (Sql.order_by_desc key l) <-> In x l.
Proof.
  split; apply Permutation_in;
    [symmetry|]; apply order_by_desc_perm.
Qed.

Lemma firstn_In (n : nat) (l : list A) (x : A) :
  In x (firstn n l) -> In x l.
Proof.
  intros H. rewrite <- (firstn_skipn n l). apply in_or_app. now left.
Qed.

Lemma skipn_In (n : nat) (l : list A) (x : A) :
  In x (skipn n l) -> In x l.
Proof.
  intros H. rewrite <- (firstn_skipn n l). apply in_or_app. now right.
Qed.

(** A full list cut at [n] rows: what is cut off is empty unless [n]
    rows were kept. *)
Lemma skipn_nonempty_full (n : nat) (l : list A) :
  skipn n l <> [] -> List.length (firstn n l) = n.
Proof.
  intros H. apply firstn_length_le.
  destruct (Nat.le_gt_cases n (List.length l)) as [Hle|Hgt]; [assumption|].
  exfalso. apply H. apply skipn_all2. lia.
Qed.
End OrderByFacts.

(** ** Search *)

Section SearchFacts.
Variable ilike : string -> string -> bool.

Lemma text_condition_holds (q : string) (r : App.Report) :
  Sql.holds (App.text_condition ilike q r) = true
  <-> App.text_matches ilike q r.
Proof.
  unfold App.text_condition, App.text_matches, Sql.on_nullable.
  destruct (ilike (App.message_content r) (App.like_pattern q)) eqn:Em,
           (App.source_from r) as [v1|] eqn:Es,
           (App.subject r) as [v2|] eqn:Eb; simpl;
    try destruct (ilike v1 (App.like_pattern q)) eqn:E1;
    try destruct (ilike v2 (App.like_pattern q)) eqn:E2; simpl;
    split; intros H; try reflexivity; try discriminate;
    try (now left);
    try (right; left; eexists; split; [reflexivity|assumption]);
    try (right; right; eexists; split; [reflexivity|assumption]);
    destruct H as [H|[(v & Hv & H)|(v & Hv & H)]];
    try discriminate; try congruence.
Qed.

Lemma public_condition_spec (q report_type : option string) (r : App.Report) :
  App.public_condition ilike q report_type r = true
  <-> App.deleted r = false
      /\ App.is_flagged r = false
      /\ (forall t, App.type_given report_type = Some t ->
                    App.report_type r = t)
      /\ (forall s, App.text_given q = Some s -> App.text_matches ilike s r).
Proof.
  unfold App.public_condition.
  rewrite !andb_true_iff, !negb_true_iff.
  split.
  - intros [[[Hd Hf] Ht] Hq]. repeat split; try assumption.
    + intros t Et. rewrite Et in Ht. now apply String.eqb_eq in Ht.
    + intros s Es. rewrite Es in Hq. now apply text_condition_holds.
  - intros (Hd & Hf & Ht & Hq). repeat split; try assumption.
    + destruct (App.type_given report_type) as [t|]; [|reflexivity].
      apply String.eqb_eq. now apply Ht.
    + destruct (App.text_given q) as [s|]; [|reflexivity].
      apply text_condition_holds. now apply Hq.
Qed.

Lemma search_reports_In (d : App.DB) (q report_type : option string)
      (r : App.Report) :
  In r (App.search_reports ilike d q report_type) ->
  In r (App.reports d) /\ App.public_condition ilike q report_type r = true.
Proof.
  unfold App.search_reports. intros H.
  apply firstn_In, order_by_desc_In, filter_In in H. exact H.
Qed.
End SearchFacts.

Lemma newest_first_app {A : Type} (key : A -> Z) (l1 l2 : list A) :
  Sql.newest_first key (l1 ++ l2) ->
  Sql.newest_first key l1 /\ Sql.newest_first key l2.
Proof.
  unfold Sql.newest_first.
  induction l1 as [|x l1 IH]; simpl; intros H.
  - split; [constructor | assumption].
  - inversion H as [|? ? Hs Hall]; subst.
    destruct (IH Hs) as [H1 H2]. split; [|assumption].
    constructor; [assumption|].
    apply Forall_app in Hall. tauto.
Qed.

Lemma limit_offset_sorted {A : Type} (key : A -> Z) (n k : nat) (l : list A) :
  Sql.newest_first key l -> Sql.newest_first key (Sql.limit_offset n k l).
Proof.
  unfold Sql.limit_offset. intros H.
  rewrite <- (firstn_skipn k l) in H.
  apply newest_first_app in H. destruct H as [_ H].
  rewrite <- (firstn_skipn n (skipn k l)) in H.
  apply newest_first_app in H. tauto.
Qed.

Lemma total_pages_ceiling (total : Z) :
  0 <= total ->
  let pages := Z.max ((total + App.page_size - 1) / App.page_size) 1 in
  1 <= pages
  /\ total <= App.page_size * pages
  /\ (1 < pages -> App.page_size * (pages - 1) < total).
Proof.
  unfold App.page_size. intros Hpos. cbv zeta.
  pose proof (Z.div_mod (total + 25 - 1) 25 ltac:(lia)) as Hdm.
  pose proof (Z.mod_pos_bound (total + 25 - 1) 25 ltac:(lia)) as Hb.
  lia.
Qed.



Section SpecFacts.
Variable ilike : string -> string -> bool.






End SpecFacts.






(** C2. A flagged report is in no public search result, whatever the text
    and type filters, and the public attachment download refuses an
    attachment whose report is flagged or deleted. *)
Theorem C2_flagged_reports_stay_private :
  forall (ilike : string -> string -> bool) (d : App.DB),
    (forall q report_type r,
        App.is_flagged r = true ->
        ~ In r (App.search_reports ilike d q report_type))
    /\ (forall attachment_id att report,
           App.get_attachment d attachment_id = Some att ->
           App.get_report d (App.att_report_id att) = Some report ->
           App.is_flagged report = true \/ App.deleted report = true ->
           App.download_attachment d attachment_id
           = App.RedirectResponse "/" 303).
Proof.
  intros ilike d. split.
  - intros q report_type r Hf Hin.
    apply search_reports_In in Hin. destruct Hin as [_ Hc].
    apply public_condition_spec in Hc. destruct Hc as (_ & Hnf & _).
    congruence.
  - intros attachment_id att report Ha Hr Hbad.
    unfold App.download_attachment. rewrite Ha.
    destruct (App.att_deleted att); [reflexivity|].
    rewrite Hr.
    destruct Hbad as [H|H]; rewrite H; [|reflexivity].
    now rewrite orb_true_r.
Qed.


Lemma C2_witness :
  ~ In Examples.flagged
       (App.search_reports Sql.ilike Examples.small_db (Some "win") None)
  /\ App.download_attachment Examples.small_db 2 = App.RedirectResponse "/" 303
  /\ App.download_attachment Examples.small_db 3 = App.RedirectResponse "/" 303.
Proof.
  destruct (C2_flagged_reports_stay_private Sql.ilike Examples.small_db)
    as [Hsearch Hfile].
  split; [|split].
  - apply Hsearch. reflexivity.
  - apply (Hfile 2 (Examples.file_of 2 2) Examples.flagged);
      [reflexivity | reflexivity | left; reflexivity].
  - apply (Hfile 3 (Examples.file_of 3 3) Examples.removed);
      [reflexivity | reflexivity | right; reflexivity].
Defined.

(** ** Submission *)



(** ** Moderation in [main.py] *)

Lemma find_map_keep_id (f : App.Report -> App.Report) (l : list App.Report)
      (k : Z) :
  (forall r, App.id (f r) = App.id r) ->
  find (fun r => App.id r =? k) (map f l)
  = option_map f (find (fun r => App.id r =? k) l).
Proof.
  intros Hid. induction l as [|x l IH]; simpl; [reflexivity|].
  rewrite Hid. destruct (App.id x =? k); [reflexivity | exact IH].
Qed.

Lemma transition_id action reason admin_user now r :
  App.id (App.transition action reason admin_user now r) = App.id r.
Proof.
  unfold App.transition.
  repeat match goal with |- context [String.eqb ?a ?b] =>
           destruct (String.eqb a b) end; reflexivity.
Qed.

Lemma get_report_id (d : App.DB) (k : Z) (r : App.Report) :
  App.get_report d k = Some r -> App.id r = k.
Proof.
  unfold App.get_report. intros H. apply find_some in H.
  now apply Z.eqb_eq.
Qed.

(** What a commit that changes the loaded row [old] into [new] does to
    the lookups. *)
Lemma get_report_commit (d : App.DB) (old new : App.Report) (db_now k : Z) :
  App.id new = App.id old ->
  new <> old ->
  App.get_report (App.commit d old new db_now) k
  = option_map
      (fun r => if App.id r =? App.id old then App.touch new db_now else r)
      (App.get_report d k).
Proof.
  intros Hid Hne. unfold App.commit.
  destruct (App.Report_eq_dec new old) as [E|_]; [contradiction|].
  unfold App.get_report. simpl. apply find_map_keep_id.
  intros r. destruct (App.id r =? App.id old) eqn:E; [|reflexivity].
  apply Z.eqb_eq in E. simpl. congruence.
Qed.

Lemma delete_changes (r : App.Report) :
  App.deleted r = false -> App.delete r <> r.
Proof.
  intros Hd E. apply (f_equal App.deleted) in E. simpl in E. congruence.
Qed.

Lemma admin_action_noop (d : App.DB) report_id action reason admin_user
      now db_now :
  (App.get_report d report_id = None
   \/ exists r, App.get_report d report_id = Some r /\ App.deleted r = true) ->
  App.admin_action d report_id action reason admin_user now db_now
  = (d, App.RedirectResponse "/admin" 303).
Proof.
  unfold App.admin_action. intros [H|(r & H & Hd)]; rewrite H.
  - reflexivity.
  - now rewrite Hd.
Qed.

(** C6, as the code has it. In [admin_action] a flag, unflag or delete of
    a report that does not exist or is already deleted changes nothing
    and redirects to the admin page as on success; once a delete went
    through, every later action on that report, a second delete included,
    leaves the database as the first delete left it. *)
Theorem C6_admin_action_ignores_missing_and_deleted :
  forall (d : App.DB) (report_id : Z),
    (forall action reason admin_user now db_now,
        (App.get_report d report_id = None
         \/ exists r, App.get_report d report_id = Some r
                      /\ App.deleted r = true) ->
        App.admin_action d report_id action reason admin_user now db_now
        = (d, App.RedirectResponse "/admin" 303))
    /\ (forall r reason admin_user now db_now,
           App.get_report d report_id = Some r ->
           App.deleted r = false ->
           let d1 :=
             fst (App.admin_action d report_id "delete" reason admin_user
                    now db_now) in
           (exists r1, App.get_report d1 report_id = Some r1
                       /\ App.deleted r1 = true)
           /\ forall action reason' admin_user' now' db_now',
               App.admin_action d1 report_id action reason' admin_user'
                 now' db_now'
               = (d1, App.RedirectResponse "/admin" 303)).
Proof.
  intros d report_id. split.
  - intros. now apply admin_action_noop.
  - intros r reason admin_user now db_now Hget Hlive d1.
    assert (Hd1 : exists r1, App.get_report d1 report_id = Some r1
                             /\ App.deleted r1 = true).
    { subst d1. unfold App.admin_action. rewrite Hget, Hlive. simpl fst.
      change (App.transition "delete" reason admin_user now r)
        with (App.delete r).
      rewrite get_report_commit;
        [|reflexivity | now apply delete_changes].
      rewrite Hget. simpl.
      apply get_report_id in Hget. simpl. rewrite Z.eqb_refl.
      eexists. split; reflexivity. }
    split; [exact Hd1|].
    intros. apply admin_action_noop. now right.
Qed.

Lemma C6_witness :
  App.admin_action Examples.small_db 7 "flag" "" "admin" 500 501
  = (Examples.small_db, App.RedirectResponse "/admin" 303)
  /\ App.admin_action Examples.small_db 3 "delete" "" "admin" 500 501
     = (Examples.small_db, App.RedirectResponse "/admin" 303)
  /\ let d1 :=
       fst (App.admin_action Examples.small_db 1 "delete" "" "admin" 500 501) in
     App.admin_action d1 1 "delete" "" "admin" 600 601
     = (d1, App.RedirectResponse "/admin" 303).
Proof.
  destruct (C6_admin_action_ignores_missing_and_deleted Examples.small_db 7)
    as [Hmissing _].
  destruct (C6_admin_action_ignores_missing_and_deleted Examples.small_db 3)
    as [Hdeleted _].
  destruct (C6_admin_action_ignores_missing_and_deleted Examples.small_db 1)
    as [_ Hagain].
  split; [|split].
  - apply Hmissing. left. reflexivity.
  - apply Hdeleted. right. exists Examples.removed. split; reflexivity.
  - apply (Hagain Examples.plain "" "admin" 500 501); reflexivity.
Defined.

(** The legacy handler has no check of this kind: a delete submitted
    for a report that is already deleted, as when two sessions submit
    the same form, overwrites [deleted_on] and logs a second audit
    entry. *)
Lemma C6_legacy_delete_is_not_a_noop :
  let d0 := Examples.link_db Examples.scam_text in
  let d1 :=
    Legacy.final d0
      (Legacy.audit_submit d0 (Some 1) "none" None None "delete" "spam" 500) in
  let d2 :=
    Legacy.final d1
      (Legacy.audit_submit d1 (Some 1) "none" None None "delete" "again" 900) in
  map Legacy.deleted (Legacy.reports d1) = [true]
  /\ map Legacy.deleted_on (Legacy.reports d1) = [Some 500]
  /\ map Legacy.deleted_on (Legacy.reports d2) = [Some 900]
  /\ List.length (Legacy.report_audit d1) = 1%nat
  /\ List.length (Legacy.report_audit d2) = 2%nat.
Proof. vm_compute. repeat split; reflexivity. Qed.

(** ** Moderation and the audit trail *)

Lemma last_two {A : Type} (l : list A) (a b d : A) :
  last (l ++ [a; b]) d = b.
Proof.
  change (l ++ [a; b]) with (l ++ [a] ++ [b]).
  rewrite app_assoc. apply last_last.
Qed.

(** The entry that the legacy handler logs. *)
Lemma audit_submit_logs (d : Legacy.DB) report_id attach_type uploaded
      by_user act cmt now_utc :
  act <> "none" ->
  Legacy.report_audit
    (Legacy.final d
       (Legacy.audit_submit d report_id attach_type uploaded by_user act cmt
          now_utc))
  = Legacy.report_audit d
    ++ [Legacy.mkAuditRow report_id by_user act cmt now_utc now_utc false].
Proof.
  intros Hact. unfold Legacy.audit_submit, Legacy.final.
  apply String.eqb_neq in Hact. rewrite Hact. simpl negb.
  destruct uploaded as [u|];
    [destruct (negb (String.eqb attach_type "none"))|];
    destruct (String.eqb act "delete");
    rewrite ?last_two, ?last_last; reflexivity.
Qed.

(** A row is its content, its marks and [updated_on]. *)
Lemma report_columns (r r' : App.Report) :
  Moderation.content r' = Moderation.content r ->
  Moderation.marks r' = Moderation.marks r ->
  App.updated_on r' = App.updated_on r ->
  r' = r.
Proof.
  destruct r, r'. unfold Moderation.content, Moderation.marks. simpl.
  intros Hc Hm Hu. injection Hc. injection Hm. intros. subst. reflexivity.
Qed.

Lemma transition_keeps (action reason admin_user : string) (now : Z)
      (r : App.Report) :
  let r' := App.transition action reason admin_user now r in
  Moderation.content r' = Moderation.content r
  /\ App.updated_on r' = App.updated_on r.
Proof.
  unfold App.transition.
  destruct (String.eqb action "flag"); [split; reflexivity|].
  destruct (String.eqb action "unflag"); [split; reflexivity|].
  destruct (String.eqb action "delete"); split; reflexivity.
Qed.

Lemma mark_deleted_rows (report_id : option Z) (now_utc : Z)
      (d : Legacy.DB) (rows : list Legacy.ReportRow) :
  Legacy.reports d = rows ->
  Forall2
    (fun old new =>
       (report_id = Some (Legacy.id old) ->
        new = Legacy.mkReportRow (Legacy.id old) (Legacy.type old)
                (Legacy.source_from old) (Legacy.message_content old)
                (Legacy.ocr_preview old) (Legacy.contain_link old)
                (Legacy.created_on old) now_utc true (Some now_utc))
       /\ (report_id <> Some (Legacy.id old) -> new = old))
    rows
    (Legacy.reports (Legacy.mark_deleted report_id now_utc d)).
Proof.
  intros <-.
  unfold Legacy.mark_deleted. cbn [Legacy.reports Legacy.with_reports].
  induction (Legacy.reports d) as [|r rs IH]; simpl; constructor;
    [|exact IH].
  unfold Legacy.id_is. destruct report_id as [k|].
  - destruct (Z.eqb_spec (Legacy.id r) k) as [E|E].
    + split; [reflexivity|]. intros H. congruence.
    + split; [|reflexivity]. intros H. congruence.
  - split; [discriminate | reflexivity].
Qed.

(** C1, as the code has it. In [main.py] a flag, unflag or delete of an
    existing report that is not deleted is one commit that rewrites that
    report's row and nothing else: the flag fields or [deleted] get
    their new values, [updated_on] is set to the time of the commit
    when one of them changed, the rest of the row, the other reports
    and the attachments stay as they were, and no audit entry is
    written, the schema having no table for one. The legacy handler
    appends exactly one audit entry, carrying the submitted action, for
    every action other than none; for delete it then sets [deleted],
    [deleted_on] and [updated_on] of the report in a second
    transaction, committed after the one that logged the entry. *)
Theorem C1_moderation_writes :
  (forall (d : App.DB) report_id action reason admin_user now db_now r,
      App.get_report d report_id = Some r ->
      App.deleted r = false ->
      let out :=
        App.admin_action d report_id action reason admin_user now db_now in
      snd out = App.RedirectResponse "/admin" 303
      /\ App.attachments (fst out) = App.attachments d
      /\ List.length (App.reports (fst out)) = List.length (App.reports d)
      /\ (forall k, k <> report_id ->
                    App.get_report (fst out) k = App.get_report d k)
      /\ exists stored,
          App.get_report (fst out) report_id = Some stored
          /\ Moderation.content stored = Moderation.content r
          /\ (action = "flag" ->
              App.is_flagged stored = true
              /\ App.flag_reason stored
                 = Some (if String.eqb reason "" then "flagged by admin"
                         else reason)
              /\ App.flagged_on stored = Some now
              /\ App.flagged_by stored = Some admin_user
              /\ App.deleted stored = false)
          /\ (action = "unflag" ->
              App.is_flagged stored = false
              /\ App.flag_reason stored = None
              /\ App.flagged_on stored = None
              /\ App.flagged_by stored = None
              /\ App.deleted stored = false)
          /\ (action = "delete" ->
              App.deleted stored = true
              /\ App.is_flagged stored = App.is_flagged r
              /\ App.flag_reason stored = App.flag_reason r
              /\ App.flagged_on stored = App.flagged_on r
              /\ App.flagged_by stored = App.flagged_by r)
          /\ (action <> "flag" -> action <> "unflag" ->
              action <> "delete" -> stored = r)
          /\ (Moderation.marks stored <> Moderation.marks r ->
              App.updated_on stored = db_now)
          /\ (Moderation.marks stored = Moderation.marks r ->
              stored = r /\ fst out = d))
  /\ (forall (d : Legacy.DB) report_id attach_type uploaded by_user act cmt
             now_utc,
         act <> "none" ->
         let commits :=
           Legacy.audit_submit d report_id attach_type uploaded by_user act
             cmt now_utc in
         let d' := Legacy.final d commits in
         Legacy.report_audit d'
         = Legacy.report_audit d
           ++ [Legacy.mkAuditRow report_id by_user act cmt now_utc now_utc
                                 false]
         /\ Legacy.report_links d' = Legacy.report_links d
         /\ (act <> "delete" -> Legacy.reports d' = Legacy.reports d)
         /\ (act = "delete" ->
             exists earlier logged,
               commits = earlier ++ [logged; d']
               /\ Legacy.reports logged = Legacy.reports d
               /\ Legacy.report_audit logged = Legacy.report_audit d'
               /\ Legacy.attachments logged = Legacy.attachments d'
               /\ Forall2
                    (fun old new =>
                       (report_id = Some (Legacy.id old) ->
                        new
                        = Legacy.mkReportRow (Legacy.id old)
                            (Legacy.type old) (Legacy.source_from old)
                            (Legacy.message_content old)
                            (Legacy.ocr_preview old)
                            (Legacy.contain_link old)
                            (Legacy.created_on old) now_utc true
                            (Some now_utc))
                       /\ (report_id <> Some (Legacy.id old) -> new = old))
                    (Legacy.reports d) (Legacy.reports d'))).
Proof.
  split.
  - intros d report_id action reason admin_user now db_now r Hget Hlive out.
    subst out. unfold App.admin_action. rewrite Hget, Hlive. simpl fst.
    simpl snd.
    set (r' := App.transition action reason admin_user now r).
    assert (Hid : App.id r' = App.id r) by apply transition_id.
    pose proof (get_report_id _ _ _ Hget) as Hrid.
    destruct (transition_keeps action reason admin_user now r)
      as [Hcontent Hupd]. fold r' in Hcontent, Hupd.
    split; [reflexivity|].
    split; [|split; [|split]].
    + unfold App.commit. destruct (App.Report_eq_dec r' r); reflexivity.
    + unfold App.commit. destruct (App.Report_eq_dec r' r);
        [reflexivity | simpl; apply length_map].
    + intros k Hk. destruct (App.Report_eq_dec r' r) as [E|Hne].
      * unfold App.commit.
        destruct (App.Report_eq_dec r' r); [reflexivity | contradiction].
      * rewrite get_report_commit by assumption.
        destruct (App.get_report d k) as [x|] eqn:Ex; [|reflexivity].
        simpl. apply get_report_id in Ex.
        assert (Hx : (App.id x =? App.id r) = false)
          by (apply Z.eqb_neq; congruence).
        now rewrite Hx.
    + set (stored := if App.Report_eq_dec r' r then r
                     else App.touch r' db_now).
      assert (Hstored :
                App.get_report (App.commit d r r' db_now) report_id
                = Some stored).
      { subst stored. destruct (App.Report_eq_dec r' r) as [E|Hne].
        - unfold App.commit.
          destruct (App.Report_eq_dec r' r); [exact Hget | contradiction].
        - rewrite get_report_commit by assumption.
          rewrite Hget. simpl. now rewrite Z.eqb_refl. }
      assert (Hmarks : Moderation.marks stored = Moderation.marks r').
      { subst stored. destruct (App.Report_eq_dec r' r) as [E|Hne];
          [now rewrite E | reflexivity]. }
      assert (Hcont : Moderation.content stored = Moderation.content r).
      { subst stored. destruct (App.Report_eq_dec r' r) as [E|Hne];
          [reflexivity | exact Hcontent]. }
      exists stored. split; [exact Hstored|]. split; [exact Hcont|].
      unfold Moderation.marks in Hmarks.
      injection Hmarks as Hm1 Hm2 Hm3 Hm4 Hm5.
      rewrite Hm1, Hm2, Hm3, Hm4, Hm5.
      split; [|split; [|split; [|split; [|split]]]].
      * intros ->. subst r'. unfold App.transition.
        cbn [String.eqb Ascii.eqb Bool.eqb App.flag App.is_flagged
             App.flag_reason App.flagged_on App.flagged_by App.deleted].
        unfold App.truthy.
        destruct (String.eqb reason ""); repeat split; auto.
      * intros ->. subst r'. unfold App.transition.
        cbn. repeat split; auto.
      * intros ->. subst r'. unfold App.transition.
        cbn. repeat split; auto.
      * intros H1 H2 H3. subst stored.
        assert (E : r' = r).
        { subst r'. unfold App.transition.
          apply String.eqb_neq in H1, H2, H3. now rewrite H1, H2, H3. }
        destruct (App.Report_eq_dec r' r); [reflexivity | contradiction].
      * intros Hchanged. subst stored.
        destruct (App.Report_eq_dec r' r) as [E|Hne]; [|reflexivity].
        exfalso. apply Hchanged. reflexivity.
      * intros Hsame.
        assert (E : r' = r).
        { apply report_columns; [exact Hcontent | | exact Hupd].
          rewrite <- Hsame. unfold Moderation.marks. congruence. }
        subst stored. unfold App.commit.
        destruct (App.Report_eq_dec r' r); [split; reflexivity|contradiction].
  - intros d report_id attach_type uploaded by_user act cmt now_utc Hact
           commits d'.
    split; [now apply audit_submit_logs|].
    subst d' commits. unfold Legacy.audit_submit, Legacy.final.
    pose proof Hact as Hact'. apply String.eqb_neq in Hact'.
    rewrite Hact'. simpl negb. cbv iota.
    split; [|split].
    + destruct uploaded as [u|];
        [destruct (negb (String.eqb attach_type "none"))|];
        destruct (String.eqb act "delete");
        rewrite ?last_two, ?last_last; reflexivity.
    + intros Hnd. apply String.eqb_neq in Hnd. rewrite Hnd.
      destruct uploaded as [u|];
        [destruct (negb (String.eqb attach_type "none"))|];
        rewrite ?last_last; reflexivity.
    + intros ->. simpl String.eqb.
      destruct uploaded as [u|];
        [destruct (negb (String.eqb attach_type "none"))|];
        rewrite last_two;
        eexists; eexists; (split; [reflexivity|]);
        (split; [reflexivity|]); (split; [reflexivity|]);
        (split; [reflexivity|]); apply mark_deleted_rows; reflexivity.
Qed.

Lemma C1_witness :
  (let out := App.admin_action Examples.small_db 1 "flag" "" "admin" 500 501 in
   exists stored,
     App.get_report (fst out) 1 = Some stored
     /\ App.is_flagged stored = true
     /\ App.flag_reason stored = Some "flagged by admin"
     /\ App.updated_on stored = 501
     /\ App.attachments (fst out) = App.attachments Examples.small_db)
  /\ (let d := Examples.link_db Examples.scam_text in
      let d' :=
        Legacy.final d
          (Legacy.audit_submit d (Some 1) "none" None None "delete" "spam"
             500) in
      Legacy.report_audit d'
      = [Legacy.mkAuditRow (Some 1) None "delete" "spam" 500 500 false]
      /\ map Legacy.deleted (Legacy.reports d') = [true]
      /\ map Legacy.deleted_on (Legacy.reports d') = [Some 500]
      /\ map Legacy.updated_on (Legacy.reports d') = [500]).
Proof.
  destruct C1_moderation_writes as [Hmain Hlegacy].
  split.
  - destruct (Hmain Examples.small_db 1 "flag" "" "admin" 500 501
                Examples.plain eq_refl eq_refl)
      as (_ & Hatt & _ & _ & stored & Hget & _ & Hflag & _ & _ & _ & Hupd
          & _).
    destruct (Hflag eq_refl) as (Hf & Hreason & _).
    exists stored. split; [exact Hget|]. split; [exact Hf|].
    split; [exact Hreason|]. split; [|exact Hatt].
    apply Hupd. unfold Moderation.marks. rewrite Hf. discriminate.
  - destruct (Hlegacy (Examples.link_db Examples.scam_text) (Some 1) "none"
                None None "delete" "spam" 500)
      as (Hlog & _ & _ & Hdel); [discriminate|].
    cbv zeta. split; [exact Hlog|].
    destruct (Hdel eq_refl) as (_ & _ & _ & _ & _ & _ & Hrows).
    remember (Legacy.reports
                (Legacy.final (Examples.link_db Examples.scam_text)
                   (Legacy.audit_submit (Examples.link_db Examples.scam_text)
                      (Some 1) "none" None None "delete" "spam" 500)))
      as rows eqn:Erows.
    clear Erows.
    change (Legacy.reports (Examples.link_db Examples.scam_text))
      with [Examples.link_report Examples.scam_text] in Hrows.
    inversion Hrows as [|old new olds news [Hrow _] Hrest]. subst.
    inversion Hrest. subst.
    rewrite (Hrow eq_refl). repeat split; reflexivity.
Defined.

(** The two ways in which the code parts from C1 as stated. In the legacy
    handler the delete entry is committed on its own: the database after
    the first commit holds the entry while the report is not yet
    deleted, and only the database after the second commit has the
    report deleted. In [main.py] a flag changes the stored row, and the
    database after the commit holds the rows and the attachments it
    held before and nothing new beside them. *)
Lemma C1_audit_and_update_are_separate :
  (let d := Examples.link_db Examples.scam_text in
   let commits :=
     Legacy.audit_submit d (Some 1) "none" None None "delete" "spam" 500 in
   exists logged,
     In logged commits
     /\ map Legacy.action (Legacy.report_audit logged) = ["delete"]
     /\ map Legacy.deleted (Legacy.reports logged) = [false]
     /\ map Legacy.deleted (Legacy.reports (Legacy.final d commits))
        = [true])
  /\ (let d' :=
        fst (App.admin_action Examples.small_db 1 "flag" "" "admin" 500 501) in
      map App.is_flagged (App.reports Examples.small_db)
      = [false; true; false]
      /\ map App.is_flagged (App.reports d') = [true; true; false]
      /\ map App.updated_on (App.reports d') = [501; 200; 300]
      /\ map App.id (App.reports d') = [1; 2; 3]
      /\ App.attachments d' = App.attachments Examples.small_db).
Proof.
  split.
  - eexists. split; [left; reflexivity|]. repeat split; reflexivity.
  - vm_compute. repeat split; reflexivity.
Qed.

(** ** Link extraction *)

(** *** The scan *)

Lemma strip_prefix_length (p s s' : string) :
  Legacy.strip_prefix p s = Some s' ->
  String.length s = (String.length p + String.length s')%nat.
Proof.
  revert s. induction p as [|a p IH]; intros s H; simpl in H.
  - now injection H as ->.
  - destruct s as [|b s]; [discriminate|].
    destruct (Ascii.eqb a b); [|discriminate].
    simpl. f_equal. now apply IH.
Qed.

Section ScanFacts.
Context {R : Type}.

(** A repetition hands over a suffix of its input, at least [min]
    characters further on. *)
Lemma many_rest (cls : ascii -> bool) (min : nat) (s : string) :
  forall (n : nat) (k : string -> option R) (x : R),
    Legacy.many cls min s n k = Some x ->
    exists rest,
      k rest = Some x
      /\ (String.length rest <= String.length s)%nat
      /\ (min <= n + (String.length s - String.length rest))%nat.
Proof.
  induction s as [|c s IH]; intros n k x H; simpl in H.
  - destruct (min <=? n)%nat eqn:E; [|discriminate].
    apply Nat.leb_le in E. exists EmptyString. simpl. repeat split; auto; lia.
  - assert (Hstop :
              (if (min <=? n)%nat then k (String c s) else None) = Some x ->
              exists rest,
                k rest = Some x
                /\ (String.length rest <= String.length (String c s))%nat
                /\ (min <= n + (String.length (String c s)
                                - String.length rest))%nat).
    { intros Hs. destruct (min <=? n)%nat eqn:E; [|discriminate].
      apply Nat.leb_le in E. exists (String c s). repeat split; auto; lia. }
    destruct (cls c); [|now apply Hstop].
    destruct (Legacy.many cls min s (S n) k) as [y|] eqn:Em;
      [|now apply Hstop].
    injection H as ->. apply IH in Em.
    destruct Em as (rest & Hk & Hle & Hmin).
    exists rest. change (String.length (String c s)) with (S (String.length s)).
    repeat split; auto; lia.
Qed.

(** The matcher hands over a suffix of its input, a proper one when the
    pattern cannot match the empty string. *)
Lemma run_rest (r : Legacy.regex) :
  forall (s : string) (k : string -> option R) (x : R),
    Legacy.run r s k = Some x ->
    exists rest,
      k rest = Some x
      /\ (String.length rest <= String.length s)%nat
      /\ (Legacy.nonempty r = true ->
          (String.length rest < String.length s)%nat).
Proof.
  induction r as [p|cls min|a IHa b IHb|a IHa b IHb|a IHa];
    intros s k x H; simpl in H.
  - destruct (Legacy.strip_prefix p s) as [s'|] eqn:E; [|discriminate].
    apply strip_prefix_length in E. exists s'. repeat split; auto; [lia|].
    simpl. intros Hp. apply negb_true_iff, String.eqb_neq in Hp.
    destruct p; [contradiction | simpl in E; lia].
  - apply many_rest in H. destruct H as (rest & Hk & Hle & Hmin).
    exists rest. repeat split; auto.
    simpl. intros Hp. apply Nat.ltb_lt in Hp. lia.
  - apply IHa in H. destruct H as (mid & Hb & Hle1 & Hne1).
    apply IHb in Hb. destruct Hb as (rest & Hk & Hle2 & Hne2).
    exists rest. repeat split; auto; [lia|].
    simpl. intros Hp. apply orb_true_iff in Hp.
    destruct Hp as [Hp|Hp]; [specialize (Hne1 Hp) | specialize (Hne2 Hp)]; lia.
  - destruct (Legacy.run a s k) as [y|] eqn:Ea.
    + injection H as ->. apply IHa in Ea.
      destruct Ea as (rest & Hk & Hle & Hne).
      exists rest. repeat split; auto.
      simpl. intros Hp. apply andb_true_iff in Hp. now apply Hne.
    + apply IHb in H. destruct H as (rest & Hk & Hle & Hne).
      exists rest. repeat split; auto.
      simpl. intros Hp. apply andb_true_iff in Hp. now apply Hne.
  - destruct (Legacy.run a s k) as [y|] eqn:Ea.
    + injection H as ->. apply IHa in Ea.
      destruct Ea as (rest & Hk & Hle & _).
      exists rest. repeat split; auto. discriminate.
    + exists s. repeat split; auto. discriminate.
Qed.
End ScanFacts.

Lemma match_here_positive (r : Legacy.regex) (s : string) (n : nat) :
  Legacy.nonempty r = true ->
  Legacy.match_here r s = Some n ->
  (1 <= n <= String.length s)%nat.
Proof.
  unfold Legacy.match_here. intros Hne H.
  apply run_rest in H. destruct H as (rest & Hk & Hle & Hlt).
  injection Hk as <-. specialize (Hlt Hne). lia.
Qed.

(** The pattern of [extract_urls] has no empty match, which is the case
    that [findall_from] leaves out, and so no token is empty. *)
Lemma extract_urls_tokens_nonempty (text u : string) :
  In u (Legacy.extract_urls text) -> u <> "".
Proof.
  unfold Legacy.extract_urls, Legacy.findall.
  destruct (String.eqb text ""); [intros []|].
  generalize 0%nat as inside. induction text as [|c text IH];
    intros inside H; simpl in H; [destruct H|].
  destruct inside as [|inside]; [|now apply IH in H].
  destruct (Legacy.match_here Legacy.url_pattern (String c text))
    as [len|] eqn:E; [|now apply IH in H].
  destruct H as [<-|H]; [|now apply IH in H].
  apply match_here_positive in E; [|reflexivity].
  destruct len as [|len]; [lia|]. simpl. discriminate.
Qed.


Lemma mem_In (u : string) (l : list string) :
  Legacy.mem u l = true <-> In u l.
Proof.
  unfold Legacy.mem. rewrite existsb_exists. split.
  - intros (x & Hx & E). apply String.eqb_eq in E. now subst.
  - intros H. exists u. split; [assumption | apply String.eqb_refl].
Qed.

Lemma existing_urls_app (d : Legacy.DB) (new : list Legacy.LinkRow) (rid : Z) :
  Legacy.existing_urls
    (Legacy.with_links (Legacy.report_links d ++ new) d) rid
  = Legacy.existing_urls d rid
    ++ map Legacy.url
         (filter (fun l => Legacy.link_report_id l =? rid) new).
Proof.
  unfold Legacy.existing_urls. simpl. now rewrite filter_app, map_app.
Qed.

Section ExtractionFacts.
Variable urlparse_netloc : string -> option string.
Variable utcnow : nat -> Z.







End ExtractionFacts.




(** C3, at the inputs where the code parts from it. A URL that occurs
    twice in the text of one pass is inserted twice, since the set of
    known URLs is read once before the loop; and a URL whose only
    recorded link is deleted is skipped, since the query that reads the
    known URLs takes deleted links too. *)
Theorem C3_repeated_token_is_inserted_twice :
  (let d := Examples.link_db "http://a.io/x http://a.io/x" in
   let st :=
     Legacy.state_of (Legacy.run_extraction Legacy.netloc Examples.clock d) in
   Legacy.live_urls d 1 = []
   /\ Legacy.live_urls (Legacy.db st) 1 = ["http://a.io/x"; "http://a.io/x"]
   /\ Legacy.inserted st = 2%nat /\ Legacy.skipped st = 0%nat)
  /\ (let d :=
        Legacy.with_links
          [Legacy.mkLinkRow 1 "http://a.io/x" "a.io" None 50 60 true]
          (Examples.link_db "see http://a.io/x") in
      let st :=
        Legacy.state_of (Legacy.run_extraction Legacy.netloc Examples.clock d) in
      Legacy.live_urls d 1 = []
      /\ Legacy.live_urls (Legacy.db st) 1 = []
      /\ Legacy.inserted st = 0%nat /\ Legacy.skipped st = 1%nat).
Proof. vm_compute. repeat split; reflexivity. Qed.

(** C5, as the code has it. Take a report that contains links, is not
    deleted, has no link recorded and no OCR text, whose message is the
    text of the scenario and which is the only report that the run
    selects. Whatever else the database holds, a run inserts exactly two
    links, for http://bit.ly/x with domain bit.ly and for
    www.scam.test/y with the token itself as domain, [urlparse] finding
    no network location in a token without a scheme; a second run
    inserts none and skips two. *)
Theorem C5_scenario_links :
  forall (urlparse_netloc : string -> option string)
         (utcnow utcnow' : nat -> Z) (d : Legacy.DB) (r : Legacy.ReportRow),
    urlparse_netloc "http://bit.ly/x" = Some "bit.ly" ->
    urlparse_netloc "www.scam.test/y" = Some "" ->
    filter (fun x => Legacy.contain_link x && negb (Legacy.deleted x))
           (Legacy.reports d) = [r] ->
    Legacy.message_content r
    = Some "Win now http://bit.ly/x and www.scam.test/y" ->
    Legacy.ocr_preview r = None \/ Legacy.ocr_preview r = Some "" ->
    (forall l, In l (Legacy.report_links d) ->
               Legacy.link_report_id l <> Legacy.id r) ->
    exists st1,
      Legacy.run_extraction urlparse_netloc utcnow d = Legacy.Finished st1
      /\ Legacy.inserted st1 = 2%nat
      /\ Legacy.skipped st1 = 0%nat
      /\ Legacy.report_links (Legacy.db st1)
         = Legacy.report_links d
           ++ [Legacy.mkLinkRow (Legacy.id r) "http://bit.ly/x" "bit.ly"
                 None (utcnow 0%nat) (utcnow 1%nat) false;
               Legacy.mkLinkRow (Legacy.id r) "www.scam.test/y"
                 "www.scam.test/y" None (utcnow 2%nat) (utcnow 3%nat)
                 false]
      /\ Legacy.reports (Legacy.db st1) = Legacy.reports d
      /\ Legacy.run_extraction urlparse_netloc utcnow' (Legacy.db st1)
         = Legacy.Finished (Legacy.mkRun (Legacy.db st1) 0 2 0).
Proof.
  intros urlparse_netloc utcnow utcnow' d r Hu1 Hu2 Hsel Hmsg Hocr Hnone.
  assert (Hurls : Legacy.extract_urls (Legacy.scanned_text r)
                  = ["http://bit.ly/x"; "www.scam.test/y"]).
  { unfold Legacy.scanned_text. rewrite Hmsg.
    destruct Hocr as [-> | ->]; vm_compute; reflexivity. }
  assert (Hexisting : Legacy.existing_urls d (Legacy.id r) = []).
  { unfold Legacy.existing_urls.
    induction (Legacy.report_links d) as [|l ls IH]; [reflexivity|].
    simpl.
    assert (Hl : (Legacy.link_report_id l =? Legacy.id r) = false).
    { apply Z.eqb_neq, Hnone. now left. }
    rewrite Hl. apply IH. intros l' Hl'. apply Hnone. now right. }
  assert (Hrows : forall d',
             Legacy.reports d' = Legacy.reports d ->
             Legacy.selected_rows d' = [r]).
  { intros d' E. unfold Legacy.selected_rows. rewrite E, Hsel.
    reflexivity. }
  set (row1 := Legacy.mkLinkRow (Legacy.id r) "http://bit.ly/x" "bit.ly"
                 None (utcnow 0%nat) (utcnow 1%nat) false).
  set (row2 := Legacy.mkLinkRow (Legacy.id r) "www.scam.test/y"
                 "www.scam.test/y" None (utcnow 2%nat) (utcnow 3%nat) false).
  set (d1 := Legacy.with_links (Legacy.report_links d ++ [row1; row2]) d).
  assert (Hfirst : Legacy.run_extraction urlparse_netloc utcnow d
                   = Legacy.Finished (Legacy.mkRun d1 2 0 4)).
  { unfold Legacy.run_extraction. rewrite (Hrows d eq_refl).
    cbn [Legacy.scan_reports]. unfold Legacy.scan_report.
    rewrite Hurls. cbn [Legacy.db]. rewrite Hexisting.
    cbn [Legacy.insert_new Legacy.mem existsb]. rewrite Hu1.
    cbn [Legacy.insert_new Legacy.mem existsb Legacy.db Legacy.inserted
         Legacy.skipped Legacy.clock_reads]. rewrite Hu2.
    unfold Legacy.insert_simple, Legacy.with_links.
    cbn [Legacy.report_links Legacy.reports Legacy.report_audit
         Legacy.attachments Legacy.db Legacy.inserted Legacy.skipped
         Legacy.clock_reads].
    rewrite <- app_assoc. reflexivity. }
  exists (Legacy.mkRun d1 2 0 4).
  split; [exact Hfirst|]. split; [reflexivity|]. split; [reflexivity|].
  split; [reflexivity|]. split; [reflexivity|].
  cbn [Legacy.db].
  assert (Hexisting1 : Legacy.existing_urls d1 (Legacy.id r)
                       = ["http://bit.ly/x"; "www.scam.test/y"]).
  { unfold Legacy.existing_urls in *. unfold d1.
    cbn [Legacy.report_links Legacy.with_links].
    rewrite filter_app, map_app, Hexisting.
    simpl. rewrite Z.eqb_refl. reflexivity. }
  unfold Legacy.run_extraction. rewrite (Hrows d1 eq_refl).
  cbn [Legacy.scan_reports]. unfold Legacy.scan_report.
  rewrite Hurls. cbn [Legacy.db]. rewrite Hexisting1.
  reflexivity.
Qed.

Lemma C5_witness :
  let d := Examples.link_db Examples.scam_text in
  exists st1,
    Legacy.run_extraction Legacy.netloc Examples.clock d
    = Legacy.Finished st1
    /\ Legacy.inserted st1 = 2%nat
    /\ Legacy.skipped st1 = 0%nat
    /\ Legacy.report_links (Legacy.db st1)
       = [Legacy.mkLinkRow 1 "http://bit.ly/x" "bit.ly" None 1000 1001
            false;
          Legacy.mkLinkRow 1 "www.scam.test/y" "www.scam.test/y" None 1002
            1003 false]
    /\ Legacy.reports (Legacy.db st1) = Legacy.reports d
    /\ Legacy.run_extraction Legacy.netloc Examples.clock (Legacy.db st1)
       = Legacy.Finished (Legacy.mkRun (Legacy.db st1) 0 2 0).
Proof.
  apply (C5_scenario_links Legacy.netloc Examples.clock Examples.clock
           (Examples.link_db Examples.scam_text)
           (Examples.link_report Examples.scam_text)).
  - reflexivity.
  - reflexivity.
  - reflexivity.
  - reflexivity.
  - left. reflexivity.
  - intros l [].
Defined.

(** The domains of the two links are not those that C5 names. *)
Lemma C5_second_domain_is_the_token :
  let d := Examples.link_db Examples.scam_text in
  let st :=
    Legacy.state_of (Legacy.run_extraction Legacy.netloc Examples.clock d) in
  map Legacy.domain (Legacy.report_links (Legacy.db st))
  <> ["bit.ly"; "www.scam.test"].
Proof. vm_compute. discriminate. Qed.

(** ** Timestamps *)

Lemma increasing_cons (x y : Z) (l : list Z) :
  Legacy.increasing (x :: y :: l) = true ->
  x < y /\ Legacy.increasing (y :: l) = true.
Proof.
  simpl. intros H. apply andb_true_iff in H. destruct H as [H1 H2].
  apply Z.ltb_lt in H1. now split.
Qed.

Lemma increasing_tail (x : Z) (l : list Z) :
  Legacy.increasing (x :: l) = true -> Legacy.increasing l = true.
Proof.
  destruct l as [|y l]; [reflexivity|].
  intros H. now apply increasing_cons in H.
Qed.

(** Once the wall-clock value [w] lies in or after the period that began
    at the UTC instant [t] with offset [p], the instant computed for [w]
    is not before [t]. *)
Lemma instant_after_transition (ts : list (Z * Z)) :
  forall t p w,
    Legacy.increasing (t :: map fst ts) = true ->
    t + p <= w ->
    t <= w - Legacy.offset_at_wall false p ts w.
Proof.
  induction ts as [|[t2 p2] ts IH]; simpl Legacy.offset_at_wall;
    intros t p w Hinc Hw.
  - lia.
  - simpl map in Hinc. apply increasing_cons in Hinc.
    destruct Hinc as [Hlt Hinc].
    destruct (t2 + Z.max p p2 <=? w) eqn:E; [|lia].
    apply Z.leb_le in E.
    specialize (IH t2 p2 w Hinc ltac:(lia)). lia.
Qed.

(** For a wall-clock value that no transition skips, the offset that
    [utcoffset] picks is the offset in force at the instant it leads to. *)
Lemma offset_consistent (ts : list (Z * Z)) :
  forall cur f w,
    Legacy.increasing (map fst ts) = true ->
    Legacy.skipped_wall cur ts w = false ->
    fst (Legacy.info_at_utc cur f ts
           (w - Legacy.offset_at_wall false cur ts w))
    = Legacy.offset_at_wall false cur ts w.
Proof.
  induction ts as [|[t o] ts IH]; intros cur f w Hinc Hskip.
  - reflexivity.
  - simpl in Hskip. apply orb_false_iff in Hskip.
    destruct Hskip as [Hgap Hskip].
    simpl Legacy.offset_at_wall.
    destruct (t + Z.max cur o <=? w) eqn:E.
    + apply Z.leb_le in E.
      pose proof (instant_after_transition ts t o w Hinc ltac:(lia)) as Hge.
      simpl Legacy.info_at_utc.
      apply Z.leb_le in Hge. rewrite Hge.
      apply IH; [|assumption].
      simpl map in Hinc. now apply increasing_tail in Hinc.
    + apply Z.leb_gt in E. simpl Legacy.info_at_utc.
      assert (Hlt : (t <=? w - cur) = false).
      { apply Z.leb_gt. apply andb_false_iff in Hgap.
        destruct Hgap as [H|H];
          [apply Z.leb_gt in H | apply Z.ltb_ge in H]; lia. }
      now rewrite Hlt.
Qed.

(** C8, at the input where the code parts from it. With an instant that
    is set and a timezone name that is absent or empty, the function
    returns [None], not the instant. *)
Theorem C8_absent_timezone_gives_none :
  forall (tzdb : string -> option Legacy.Zone) (dt : Legacy.datetime),
    Legacy.convert_utc_to_local tzdb (Some dt) None = None
    /\ Legacy.convert_utc_to_local tzdb (Some dt) (Some "") = None.
Proof. intros tzdb dt. split; reflexivity. Qed.

(** The other cases of [convert_utc_to_local]: an unset instant stays
    unset, a name that the timezone database does not know gives the
    instant back as it is, and a name that it knows gives the wall clock
    of that zone at the instant, or the instant back as it is when that
    wall clock is out of the range of [datetime]. *)
Lemma convert_utc_to_local_cases (tzdb : string -> option Legacy.Zone) :
  (forall tz_name, Legacy.convert_utc_to_local tzdb None tz_name = None)
  /\ (forall dt name,
         name <> "" -> tzdb name = None ->
         Legacy.convert_utc_to_local tzdb (Some dt) (Some name) = Some dt)
  /\ (forall dt name z,
         name <> "" -> tzdb name = Some z ->
         Legacy.same_object (Legacy.tz dt) (Legacy.ZoneInfo name z) = false ->
         let local :=
           Legacy.fromutc (Legacy.ZoneInfo name z) (Legacy.instant dt) in
         Legacy.tz local = Legacy.ZoneInfo name z
         /\ Legacy.wall local
            = Legacy.instant dt
              + fst (Legacy.info_at_utc (Legacy.before z) false
                       (Legacy.transitions z) (Legacy.instant dt))
         /\ Legacy.convert_utc_to_local tzdb (Some dt) (Some name)
            = Some (if Legacy.representable (Legacy.instant dt)
                       && Legacy.representable (Legacy.wall local)
                    then local else dt)).
Proof.
  split; [reflexivity|]. split.
  - intros dt name Hne Hdb. simpl.
    apply String.eqb_neq in Hne. now rewrite Hne, Hdb.
  - intros dt name z Hne Hdb Hobj local. subst local.
    unfold Legacy.convert_utc_to_local.
    apply String.eqb_neq in Hne. rewrite Hne, Hdb.
    unfold Legacy.astimezone. rewrite Hobj. unfold Legacy.fromutc.
    destruct (Legacy.info_at_utc (Legacy.before z) false
                (Legacy.transitions z) (Legacy.instant dt)) as [o f].
    cbn [Legacy.tz Legacy.wall fst].
    split; [reflexivity|]. split; [reflexivity|].
    destruct (Legacy.representable (Legacy.instant dt)); [|reflexivity].
    destruct (Legacy.representable (Legacy.instant dt + o)); reflexivity.
Qed.

(** The round trip of a wall-clock value through a zone that the
    timezone database knows. *)
Lemma round_trip_in_known_zone :
  forall (tzdb : string -> option Legacy.Zone) (name : string)
         (z : Legacy.Zone) (w : Z),
    name <> "" ->
    tzdb "UTC" = Some Legacy.utc_zone ->
    tzdb name = Some z ->
    Legacy.well_formed z = true ->
    Legacy.skipped_wall (Legacy.before z) (Legacy.transitions z) w = false ->
    Legacy.representable w = true ->
    Legacy.representable
      (w - Legacy.offset_at_wall false (Legacy.before z)
             (Legacy.transitions z) w) = true ->
    exists dt,
      Legacy.convert_utc_to_local tzdb
        (Some (Legacy.convert_local_to_utc tzdb w (Some name))) (Some name)
      = Some dt
      /\ Legacy.wall dt = w
      /\ Legacy.tz dt = Legacy.ZoneInfo name z.
Proof.
  intros tzdb name z w Hne Hutc Hdb Hwf Hskip Hw Hu.
  unfold Legacy.well_formed in Hwf.
  apply andb_true_iff in Hwf. destruct Hwf as [Hwf _].
  apply andb_true_iff in Hwf. destruct Hwf as [Hinc _].
  set (off := Legacy.offset_at_wall false (Legacy.before z)
                (Legacy.transitions z) w) in *.
  set (utc := Legacy.ZoneInfo "UTC" Legacy.utc_zone).
  apply String.eqb_neq in Hne.
  destruct (String.eqb name "UTC") eqn:Eu.
  - assert (E1 : Legacy.convert_local_to_utc tzdb w (Some name)
                 = Legacy.mkDatetime w false (Legacy.ZoneInfo name z)).
    { unfold Legacy.convert_local_to_utc. rewrite Hdb, Hutc.
      unfold Legacy.astimezone. cbn [Legacy.same_object Legacy.tz].
      now rewrite Eu. }
    rewrite E1. unfold Legacy.convert_utc_to_local. rewrite Hne, Hdb.
    unfold Legacy.astimezone. cbn [Legacy.same_object Legacy.tz].
    rewrite String.eqb_refl.
    eexists. split; [reflexivity|]. split; reflexivity.
  - assert (E1 : Legacy.convert_local_to_utc tzdb w (Some name)
                 = Legacy.mkDatetime (w - off) false utc).
    { unfold Legacy.convert_local_to_utc. rewrite Hdb, Hutc.
      unfold Legacy.astimezone. cbn [Legacy.same_object Legacy.tz].
      rewrite Eu.
      change (Legacy.instant
                (Legacy.mkDatetime w false (Legacy.ZoneInfo name z)))
        with (w - off).
      rewrite Hu.
      change (Legacy.fromutc (Legacy.ZoneInfo "UTC" Legacy.utc_zone)
                (w - off))
        with (Legacy.mkDatetime (w - off + 0) false utc).
      cbn [Legacy.wall].
      replace (w - off + 0) with (w - off) by lia.
      now rewrite Hu. }
    rewrite E1. unfold Legacy.convert_utc_to_local. rewrite Hne, Hdb.
    unfold Legacy.astimezone. subst utc.
    cbn [Legacy.same_object Legacy.tz].
    rewrite (String.eqb_sym "UTC" name), Eu.
    change (Legacy.instant
              (Legacy.mkDatetime (w - off) false
                 (Legacy.ZoneInfo "UTC" Legacy.utc_zone)))
      with (w - off - 0).
    replace (w - off - 0) with (w - off) by lia.
    rewrite Hu.
    pose proof (offset_consistent (Legacy.transitions z) (Legacy.before z)
                  false w Hinc Hskip) as Hc.
    fold off in Hc.
    unfold Legacy.fromutc.
    destruct (Legacy.info_at_utc (Legacy.before z) false
                (Legacy.transitions z) (w - off)) as [o f].
    simpl in Hc. subst o. cbn [Legacy.wall].
    replace (w - off + off) with w by lia. rewrite Hw.
    eexists. split; [reflexivity|]. split; reflexivity.
Qed.

(** C9, as the code has it. Converting a local date and time of
    America/New_York to UTC and back gives the same date and time, to the
    second, for every wall-clock value that exists in the zone and whose
    UTC value is still a [datetime]: any time of a date without
    transition and, on a transition date, any time outside the hour that
    the spring change skips, up to the last hours of the year 9999. *)
Theorem C9_round_trip_of_existing_wall_times :
  forall (tzdb : string -> option Legacy.Zone) (z : Legacy.Zone) (w : Z),
    tzdb "UTC" = Some Legacy.utc_zone ->
    tzdb "America/New_York" = Some z ->
    Legacy.well_formed z = true ->
    Legacy.skipped_wall (Legacy.before z) (Legacy.transitions z) w = false ->
    Legacy.representable w = true ->
    Legacy.representable
      (w - Legacy.offset_at_wall false (Legacy.before z)
             (Legacy.transitions z) w) = true ->
    exists dt,
      Legacy.convert_utc_to_local tzdb
        (Some (Legacy.convert_local_to_utc tzdb w (Some "America/New_York")))
        (Some "America/New_York")
      = Some dt
      /\ Legacy.wall dt = w
      /\ Legacy.tz dt = Legacy.ZoneInfo "America/New_York" z.
Proof.
  intros tzdb z w Hutc Hny Hwf Hskip Hw Hu.
  apply round_trip_in_known_zone; auto. discriminate.
Qed.

Lemma C9_witness :
  let round w :=
    option_map Legacy.wall
      (Legacy.convert_utc_to_local Legacy.tzdata
         (Some (Legacy.convert_local_to_utc Legacy.tzdata w
                  (Some "America/New_York")))
         (Some "America/New_York")) in
  round (Legacy.combine 2024 1 15 12 0 0)
  = Some (Legacy.combine 2024 1 15 12 0 0)
  /\ round (Legacy.combine 2024 3 10 1 59 59)
     = Some (Legacy.combine 2024 3 10 1 59 59)
  /\ round (Legacy.combine 2024 3 10 3 0 0)
     = Some (Legacy.combine 2024 3 10 3 0 0)
  /\ round (Legacy.combine 2024 11 3 1 30 0)
     = Some (Legacy.combine 2024 11 3 1 30 0).
Proof.
  assert (H : forall w,
             Legacy.skipped_wall (Legacy.before Legacy.new_york)
               (Legacy.transitions Legacy.new_york) w = false ->
             Legacy.representable w = true ->
             Legacy.representable
               (w - Legacy.offset_at_wall false
                      (Legacy.before Legacy.new_york)
                      (Legacy.transitions Legacy.new_york) w) = true ->
             option_map Legacy.wall
               (Legacy.convert_utc_to_local Legacy.tzdata
                  (Some (Legacy.convert_local_to_utc Legacy.tzdata w
                           (Some "America/New_York")))
                  (Some "America/New_York")) = Some w).
  { intros w Hw Hr Hu.
    destruct (C9_round_trip_of_existing_wall_times Legacy.tzdata
                Legacy.new_york w eq_refl eq_refl eq_refl Hw Hr Hu)
      as (dt & -> & <- & _).
    reflexivity. }
  cbv zeta. split; [|split; [|split]]; apply H; reflexivity.
Defined.

(** On the day of the spring change, half past two does not exist in New
    York; the round trip turns it into half past three. *)
Lemma C9_skipped_hour_is_not_reproduced :
  option_map Legacy.wall
    (Legacy.convert_utc_to_local Legacy.tzdata
       (Some (Legacy.convert_local_to_utc Legacy.tzdata
                (Legacy.combine 2024 3 10 2 30 0) (Some "America/New_York")))
       (Some "America/New_York"))
  = Some (Legacy.combine 2024 3 10 3 30 0)
  /\ Legacy.combine 2024 3 10 3 30 0 <> Legacy.combine 2024 3 10 2 30 0.
Proof. split; [reflexivity | discriminate]. Qed.

(** Eight in the evening of the last day of the year 9999 exists in New
    York, but its UTC value is past [datetime.max]: [astimezone] raises,
    the [except] branch labels the local time as UTC, and the display
    shows it five hours early. *)
Lemma last_hours_of_9999_come_back_shifted :
  let w := Legacy.combine 9999 12 31 20 0 0 in
  Legacy.skipped_wall (Legacy.before Legacy.new_york)
    (Legacy.transitions Legacy.new_york) w = false
  /\ Legacy.representable w = true
  /\ Legacy.convert_local_to_utc Legacy.tzdata w (Some "America/New_York")
     = Legacy.mkDatetime w false Legacy.PytzUtc
  /\ option_map Legacy.wall
       (Legacy.convert_utc_to_local Legacy.tzdata
          (Some (Legacy.convert_local_to_utc Legacy.tzdata w
                   (Some "America/New_York")))
          (Some "America/New_York"))
     = Some (Legacy.combine 9999 12 31 15 0 0).
Proof. vm_compute. repeat split; reflexivity. Qed.

(** * Further properties *)

(** ** What a run of the extraction writes *)

Section ExtractionWrites.
Variable urlparse_netloc : string -> option string.
Variable utcnow : nat -> Z.

Lemma domain_of_nonempty (u loc : string) :
  u <> "" -> Legacy.domain_of u loc <> "".
Proof.
  unfold Legacy.domain_of. intros Hu.
  destruct (String.eqb loc "") eqn:E; [assumption|].
  now apply String.eqb_neq.
Qed.

(** The inner loop, whether it reaches its end or stops at an exception,
    only appends link rows, one per counted insert, each for the report
    at hand and for a URL of the pass that was not known before it. *)
Lemma insert_new_writes (rid : Z) (existing urls : list string) :
  forall st,
    let st' :=
      Legacy.state_of
        (Legacy.insert_new urlparse_netloc utcnow rid existing urls st) in
    Links.same_but_links (Legacy.db st) (Legacy.db st')
    /\ exists new,
        Legacy.report_links (Legacy.db st')
        = Legacy.report_links (Legacy.db st) ++ new
        /\ Legacy.inserted st' = (Legacy.inserted st + List.length new)%nat
        /\ Forall (fun l =>
                     Legacy.link_report_id l = rid
                     /\ In (Legacy.url l) urls
                     /\ ~ In (Legacy.url l) existing
                     /\ Legacy.link_deleted l = false
                     /\ Legacy.safety l = None
                     /\ (Legacy.url l <> "" -> Legacy.domain l <> ""))
                  new.
Proof.
  unfold Links.same_but_links.
  induction urls as [|u urls IH]; intros st; simpl.
  - repeat split. exists []. rewrite app_nil_r. repeat split; auto.
  - destruct (Legacy.mem u existing) eqn:Em.
    + specialize (IH (Legacy.mkRun (Legacy.db st) (Legacy.inserted st)
                        (S (Legacy.skipped st)) (Legacy.clock_reads st))).
      simpl in IH. destruct IH as (Hsame & new & Hl & Hc & Hall).
      split; [exact Hsame|]. exists new. repeat split; auto.
      eapply Forall_impl; [|exact Hall]. simpl. tauto.
    + destruct (urlparse_netloc u) as [loc|] eqn:El.
      * match goal with
        | |- context [Legacy.insert_new _ _ _ _ _ ?s] => specialize (IH s)
        end.
        unfold Legacy.insert_simple in *. simpl in IH.
        destruct IH as ((Hr & Ha & Ht) & new & Hl & Hc & Hall).
        split; [repeat split; assumption|].
        eexists (_ :: new). rewrite Hl, <- app_assoc. simpl.
        split; [reflexivity|]. split; [lia|].
        constructor.
        -- simpl. repeat split; auto.
           ++ intros Hin. apply mem_In in Hin. congruence.
           ++ apply domain_of_nonempty.
        -- eapply Forall_impl; [|exact Hall]. simpl. tauto.
      * simpl. repeat split. exists []. rewrite app_nil_r.
        repeat split; auto.
Qed.

Lemma existing_urls_grow (d : Legacy.DB) (new : list Legacy.LinkRow)
      (d' : Legacy.DB) (k : Z) (u : string) :
  Legacy.report_links d' = Legacy.report_links d ++ new ->
  In u (Legacy.existing_urls d k) -> In u (Legacy.existing_urls d' k).
Proof.
  unfold Legacy.existing_urls. intros -> H.
  rewrite filter_app, map_app. apply in_or_app. now left.
Qed.

(** The whole loop over the selected rows, from any state reached after
    the database [d0]. *)
Lemma scan_reports_writes (d0 : Legacy.DB) (rows : list Legacy.ReportRow) :
  forall (seen : list Legacy.ReportRow) st,
    (forall k u, In u (Legacy.existing_urls d0 k) ->
                 In u (Legacy.existing_urls (Legacy.db st) k)) ->
    let st' :=
      Legacy.state_of
        (Legacy.scan_reports urlparse_netloc utcnow rows st) in
    Links.same_but_links (Legacy.db st) (Legacy.db st')
    /\ exists new,
        Legacy.report_links (Legacy.db st')
        = Legacy.report_links (Legacy.db st) ++ new
        /\ Legacy.inserted st' = (Legacy.inserted st + List.length new)%nat
        /\ Forall (Links.extracted d0 (seen ++ rows)) new.
Proof.
  unfold Links.same_but_links.
  induction rows as [|r rows IH]; intros seen st Hmono; simpl.
  - repeat split. exists []. rewrite app_nil_r. repeat split; auto.
  - assert (Hone :
      let st1 :=
        Legacy.state_of (Legacy.scan_report urlparse_netloc utcnow r st) in
      (Legacy.reports (Legacy.db st1) = Legacy.reports (Legacy.db st)
       /\ Legacy.report_audit (Legacy.db st1)
          = Legacy.report_audit (Legacy.db st)
       /\ Legacy.attachments (Legacy.db st1)
          = Legacy.attachments (Legacy.db st))
      /\ exists new,
          Legacy.report_links (Legacy.db st1)
          = Legacy.report_links (Legacy.db st) ++ new
          /\ Legacy.inserted st1 = (Legacy.inserted st + List.length new)%nat
          /\ Forall (Links.extracted d0 (seen ++ r :: rows)) new).
    { unfold Legacy.scan_report.
      destruct (Legacy.extract_urls (Legacy.scanned_text r))
        as [|u urls] eqn:E.
      - simpl. repeat split. exists []. rewrite app_nil_r.
        repeat split; auto.
      - pose proof (insert_new_writes (Legacy.id r)
                      (Legacy.existing_urls (Legacy.db st) (Legacy.id r))
                      (u :: urls) st) as H.
        cbv zeta in H. unfold Links.same_but_links in H.
        destruct H as (Hsame & new & Hl & Hc & Hall).
        cbv zeta. split; [exact Hsame|]. exists new. repeat split; auto.
        eapply Forall_impl; [|exact Hall]. simpl.
        intros l (Hid & Hu & Hnew & Hdel & Hsafe & Hdom).
        assert (Hne : Legacy.url l <> "").
        { apply (extract_urls_tokens_nonempty (Legacy.scanned_text r)).
          now rewrite E. }
        unfold Links.extracted. repeat split; auto.
        exists r.
        split; [apply in_or_app; right; now left|].
        split; [now symmetry|].
        split; [now rewrite E|].
        intros Hin. apply Hnew, Hmono. exact Hin. }
    cbv zeta in Hone.
    destruct (Legacy.scan_report urlparse_netloc utcnow r st)
      as [st1|st1] eqn:E1; simpl in Hone.
    + destruct Hone as ((Hr1 & Ha1 & Ht1) & new1 & Hl1 & Hc1 & Hall1).
      specialize (IH (seen ++ [r]) st1).
      rewrite <- app_assoc in IH. simpl in IH.
      destruct IH as ((Hr & Ha & Ht) & new & Hl & Hc & Hall).
      { intros k u Hu. eapply existing_urls_grow; [exact Hl1|].
        now apply Hmono. }
      split; [repeat split; congruence|].
      exists (new1 ++ new). rewrite Hl, Hl1, <- app_assoc.
      split; [reflexivity|]. split; [rewrite length_app; lia|].
      apply Forall_app. now split.
    + simpl. exact Hone.
Qed.
End ExtractionWrites.


Lemma selected_rows_In (d : Legacy.DB) (r : Legacy.ReportRow) :
  In r (Legacy.selected_rows d) ->
  In r (Legacy.reports d)
  /\ Legacy.contain_link r = true /\ Legacy.deleted r = false.
Proof.
  unfold Legacy.selected_rows. intros H.
  apply firstn_In, order_by_desc_In, filter_In in H.
  destruct H as [Hin Hc]. apply andb_true_iff in Hc.
  destruct Hc as [Hc Hd]. apply negb_true_iff in Hd. auto.
Qed.

(** A run of the extraction, finished or stopped by an exception, leaves
    the reports, the audit entries and the attachments as they were and
    only appends to the links table: no existing link is changed or
    removed, and the [inserted] counter is the number of rows appended. *)
Theorem extraction_only_appends_links :
  forall (urlparse_netloc : string -> option string) (utcnow : nat -> Z)
         (d : Legacy.DB),
    let st :=
      Legacy.state_of (Legacy.run_extraction urlparse_netloc utcnow d) in
    Legacy.reports (Legacy.db st) = Legacy.reports d
    /\ Legacy.report_audit (Legacy.db st) = Legacy.report_audit d
    /\ Legacy.attachments (Legacy.db st) = Legacy.attachments d
    /\ exists new,
        Legacy.report_links (Legacy.db st) = Legacy.report_links d ++ new
        /\ List.length new = Legacy.inserted st.
Proof.
  intros urlparse_netloc utcnow d st. subst st.
  unfold Legacy.run_extraction.
  pose proof (scan_reports_writes urlparse_netloc utcnow d
                (Legacy.selected_rows d) [] (Legacy.mkRun d 0 0 0)
                (fun k u H => H)) as H.
  cbv zeta in H. unfold Links.same_but_links in H. simpl in H.
  destruct H as ((Hr & Ha & Ht) & new & Hl & Hc & _).
  repeat split; auto. exists new. split; [assumption | lia].
Qed.

(** Every link that is in the table after a run and was not there before
    is a live link without safety rating, with a URL and a domain that
    are not empty; it belongs to a report that has [contain_link] set and
    is not deleted, its URL is a token of that report's text, and that
    URL was not recorded for the report when the run began. *)
Theorem extraction_writes_new_tokens_of_selected_reports :
  forall (urlparse_netloc : string -> option string) (utcnow : nat -> Z)
         (d : Legacy.DB) (l : Legacy.LinkRow),
    let st :=
      Legacy.state_of (Legacy.run_extraction urlparse_netloc utcnow d) in
    In l (Legacy.report_links (Legacy.db st)) ->
    In l (Legacy.report_links d)
    \/ (Legacy.link_deleted l = false
        /\ Legacy.safety l = None
        /\ Legacy.url l <> ""
        /\ Legacy.domain l <> ""
        /\ exists r,
            In r (Legacy.reports d)
            /\ Legacy.contain_link r = true
            /\ Legacy.deleted r = false
            /\ Legacy.id r = Legacy.link_report_id l
            /\ In (Legacy.url l)
                  (Legacy.extract_urls (Legacy.scanned_text r))
            /\ ~ In (Legacy.url l) (Legacy.existing_urls d (Legacy.id r))).
Proof.
  intros urlparse_netloc utcnow d l st Hin. subst st.
  unfold Legacy.run_extraction in Hin.
  pose proof (scan_reports_writes urlparse_netloc utcnow d
                (Legacy.selected_rows d) [] (Legacy.mkRun d 0 0 0)
                (fun k u H => H)) as H.
  cbv zeta in H. simpl in H.
  destruct H as (_ & new & Hl & _ & Hall).
  rewrite Hl in Hin. apply in_app_or in Hin.
  destruct Hin as [Hold|Hnew]; [now left | right].
  rewrite Forall_forall in Hall. specialize (Hall l Hnew).
  destruct Hall as (Hd & Hs & Hu & Hdom & r & Hr & Hid & Htok & Hfresh).
  apply selected_rows_In in Hr. destruct Hr as (Hr & Hc & Hdel).
  repeat split; auto. exists r. repeat split; auto.
Qed.

Lemma extraction_writes_witness :
  let d := Examples.link_db Examples.scam_text in
  let st :=
    Legacy.state_of (Legacy.run_extraction Legacy.netloc Examples.clock d) in
  let l := Legacy.mkLinkRow 1 "www.scam.test/y" "www.scam.test/y" None
                            1002 1003 false in
  In l (Legacy.report_links (Legacy.db st))
  /\ exists r,
      In r (Legacy.reports d)
      /\ Legacy.id r = 1
      /\ In "www.scam.test/y" (Legacy.extract_urls (Legacy.scanned_text r)).
Proof.
  cbv zeta.
  assert (Hin : In (Legacy.mkLinkRow 1 "www.scam.test/y" "www.scam.test/y"
                      None 1002 1003 false)
                   (Legacy.report_links
                      (Legacy.db
                         (Legacy.state_of
                            (Legacy.run_extraction Legacy.netloc
                               Examples.clock
                               (Examples.link_db Examples.scam_text))))))
    by (vm_compute; right; left; reflexivity).
  split; [exact Hin|].
  destruct (extraction_writes_new_tokens_of_selected_reports Legacy.netloc
              Examples.clock (Examples.link_db Examples.scam_text) _ Hin)
    as [Hold|(_ & _ & _ & _ & r & Hr & _ & _ & Hid & Htok & _)].
  - destruct Hold.
  - exists r. repeat split; assumption.
Defined.

Lemma filter_nothing {A : Type} (p : A -> bool) (l : list A) :
  (forall x, In x l -> p x = false) -> filter p l = [].
Proof.
  induction l as [|x l IH]; simpl; intros H; [reflexivity|].
  rewrite (H x) by now left. apply IH. intros; apply H; now right.
Qed.

(** Deleting a report through the audit form takes it out of the
    extraction: whatever file and comment went with the delete, a later
    run leaves the link rows of that report exactly as they were. *)
Theorem deleted_report_keeps_its_links :
  forall (urlparse_netloc : string -> option string) (utcnow : nat -> Z)
         (d : Legacy.DB) (k : Z) attach_type uploaded by_user cmt now_utc,
    let d1 :=
      Legacy.final d
        (Legacy.audit_submit d (Some k) attach_type uploaded by_user
           "delete" cmt now_utc) in
    let st :=
      Legacy.state_of (Legacy.run_extraction urlparse_netloc utcnow d1) in
    Links.links_of (Legacy.db st) k = Links.links_of d k.
Proof.
  intros urlparse_netloc utcnow d k attach_type uploaded by_user cmt now_utc
         d1 st.
  assert (Hd1 : Legacy.report_links d1 = Legacy.report_links d
                /\ forall r, In r (Legacy.reports d1) ->
                             Legacy.id r = k -> Legacy.deleted r = true).
  { subst d1. unfold Legacy.audit_submit, Legacy.final. simpl negb.
    cbv iota. simpl String.eqb. cbv iota.
    destruct uploaded as [u|];
      [destruct (negb (String.eqb attach_type "none"))|];
      rewrite last_two; (split; [reflexivity|]);
      simpl; intros r Hr Hid; apply in_map_iff in Hr;
      destruct Hr as (x & Hx & _);
      (destruct (Legacy.id x =? k) eqn:E;
       [subst r; reflexivity
       | subst r; apply Z.eqb_neq in E; contradiction]). }
  destruct Hd1 as [Hlinks Hdel].
  subst st. unfold Legacy.run_extraction.
  pose proof (scan_reports_writes urlparse_netloc utcnow d1
                (Legacy.selected_rows d1) [] (Legacy.mkRun d1 0 0 0)
                (fun k u H => H)) as H.
  cbv zeta in H. simpl in H.
  destruct H as (_ & new & Hl & _ & Hall).
  unfold Links.links_of. rewrite Hl, Hlinks, filter_app.
  assert (Hnone : filter (fun l => Legacy.link_report_id l =? k) new = []).
  { apply filter_nothing. intros l Hin.
    rewrite Forall_forall in Hall.
    destruct (Hall l Hin) as (_ & _ & _ & _ & r & Hr & Hid & _).
    apply selected_rows_In in Hr. destruct Hr as (Hr & _ & Halive).
    apply Z.eqb_neq. intros E.
    rewrite (Hdel r Hr) in Halive by congruence. discriminate. }
  rewrite Hnone. apply app_nil_r.
Qed.


(** ** When the extraction keeps the links of a report free of repeats *)

Section ExtractionNoDup.
Variable urlparse_netloc : string -> option string.
Variable utcnow : nat -> Z.

Lemma existing_urls_insert (d : Legacy.DB) (row : Legacy.LinkRow) (k : Z) :
  Legacy.existing_urls
    (Legacy.with_links (Legacy.insert_simple (Legacy.report_links d) row) d) k
  = Legacy.existing_urls d k
    ++ (if Legacy.link_report_id row =? k then [Legacy.url row] else []).
Proof.
  unfold Legacy.insert_simple. rewrite existing_urls_app. simpl.
  now destruct (Legacy.link_report_id row =? k).
Qed.

Lemma insert_new_nodup (rid : Z) (existing urls : list string) :
  forall st,
    NoDup urls ->
    (forall k, NoDup (Legacy.existing_urls (Legacy.db st) k)) ->
    (forall u, In u urls ->
               In u (Legacy.existing_urls (Legacy.db st) rid) ->
               In u existing) ->
    forall k,
      NoDup
        (Legacy.existing_urls
           (Legacy.db
              (Legacy.state_of
                 (Legacy.insert_new urlparse_netloc utcnow rid existing urls
                    st)))
           k).
Proof.
  induction urls as [|u urls IH]; intros st Hnd Hdb Hknown k; simpl.
  - apply Hdb.
  - inversion Hnd as [|? ? Hu Hrest]; subst.
    destruct (Legacy.mem u existing) eqn:Em.
    + apply IH; simpl; auto. intros v Hv. apply Hknown. now right.
    + destruct (urlparse_netloc u) as [loc|]; [|apply Hdb].
      assert (Hfresh : ~ In u (Legacy.existing_urls (Legacy.db st) rid)).
      { intros Hin. apply Hknown in Hin; [|now left].
        apply mem_In in Hin. congruence. }
      apply IH; [assumption| |].
      * intros k'. simpl. rewrite existing_urls_insert. simpl.
        destruct (rid =? k') eqn:E; [|rewrite app_nil_r; apply Hdb].
        apply Z.eqb_eq in E. subst k'.
        apply NoDup_app; [apply Hdb | repeat constructor; auto |].
        intros x Hx [<-|[]]. contradiction.
      * intros v Hv Hin. simpl in Hin. rewrite existing_urls_insert in Hin.
        simpl in Hin. rewrite Z.eqb_refl in Hin.
        apply in_app_or in Hin. destruct Hin as [Hin|[<-|[]]].
        -- apply Hknown; [now right | assumption].
        -- contradiction.
Qed.

Lemma scan_reports_nodup (rows : list Legacy.ReportRow) :
  forall st,
    (forall r, In r rows ->
               NoDup (Legacy.extract_urls (Legacy.scanned_text r))) ->
    (forall k, NoDup (Legacy.existing_urls (Legacy.db st) k)) ->
    forall k,
      NoDup
        (Legacy.existing_urls
           (Legacy.db
              (Legacy.state_of
                 (Legacy.scan_reports urlparse_netloc utcnow rows st)))
           k).
Proof.
  induction rows as [|r rows IH]; intros st Htok Hdb k; simpl.
  - apply Hdb.
  - assert (Hone : forall k',
               NoDup
                 (Legacy.existing_urls
                    (Legacy.db
                       (Legacy.state_of
                          (Legacy.scan_report urlparse_netloc utcnow r st)))
                    k')).
    { intros k'. unfold Legacy.scan_report.
      pose proof (Htok r (or_introl eq_refl)) as Hr.
      destruct (Legacy.extract_urls (Legacy.scanned_text r))
        as [|u urls]; [apply Hdb|].
      apply insert_new_nodup; auto. }
    destruct (Legacy.scan_report urlparse_netloc utcnow r st)
      as [st1|st1]; simpl in Hone.
    + apply IH; [|exact Hone]. intros r0 Hr0. apply Htok. now right.
    + apply Hone.
Qed.
End ExtractionNoDup.

(** When no report has the same URL recorded twice and no selected
    report has the same token twice in its text, a run of the
    extraction, finished or not, leaves no report with the same URL
    recorded twice. *)
Theorem extraction_keeps_urls_distinct :
  forall (urlparse_netloc : string -> option string) (utcnow : nat -> Z)
         (d : Legacy.DB),
    (forall k, NoDup (Legacy.existing_urls d k)) ->
    (forall r, In r (Legacy.selected_rows d) ->
               NoDup (Legacy.extract_urls (Legacy.scanned_text r))) ->
    forall k,
      NoDup
        (Legacy.existing_urls
           (Legacy.db
              (Legacy.state_of
                 (Legacy.run_extraction urlparse_netloc utcnow d)))
           k).
Proof.
  intros urlparse_netloc utcnow d Hdb Htok k.
  unfold Legacy.run_extraction. now apply scan_reports_nodup.
Qed.

Lemma extraction_keeps_urls_distinct_witness :
  let d := Examples.link_db Examples.scam_text in
  NoDup
    (Legacy.existing_urls
       (Legacy.db
          (Legacy.state_of
             (Legacy.run_extraction Legacy.netloc Examples.clock d)))
       1).
Proof.
  apply extraction_keeps_urls_distinct.
  - intros k. vm_compute. constructor.
  - intros r [<-|[]]. vm_compute.
    repeat constructor; simpl; intros H;
      repeat (destruct H as [H|H]; try discriminate); assumption.
Defined.


(** ** The tokens of [extract_urls] *)

Lemma all_ascii_complete (c : ascii) : In c Tokens.all_ascii.
Proof.
  unfold Tokens.all_ascii. apply in_map_iff.
  exists (nat_of_ascii c). split; [apply ascii_nat_embedding|].
  apply in_seq. pose proof (nat_ascii_bounded c). lia.
Qed.

Lemma strip_prefix_split (p s s' : string) :
  Legacy.strip_prefix p s = Some s' -> s = (p ++ s')%string.
Proof.
  revert s. induction p as [|a p IH]; intros s H; simpl in H.
  - now injection H as ->.
  - destruct s as [|b s]; [discriminate|].
    destruct (Ascii.eqb a b) eqn:E; [|discriminate].
    apply Ascii.eqb_eq in E. subst b. simpl. f_equal. now apply IH.
Qed.

Lemma string_forallb_app (ok : ascii -> bool) (a b : string) :
  Legacy.string_forallb ok (a ++ b)
  = Legacy.string_forallb ok a && Legacy.string_forallb ok b.
Proof.
  induction a as [|c a IH]; simpl; [reflexivity|].
  now rewrite IH, andb_assoc.
Qed.

Lemma string_app_assoc (a b c : string) :
  ((a ++ b) ++ c)%string = (a ++ (b ++ c))%string.
Proof. induction a as [|x a IH]; simpl; [reflexivity | now rewrite IH]. Qed.

Section TokenFacts.
Context {R : Type}.
Variable ok : ascii -> bool.

(** A repetition consumes a prefix made of characters of its class. *)
Lemma many_prefix (cls : ascii -> bool) (min : nat) (s : string) :
  forall (n : nat) (k : string -> option R) (x : R),
    (forall c, cls c = true -> ok c = true) ->
    Legacy.many cls min s n k = Some x ->
    exists pre rest,
      s = (pre ++ rest)%string
      /\ Legacy.string_forallb ok pre = true
      /\ k rest = Some x.
Proof.
  induction s as [|c s IH]; intros n k x Hcls H; simpl in H.
  - destruct (min <=? n)%nat; [|discriminate].
    exists EmptyString, EmptyString. auto.
  - assert (Hstop :
              (if (min <=? n)%nat then k (String c s) else None) = Some x ->
              exists pre rest,
                String c s = (pre ++ rest)%string
                /\ Legacy.string_forallb ok pre = true
                /\ k rest = Some x).
    { intros Hs. destruct (min <=? n)%nat; [|discriminate].
      exists EmptyString, (String c s). auto. }
    destruct (cls c) eqn:Ec; [|now apply Hstop].
    destruct (Legacy.many cls min s (S n) k) as [y|] eqn:Em;
      [|now apply Hstop].
    injection H as ->. apply IH in Em; [|assumption].
    destruct Em as (pre & rest & -> & Hok & Hk).
    exists (String c pre), rest. simpl. rewrite Hok, (Hcls c Ec). auto.
Qed.

(** The matcher consumes a prefix made of characters that the pattern
    admits. *)
Lemma run_prefix (r : Legacy.regex) :
  forall (s : string) (k : string -> option R) (x : R),
    Tokens.within ok r = true ->
    Legacy.run r s k = Some x ->
    exists pre rest,
      s = (pre ++ rest)%string
      /\ Legacy.string_forallb ok pre = true
      /\ k rest = Some x.
Proof.
  induction r as [p|cls min|a IHa b IHb|a IHa b IHb|a IHa];
    intros s k x Hw H; simpl in H; cbn [Tokens.within] in Hw.
  - destruct (Legacy.strip_prefix p s) as [s'|] eqn:E; [|discriminate].
    apply strip_prefix_split in E. exists p, s'. auto.
  - apply many_prefix in H; [assumption|].
    intros c Hc. rewrite forallb_forall in Hw.
    specialize (Hw c (all_ascii_complete c)). now rewrite Hc in Hw.
  - apply andb_true_iff in Hw. destruct Hw as [Hwa Hwb].
    apply IHa in H; [|assumption].
    destruct H as (pre1 & mid & -> & Hok1 & Hb).
    apply IHb in Hb; [|assumption].
    destruct Hb as (pre2 & rest & -> & Hok2 & Hk).
    exists (pre1 ++ pre2)%string, rest.
    rewrite string_app_assoc, string_forallb_app, Hok1, Hok2. auto.
  - apply andb_true_iff in Hw. destruct Hw as [Hwa Hwb].
    destruct (Legacy.run a s k) as [y|] eqn:Ea.
    + injection H as ->. now apply IHa in Ea.
    + now apply IHb in H.
  - destruct (Legacy.run a s k) as [y|] eqn:Ea.
    + injection H as ->. now apply IHa in Ea.
    + exists EmptyString, s. auto.
Qed.
End TokenFacts.

Lemma substring_prefix (pre rest : string) :
  String.substring 0 (String.length pre) (pre ++ rest) = pre.
Proof.
  induction pre as [|c pre IH]; simpl.
  - now destruct rest.
  - now rewrite IH.
Qed.

Lemma string_length_app (a b : string) :
  String.length (a ++ b) = (String.length a + String.length b)%nat.
Proof. induction a as [|c a IH]; simpl; [reflexivity | now rewrite IH]. Qed.

(** An anchored match is a prefix of the input made of admitted
    characters. *)
Lemma match_here_prefix (ok : ascii -> bool) (r : Legacy.regex)
      (s : string) (len : nat) :
  Tokens.within ok r = true ->
  Legacy.match_here r s = Some len ->
  exists rest,
    s = (String.substring 0 len s ++ rest)%string
    /\ Legacy.string_forallb ok (String.substring 0 len s) = true.
Proof.
  unfold Legacy.match_here. intros Hw H.
  apply (run_prefix ok) in H; [|assumption].
  destruct H as (pre & rest & -> & Hok & Hk).
  injection Hk as <-.
  rewrite string_length_app.
  replace (String.length pre + String.length rest - String.length rest)%nat
    with (String.length pre) by lia.
  rewrite substring_prefix. now exists rest.
Qed.

Lemma findall_from_tokens (ok : ascii -> bool) (r : Legacy.regex) :
  Tokens.within ok r = true ->
  forall (s : string) (inside : nat) (u : string),
    In u (Legacy.findall_from r s inside) ->
    Legacy.string_forallb ok u = true
    /\ exists before after, s = (before ++ u ++ after)%string.
Proof.
  intros Hw. induction s as [|c s IH]; intros inside u H; simpl in H;
    [destruct H|].
  assert (Hlater :
            forall n, In u (Legacy.findall_from r s n) ->
                      Legacy.string_forallb ok u = true
                      /\ exists before after,
                          String c s = (before ++ u ++ after)%string).
  { intros n Hn. apply IH in Hn.
    destruct Hn as (Hok & before & after & ->).
    split; [assumption|]. now exists (String c before), after. }
  destruct inside as [|inside]; [|now apply Hlater in H].
  destruct (Legacy.match_here r (String c s)) as [len|] eqn:E;
    [|now apply Hlater in H].
  destruct H as [<-|H]; [|now apply Hlater in H].
  apply (match_here_prefix ok) in E; [|assumption].
  destruct E as (rest & Hs & Hok). split; [assumption|].
  exists EmptyString, rest. exact Hs.
Qed.

(** Every token that [extract_urls] returns is a piece of the text, is
    not empty and contains no whitespace. *)
Theorem extract_urls_tokens_are_pieces_without_space :
  forall (text u : string),
    In u (Legacy.extract_urls text) ->
    u <> ""
    /\ Legacy.string_forallb Legacy.non_space u = true
    /\ exists before after, text = (before ++ u ++ after)%string.
Proof.
  intros text u H.
  split; [now apply (extract_urls_tokens_nonempty text)|].
  unfold Legacy.extract_urls, Legacy.findall in H.
  destruct (String.eqb text ""); [destruct H|].
  apply (findall_from_tokens Legacy.non_space) in H; [assumption|].
  vm_compute. reflexivity.
Qed.

Lemma extract_urls_tokens_witness :
  "www.scam.test/y" <> ""
  /\ Legacy.string_forallb Legacy.non_space "www.scam.test/y" = true
  /\ exists before after,
      Examples.scam_text = (before ++ "www.scam.test/y" ++ after)%string.
Proof.
  apply extract_urls_tokens_are_pieces_without_space.
  vm_compute. right. left. reflexivity.
Defined.


(** ** Display conversion keeps the instant *)

(** The local time of the last transition at or before the instant [u] is
    not after the wall-clock value that [fromutc] computes for [u]. *)
Lemma last_transition_before_wall (ts : list (Z * Z)) :
  forall p0 t0 p f u O F,
    t0 <= u ->
    f = (u - t0 <? p0 - p) ->
    Legacy.increasing (Legacy.local_times true p0 ((t0, p) :: ts)) = true ->
    Legacy.increasing (Legacy.local_times false p0 ((t0, p) :: ts)) = true ->
    Legacy.info_at_utc p f ts u = (O, F) ->
    t0 + (if F then Z.min p0 p else Z.max p0 p) <= u + O.
Proof.
  induction ts as [|[t1 p1] ts IH]; intros p0 t0 p f u O F Hu Hf Ht Hn H.
  - simpl in H. injection H as <- <-. subst f.
    destruct (u - t0 <? p0 - p) eqn:E;
      [apply Z.ltb_lt in E | apply Z.ltb_ge in E]; lia.
  - simpl in H. destruct (t1 <=? u) eqn:E1.
    + apply Z.leb_le in E1.
      simpl Legacy.local_times in Ht, Hn.
      apply increasing_cons in Ht. destruct Ht as [Hlt Ht].
      apply increasing_cons in Hn. destruct Hn as [Hln Hn].
      specialize (IH p t1 p1 _ u O F E1 eq_refl Ht Hn H).
      destruct F; lia.
    + injection H as <- <-. subst f.
      destruct (u - t0 <? p0 - p) eqn:E;
        [apply Z.ltb_lt in E | apply Z.ltb_ge in E]; lia.
Qed.

(** [utcoffset] of the value that [fromutc] builds is the offset that
    [fromutc] added. *)
Lemma fromutc_offset_consistent (ts : list (Z * Z)) :
  forall cur f u O F,
    Legacy.increasing (Legacy.local_times true cur ts) = true ->
    Legacy.increasing (Legacy.local_times false cur ts) = true ->
    Zones.spaced cur ts = true ->
    (f = true ->
     match ts with
     | [] => True
     | (t1, o1) :: _ => u + cur < t1 + Z.min cur o1
     end) ->
    Legacy.info_at_utc cur f ts u = (O, F) ->
    Legacy.offset_at_wall F cur ts (u + O) = O.
Proof.
  induction ts as [|[t o] ts IH]; intros cur f u O F Ht Hn Hsp Hf H.
  - simpl in H. now injection H as <- <-.
  - simpl in H. destruct (t <=? u) eqn:E.
    + apply Z.leb_le in E.
      pose proof (last_transition_before_wall ts cur t o _ u O F E eq_refl
                    Ht Hn H) as Hpass.
      simpl Legacy.offset_at_wall.
      apply Z.leb_le in Hpass. rewrite Hpass.
      simpl Zones.spaced in Hsp. apply andb_true_iff in Hsp.
      destruct Hsp as [Hhead Hsp].
      simpl Legacy.local_times in Ht, Hn.
      apply increasing_tail in Ht. apply increasing_tail in Hn.
      apply (IH o (u - t <? cur - o)); auto.
      intros Hfold. apply Z.ltb_lt in Hfold.
      destruct ts as [|[t1 o1] ts]; [exact I|].
      apply Z.leb_le in Hhead. lia.
    + apply Z.leb_gt in E. injection H as <- <-.
      simpl Legacy.offset_at_wall.
      assert (Hstop :
                (t + (if f then Z.min cur o else Z.max cur o) <=? u + cur)
                = false).
      { apply Z.leb_gt. destruct f; [specialize (Hf eq_refl)|]; lia. }
      now rewrite Hstop.
Qed.

Lemma fromutc_instant (key : string) (z : Legacy.Zone) (u : Z) :
  Legacy.well_formed z = true ->
  Zones.spaced (Legacy.before z) (Legacy.transitions z) = true ->
  Legacy.instant (Legacy.fromutc (Legacy.ZoneInfo key z) u) = u.
Proof.
  intros Hwf Hsp. unfold Legacy.well_formed in Hwf.
  apply andb_true_iff in Hwf. destruct Hwf as [Hwf Ht].
  apply andb_true_iff in Hwf. destruct Hwf as [_ Hn].
  unfold Legacy.fromutc, Legacy.instant.
  destruct (Legacy.info_at_utc (Legacy.before z) false
              (Legacy.transitions z) u) as [O F] eqn:E.
  assert (Ho : Legacy.offset_at_wall F (Legacy.before z)
                 (Legacy.transitions z) (u + O) = O).
  { eapply fromutc_offset_consistent; eauto. discriminate. }
  unfold Legacy.utcoffset. simpl. rewrite Ho. lia.
Qed.

(** Displaying a stored datetime in a zone that the timezone database
    knows never changes the instant it denotes: only the wall-clock
    fields and the zone of the result differ. *)
Theorem convert_utc_to_local_keeps_the_instant :
  forall (tzdb : string -> option Legacy.Zone) (dt : Legacy.datetime)
         (name : string) (z : Legacy.Zone),
    name <> "" ->
    tzdb name = Some z ->
    Legacy.well_formed z = true ->
    Zones.spaced (Legacy.before z) (Legacy.transitions z) = true ->
    exists dt',
      Legacy.convert_utc_to_local tzdb (Some dt) (Some name) = Some dt'
      /\ Legacy.instant dt' = Legacy.instant dt.
Proof.
  intros tzdb dt name z Hne Hdb Hwf Hsp.
  unfold Legacy.convert_utc_to_local.
  apply String.eqb_neq in Hne. rewrite Hne, Hdb.
  unfold Legacy.astimezone.
  destruct (Legacy.same_object (Legacy.tz dt) (Legacy.ZoneInfo name z));
    [now exists dt|].
  destruct (Legacy.representable (Legacy.instant dt)); [|now exists dt].
  destruct (Legacy.representable
              (Legacy.wall
                 (Legacy.fromutc (Legacy.ZoneInfo name z)
                    (Legacy.instant dt))));
    [|now exists dt].
  eexists. split; [reflexivity|]. now apply fromutc_instant.
Qed.

Lemma convert_utc_to_local_keeps_the_instant_witness :
  let stored :=
    Legacy.mkDatetime (Legacy.combine 2024 11 3 5 30 0) false Legacy.PytzUtc in
  exists dt',
    Legacy.convert_utc_to_local Legacy.tzdata (Some stored)
      (Some "America/New_York")
    = Some dt'
    /\ Legacy.instant dt' = Legacy.instant stored.
Proof.
  apply (convert_utc_to_local_keeps_the_instant Legacy.tzdata _
           "America/New_York" Legacy.new_york).
  - discriminate.
  - reflexivity.
  - reflexivity.
  - reflexivity.
Defined.


(** ** Sequences of moderation actions *)

(** The lookups after [admin_action] on a report that exists and is not
    deleted. *)
Lemma admin_action_lookups (d : App.DB) report_id action reason admin_user
      now db_now (r : App.Report) :
  App.get_report d report_id = Some r ->
  App.deleted r = false ->
  let r' := App.transition action reason admin_user now r in
  let d' :=
    fst (App.admin_action d report_id action reason admin_user now db_now) in
  App.attachments d' = App.attachments d
  /\ App.get_report d' report_id
     = Some (if App.Report_eq_dec r' r then r else App.touch r' db_now)
  /\ (forall k, k <> report_id -> App.get_report d' k = App.get_report d k).
Proof.
  intros Hget Hlive r' d'. subst d'. unfold App.admin_action.
  rewrite Hget, Hlive. simpl fst. fold r'.
  assert (Hid : App.id r' = App.id r) by apply transition_id.
  pose proof (get_report_id _ _ _ Hget) as Hrid.
  destruct (App.Report_eq_dec r' r) as [E|Hne].
  - unfold App.commit.
    destruct (App.Report_eq_dec r' r); [|contradiction]. auto.
  - split; [|split].
    + unfold App.commit.
      destruct (App.Report_eq_dec r' r); [contradiction | reflexivity].
    + rewrite get_report_commit by assumption.
      rewrite Hget. simpl. now rewrite Z.eqb_refl.
    + intros k Hk. rewrite get_report_commit by assumption.
      destruct (App.get_report d k) as [x|] eqn:Ex; [|reflexivity].
      simpl. apply get_report_id in Ex.
      assert (Hx : (App.id x =? App.id r) = false)
        by (apply Z.eqb_neq; congruence).
      now rewrite Hx.
Qed.

Lemma apply_call_attachments (d : App.DB) (c : Moderation.Call) :
  App.attachments (Moderation.apply_call d c) = App.attachments d.
Proof.
  unfold Moderation.apply_call, App.admin_action.
  destruct (App.get_report d (Moderation.call_report_id c)) as [r|];
    [|reflexivity].
  destruct (App.deleted r); [reflexivity|]. simpl. unfold App.commit.
  now destruct (App.Report_eq_dec _ r).
Qed.

(** A deleted report is out of reach of one call, whichever report the
    call names. *)
Lemma apply_call_keeps_deleted (d : App.DB) (c : Moderation.Call) (k : Z)
      (r : App.Report) :
  App.get_report d k = Some r ->
  App.deleted r = true ->
  App.get_report (Moderation.apply_call d c) k = Some r.
Proof.
  intros Hget Hdel. unfold Moderation.apply_call.
  destruct (Z.eq_dec (Moderation.call_report_id c) k) as [E|Hne].
  - rewrite E, admin_action_noop; [exact Hget|].
    right. now exists r.
  - destruct (App.get_report d (Moderation.call_report_id c)) as [x|] eqn:Ex.
    + destruct (App.deleted x) eqn:Edx.
      * rewrite admin_action_noop; [exact Hget|]. right. now exists x.
      * destruct (admin_action_lookups d _ (Moderation.call_action c)
                    (Moderation.call_reason c) (Moderation.call_admin_user c)
                    (Moderation.call_now c) (Moderation.call_db_now c)
                    x Ex Edx) as (_ & _ & Hother).
        rewrite Hother by congruence. exact Hget.
    + rewrite admin_action_noop; [exact Hget|]. now left.
Qed.

(** Deletion is final in [main.py]: after any sequence of admin actions,
    on this report or on others, a report that was deleted is still
    stored exactly as it was, and the download of any of its attachments
    is still refused. *)
Theorem deleted_report_is_frozen :
  forall (calls : list Moderation.Call) (d : App.DB) (k : Z)
         (r : App.Report),
    App.get_report d k = Some r ->
    App.deleted r = true ->
    let d' := Moderation.apply_calls d calls in
    App.get_report d' k = Some r
    /\ forall attachment_id att,
        App.get_attachment d attachment_id = Some att ->
        App.att_report_id att = k ->
        App.download_attachment d' attachment_id
        = App.RedirectResponse "/" 303.
Proof.
  unfold Moderation.apply_calls.
  induction calls as [|c calls IH]; intros d k r Hget Hdel; simpl.
  - split; [exact Hget|].
    intros attachment_id att Ha Hk. unfold App.download_attachment.
    rewrite Ha. destruct (App.att_deleted att); [reflexivity|].
    now rewrite Hk, Hget, Hdel.
  - pose proof (apply_call_keeps_deleted d c k r Hget Hdel) as Hget'.
    destruct (IH (Moderation.apply_call d c) k r Hget' Hdel) as [H1 H2].
    split; [exact H1|].
    intros attachment_id att Ha Hk. apply (H2 attachment_id att); [|exact Hk].
    unfold App.get_attachment in *. now rewrite apply_call_attachments.
Qed.

Lemma deleted_report_is_frozen_witness :
  let calls :=
    [Moderation.mkCall 3 "unflag" "" "admin" 500 501;
     Moderation.mkCall 1 "flag" "spam" "admin" 510 511;
     Moderation.mkCall 3 "flag" "again" "admin" 520 521] in
  let d' := Moderation.apply_calls Examples.small_db calls in
  App.get_report d' 3 = Some Examples.removed
  /\ App.download_attachment d' 3 = App.RedirectResponse "/" 303.
Proof.
  cbv zeta.
  destruct (deleted_report_is_frozen
              [Moderation.mkCall 3 "unflag" "" "admin" 500 501;
               Moderation.mkCall 1 "flag" "spam" "admin" 510 511;
               Moderation.mkCall 3 "flag" "again" "admin" 520 521]
              Examples.small_db 3 Examples.removed eq_refl eq_refl)
    as [Hrow Hfile].
  split; [exact Hrow|].
  apply (Hfile 3 (Examples.file_of 3 3)); reflexivity.
Defined.


(** ** Invariants of the reports table *)

Lemma transition_flag_consistent action reason admin_user now r :
  Moderation.flag_consistent r ->
  Moderation.flag_consistent (App.transition action reason admin_user now r).
Proof.
  intros H. unfold App.transition.
  destruct (String.eqb action "flag").
  - unfold Moderation.flag_consistent. simpl.
    split; [|split; discriminate].
    eexists. split; [reflexivity|].
    unfold App.truthy. destruct (String.eqb reason "") eqn:E; simpl.
    + discriminate.
    + now apply String.eqb_neq.
  - destruct (String.eqb action "unflag").
    + unfold Moderation.flag_consistent. simpl. auto.
    + destruct (String.eqb action "delete"); exact H.
Qed.

Lemma touch_flag_consistent (r : App.Report) (db_now : Z) :
  Moderation.flag_consistent r ->
  Moderation.flag_consistent (App.touch r db_now).
Proof. intros H. exact H. Qed.

(** The flag fields stay consistent: if every stored report has a reason,
    a time and a moderator exactly when it is flagged, the same holds
    after any admin action and after any submission. *)
Theorem flag_fields_stay_consistent :
  forall (d : App.DB),
    Forall Moderation.flag_consistent (App.reports d) ->
    (forall c : Moderation.Call,
        Forall Moderation.flag_consistent
               (App.reports (Moderation.apply_call d c)))
    /\ (forall (fromisoformat : string -> option Z)
               (suffix : string -> string)
               rtype source subj message received_at name contact
               attachment uuid_hex db_now,
           Forall Moderation.flag_consistent
                  (App.reports
                     (fst (App.submit_report fromisoformat suffix d rtype
                             source subj message received_at name contact
                             attachment uuid_hex db_now)))).
Proof.
  intros d Hall. split.
  - intros c. unfold Moderation.apply_call, App.admin_action.
    destruct (App.get_report d (Moderation.call_report_id c)) as [r|] eqn:Er;
      [|exact Hall].
    destruct (App.deleted r); [exact Hall|]. simpl. unfold App.commit.
    destruct (App.Report_eq_dec _ r); [exact Hall|]. simpl.
    assert (Hr : Moderation.flag_consistent r).
    { unfold App.get_report in Er. apply find_some in Er.
      rewrite Forall_forall in Hall. now apply Hall. }
    rewrite Forall_forall in *. intros x Hx.
    apply in_map_iff in Hx. destruct Hx as (y & <- & Hy).
    destruct (App.id y =? App.id r); [|now apply Hall].
    apply touch_flag_consistent. now apply transition_flag_consistent.
  - intros. unfold App.submit_report.
    assert (Hnew : forall rs, rs = App.reports d ->
               Forall Moderation.flag_consistent
                 (rs ++ [App.new_report (App.next_id (map App.id rs)) rtype
                           source subj message
                           (if App.truthy received_at
                            then fromisoformat received_at else None)
                           name contact db_now])).
    { intros rs ->. apply Forall_app. split; [exact Hall|].
      constructor; [|constructor].
      unfold Moderation.flag_consistent. simpl. auto. }
    destruct attachment as [f|]; [destruct (App.truthy (App.filename f))|];
      simpl; now apply Hnew.
Qed.

Lemma flag_fields_stay_consistent_witness :
  Forall Moderation.flag_consistent
         (App.reports
            (Moderation.apply_call Examples.small_db
               (Moderation.mkCall 1 "flag" "" "admin" 500 501))).
Proof.
  apply flag_fields_stay_consistent.
  repeat constructor; unfold Moderation.flag_consistent; simpl;
    repeat split; try discriminate.
  eexists. split; [reflexivity | discriminate].
Defined.

(** Flagging a report and then unflagging it brings the stored row back
    to what it was, up to [updated_on], and touches no other report. *)
Theorem flag_then_unflag_restores_the_report :
  forall (d : App.DB) (report_id : Z) (r : App.Report)
         reason admin_user now db_now reason' admin_user' now' db_now',
    App.get_report d report_id = Some r ->
    App.deleted r = false ->
    App.is_flagged r = false ->
    Moderation.flag_consistent r ->
    let d1 :=
      fst (App.admin_action d report_id "flag" reason admin_user now
             db_now) in
    let d2 :=
      fst (App.admin_action d1 report_id "unflag" reason' admin_user' now'
             db_now') in
    (exists r1, App.get_report d1 report_id = Some r1
                /\ App.is_flagged r1 = true)
    /\ App.get_report d2 report_id = Some (App.touch r db_now')
    /\ (forall k, k <> report_id -> App.get_report d2 k = App.get_report d k)
    /\ App.attachments d2 = App.attachments d.
Proof.
  intros d report_id r reason admin_user now db_now reason' admin_user' now'
         db_now' Hget Hlive Hflag Hcons d1 d2.
  destruct (admin_action_lookups d report_id "flag" reason admin_user now
              db_now r Hget Hlive) as (Ha1 & Hrow1 & Hother1).
  fold d1 in Ha1, Hrow1, Hother1.
  change (App.transition "flag" reason admin_user now r)
    with (App.flag r reason admin_user now) in Hrow1.
  destruct (App.Report_eq_dec (App.flag r reason admin_user now) r)
    as [E|_].
  { apply (f_equal App.is_flagged) in E. simpl in E. congruence. }
  set (r1 := App.touch (App.flag r reason admin_user now) db_now) in *.
  destruct (admin_action_lookups d1 report_id "unflag" reason' admin_user'
              now' db_now' r1 Hrow1 Hlive) as (Ha2 & Hrow2 & Hother2).
  fold d2 in Ha2, Hrow2, Hother2.
  change (App.transition "unflag" reason' admin_user' now' r1)
    with (App.unflag r1) in Hrow2.
  destruct (App.Report_eq_dec (App.unflag r1) r1) as [E|_].
  { apply (f_equal App.is_flagged) in E. simpl in E. discriminate. }
  split; [exists r1; split; [exact Hrow1 | reflexivity]|].
  split; [|split].
  - rewrite Hrow2. f_equal.
    unfold Moderation.flag_consistent in Hcons. rewrite Hflag in Hcons.
    destruct Hcons as (H1 & H2 & H3).
    destruct r. simpl in *. subst. reflexivity.
  - intros k Hk. rewrite Hother2, Hother1 by assumption. reflexivity.
  - congruence.
Qed.

Lemma flag_then_unflag_witness :
  let d1 :=
    fst (App.admin_action Examples.small_db 1 "flag" "phishing" "admin" 500
           501) in
  let d2 := fst (App.admin_action d1 1 "unflag" "" "admin" 600 601) in
  App.get_report d2 1 = Some (App.touch Examples.plain 601).
Proof.
  cbv zeta.
  apply (flag_then_unflag_restores_the_report Examples.small_db 1
           Examples.plain "phishing" "admin" 500 501 "" "admin" 600 601).
  - reflexivity.
  - reflexivity.
  - reflexivity.
  - unfold Moderation.flag_consistent. simpl. auto.
Defined.

Lemma unique_id (l : list App.Report) (x y : App.Report) :
  NoDup (map App.id l) -> In x l -> In y l -> App.id x = App.id y -> x = y.
Proof.
  induction l as [|z l IH]; simpl; intros Hnd Hx Hy Hid; [destruct Hx|].
  inversion Hnd as [|? ? Hz Hrest]; subst.
  destruct Hx as [<-|Hx], Hy as [<-|Hy]; auto.
  - exfalso. apply Hz. rewrite Hid. now apply in_map.
  - exfalso. apply Hz. rewrite <- Hid. now apply in_map.
Qed.

(** Moderation never edits what was reported: with distinct report ids,
    an admin action leaves the id, the reported content, the
    classification and verification fields and the creation time of
    every row as they were, keeps the rows in place and keeps the
    attachments; only flag fields, [deleted] and [updated_on] can
    change. *)
Theorem moderation_never_edits_content :
  forall (d : App.DB) (c : Moderation.Call),
    NoDup (map App.id (App.reports d)) ->
    let d' := Moderation.apply_call d c in
    map Moderation.content (App.reports d')
    = map Moderation.content (App.reports d)
    /\ NoDup (map App.id (App.reports d'))
    /\ App.attachments d' = App.attachments d.
Proof.
  intros d c Hnd d'.
  assert (Hcontent : map Moderation.content (App.reports d')
                     = map Moderation.content (App.reports d)).
  { subst d'. unfold Moderation.apply_call, App.admin_action.
    destruct (App.get_report d (Moderation.call_report_id c)) as [r|] eqn:Er;
      [|reflexivity].
    destruct (App.deleted r); [reflexivity|]. simpl. unfold App.commit.
    destruct (App.Report_eq_dec _ r); [reflexivity|]. simpl.
    rewrite map_map. apply map_ext_in. intros x Hx.
    destruct (App.id x =? App.id r) eqn:E; [|reflexivity].
    apply Z.eqb_eq in E.
    unfold App.get_report in Er. apply find_some in Er.
    destruct Er as [Hr _].
    rewrite (unique_id _ x r Hnd Hx Hr E).
    unfold App.transition.
    repeat match goal with |- context [String.eqb ?a ?b] =>
             destruct (String.eqb a b) end; reflexivity. }
  split; [exact Hcontent|]. split; [|apply apply_call_attachments].
  assert (Hids : map App.id (App.reports d') = map App.id (App.reports d)).
  { apply (f_equal (map (fun t =>
       match t with (i, _, _, _, _, _, _, _, _, _) => i end))) in Hcontent.
    rewrite !map_map in Hcontent. exact Hcontent. }
  now rewrite Hids.
Qed.

Lemma moderation_never_edits_content_witness :
  map Moderation.content
      (App.reports
         (Moderation.apply_call Examples.small_db
            (Moderation.mkCall 1 "delete" "" "admin" 500 501)))
  = map Moderation.content (App.reports Examples.small_db).
Proof.
  apply moderation_never_edits_content.
  repeat constructor; simpl; intros H;
    repeat (destruct H as [H|H]; try discriminate); assumption.
Defined.


(** ** What a submission stores *)

Lemma next_id_fresh (ids : list Z) (x : Z) :
  In x ids -> x < App.next_id ids.
Proof.
  unfold App.next_id. induction ids as [|y ids IH]; simpl; intros H;
    [destruct H|].
  destruct H as [<-|H]; [lia|]. specialize (IH H). lia.
Qed.

Lemma find_app_new {A : Type} (p : A -> bool) (l : list A) (x : A) :
  (forall y, In y l -> p y = false) ->
  p x = true ->
  find p (l ++ [x]) = Some x.
Proof.
  induction l as [|y l IH]; simpl; intros Hl Hx.
  - now rewrite Hx.
  - rewrite (Hl y) by now left. apply IH; auto.
Qed.

Lemma find_app_old {A : Type} (p : A -> bool) (l l' : list A) (y : A) :
  find p l = Some y -> find p (l ++ l') = Some y.
Proof.
  induction l as [|z l IH]; simpl; intros H; [discriminate|].
  destruct (p z); [assumption | now apply IH].
Qed.

Section SubmitFacts.
Variable fromisoformat : string -> option Z.
Variable suffix : string -> string.

(** The reports table after a submission, whatever came with it. *)
Lemma submit_report_reports (d : App.DB) rtype source subj message
      received_at name contact attachment uuid_hex db_now :
  App.reports
    (fst (App.submit_report fromisoformat suffix d rtype source subj message
            received_at name contact attachment uuid_hex db_now))
  = App.reports d
    ++ [App.new_report (App.next_id (map App.id (App.reports d))) rtype
          source subj message
          (if App.truthy received_at then fromisoformat received_at
           else None)
          name contact db_now].
Proof.
  unfold App.submit_report.
  destruct attachment as [f|]; [destruct (App.truthy (App.filename f))|];
    reflexivity.
Qed.

(** The lookups after a submission. *)
Lemma submit_report_lookups :
  forall (d : App.DB) rtype source subj message received_at name contact
         attachment uuid_hex db_now,
    let out :=
      App.submit_report fromisoformat suffix d rtype source subj message
        received_at name contact attachment uuid_hex db_now in
    let new_id := App.next_id (map App.id (App.reports d)) in
    App.get_report d new_id = None
    /\ (exists report,
           App.get_report (fst out) new_id = Some report
           /\ App.id report = new_id
           /\ App.report_type report = rtype
           /\ App.message_content report = message
           /\ App.source_from report = App.or_none source
           /\ App.subject report = App.or_none subj
           /\ App.is_flagged report = false
           /\ App.deleted report = false
           /\ App.is_verified report = false
           /\ App.classification report = "unclassified"
           /\ App.created_on report = db_now
           /\ report
              = App.new_report new_id rtype source subj message
                  (if App.truthy received_at then fromisoformat received_at
                   else None)
                  name contact db_now)
    /\ (forall k r, App.get_report d k = Some r ->
                    App.get_report (fst out) k = Some r)
    /\ (forall k a, App.get_attachment d k = Some a ->
                    App.get_attachment (fst out) k = Some a)
    /\ (NoDup (map App.id (App.reports d)) ->
        NoDup (map App.id (App.reports (fst out)))).
Proof.
  intros d rtype source subj message received_at name contact attachment
         uuid_hex db_now out new_id.
  assert (Hfresh : forall y, In y (App.reports d) ->
                             (App.id y =? new_id) = false).
  { intros y Hy. apply Z.eqb_neq.
    pose proof (next_id_fresh (map App.id (App.reports d)) (App.id y)
                  (in_map App.id _ _ Hy)).
    subst new_id. lia. }
  pose proof (submit_report_reports d rtype source subj message received_at
                name contact attachment uuid_hex db_now) as Hrs.
  fold out in Hrs. fold new_id in Hrs.
  split; [|split; [|split; [|split]]].
  - unfold App.get_report.
    destruct (find (fun r => App.id r =? new_id) (App.reports d))
      as [y|] eqn:E; [|reflexivity].
    apply find_some in E. destruct E as [Hy E].
    rewrite (Hfresh y Hy) in E. discriminate.
  - eexists. split.
    + unfold App.get_report. rewrite Hrs.
      apply find_app_new; [exact Hfresh | apply Z.eqb_refl].
    + repeat split; reflexivity.
  - intros k r Hk. unfold App.get_report in *. rewrite Hrs.
    now apply find_app_old.
  - intros k a Hk. subst out. unfold App.submit_report, App.get_attachment in *.
    destruct attachment as [f|]; [destruct (App.truthy (App.filename f))|];
      simpl; auto.
    now apply find_app_old.
  - intros Hnd. rewrite Hrs, map_app. simpl.
    apply NoDup_app; [assumption | repeat constructor; auto |].
    intros x Hx [<-|[]].
    apply next_id_fresh in Hx. fold new_id in Hx. lia.
Qed.

(** A submitted report gets an id that no stored report has and can be
    looked up under it at once. It holds the type and the message as
    submitted; the source, the subject, the reporter's name and the
    reporter's contact are absent when submitted empty and stored as
    submitted otherwise; it starts unflagged, with no flag field set,
    not deleted, not verified and unclassified, created and updated at
    the time of the insert. Every report and attachment that could be
    looked up before still can, with the same row, and report ids stay
    distinct. *)
Theorem submitted_report_is_stored_under_a_fresh_id :
  forall (d : App.DB) rtype source subj message received_at name contact
         attachment uuid_hex db_now,
    let out :=
      App.submit_report fromisoformat suffix d rtype source subj message
        received_at name contact attachment uuid_hex db_now in
    let new_id := App.next_id (map App.id (App.reports d)) in
    let stored (s : string) := if String.eqb s "" then None else Some s in
    App.get_report d new_id = None
    /\ (exists report,
           App.get_report (fst out) new_id = Some report
           /\ App.id report = new_id
           /\ App.report_type report = rtype
           /\ App.message_content report = message
           /\ App.source_from report = stored source
           /\ App.subject report = stored subj
           /\ App.reporter_name report = stored name
           /\ App.reporter_contact report = stored contact
           /\ App.is_flagged report = false
           /\ App.flag_reason report = None
           /\ App.flagged_on report = None
           /\ App.flagged_by report = None
           /\ App.deleted report = false
           /\ App.is_verified report = false
           /\ App.suggested_classification report = "unclassified"
           /\ App.classification report = "unclassified"
           /\ App.created_on report = db_now
           /\ App.updated_on report = db_now)
    /\ (forall k r, App.get_report d k = Some r ->
                    App.get_report (fst out) k = Some r)
    /\ (forall k a, App.get_attachment d k = Some a ->
                    App.get_attachment (fst out) k = Some a)
    /\ (NoDup (map App.id (App.reports d)) ->
        NoDup (map App.id (App.reports (fst out)))).
Proof.
  intros d rtype source subj message received_at name contact attachment
         uuid_hex db_now out new_id stored.
  destruct (submit_report_lookups d rtype source subj message received_at
              name contact attachment uuid_hex db_now)
    as (Hnew & (report & Hget & Hfields) & Hold & Hatt & Hnd).
  fold out in Hget, Hold, Hatt, Hnd. fold new_id in Hnew, Hget, Hfields.
  split; [exact Hnew|]. split; [|split; [|split]]; try assumption.
  exists report. split; [exact Hget|].
  destruct Hfields as (_ & _ & _ & _ & _ & _ & _ & _ & _ & _ & ->).
  assert (Hstored : forall s, App.or_none s = stored s).
  { intros s. unfold App.or_none, App.truthy, stored.
    now destruct (String.eqb s ""). }
  unfold App.new_report.
  cbn [App.id App.report_type App.message_content App.source_from
       App.subject App.reporter_name App.reporter_contact App.is_flagged
       App.flag_reason App.flagged_on App.flagged_by App.deleted
       App.is_verified App.suggested_classification App.classification
       App.created_on App.updated_on].
  rewrite !Hstored.
  split; [reflexivity|]. split; [reflexivity|]. split; [reflexivity|].
  split; [reflexivity|]. split; [reflexivity|]. split; [reflexivity|].
  split; [reflexivity|]. split; [reflexivity|]. split; [reflexivity|].
  split; [reflexivity|]. split; [reflexivity|]. split; [reflexivity|].
  split; [reflexivity|]. split; [reflexivity|]. split; [reflexivity|].
  split; reflexivity.
Qed.


End SubmitFacts.

Lemma submitted_report_witness :
  let out :=
    App.submit_report App.fromisoformat (fun _ => ".png") Examples.small_db "call"
      "+15550000000" "" "They asked for my PIN" "" "" "" None "0f" 500 in
  App.get_report (fst out) 2 = Some Examples.flagged
  /\ (exists report,
        App.get_report (fst out) 4 = Some report
        /\ App.source_from report = Some "+15550000000"
        /\ App.subject report = None
        /\ App.reporter_name report = None)
  /\ NoDup (map App.id (App.reports (fst out))).
Proof.
  cbv zeta.
  destruct (submitted_report_is_stored_under_a_fresh_id App.fromisoformat
              (fun _ => ".png") Examples.small_db
              "call" "+15550000000" "" "They asked for my PIN" "" "" ""
              None "0f" 500)
    as (_ & (report & Hget & _ & _ & _ & Hsrc & Hsubj & Hname & _) & Hold
        & _ & Hnd).
  split; [|split].
  - apply Hold. reflexivity.
  - exists report. split; [exact Hget|].
    split; [exact Hsrc|]. split; [exact Hsubj | exact Hname].
  - apply Hnd. repeat constructor; simpl; intros H;
      repeat (destruct H as [H|H]; try discriminate); assumption.
Defined.



(** A submission is public without any moderation step: as long as fewer
    than 200 reports are public, the report just submitted is in the
    result of the unfiltered public search. *)
Theorem submitted_report_is_public_at_once :
  forall (ilike : string -> string -> bool)
         (fromisoformat : string -> option Z) (suffix : string -> string)
         (d : App.DB) rtype source subj message received_at name contact
         attachment uuid_hex db_now,
    (List.length (filter (App.public_condition ilike None None)
                         (App.reports d)) < 200)%nat ->
    let out :=
      App.submit_report fromisoformat suffix d rtype source subj message
        received_at name contact attachment uuid_hex db_now in
    exists report,
      App.get_report (fst out)
        (App.next_id (map App.id (App.reports d))) = Some report
      /\ In report (App.search_reports ilike (fst out) None None).
Proof.
  intros ilike fromisoformat suffix d rtype source subj message received_at
         name contact attachment uuid_hex db_now Hfew out.
  destruct (submit_report_lookups fromisoformat suffix
              d rtype source subj message received_at name contact
              attachment uuid_hex db_now)
    as (_ & (report & Hget & _) & _).
  fold out in Hget. exists report. split; [exact Hget|].
  pose proof (submit_report_reports fromisoformat suffix d rtype source subj
                message received_at name contact attachment uuid_hex db_now)
    as Hrs.
  fold out in Hrs.
  assert (Hlast : In report (App.reports (fst out))
                  /\ App.public_condition ilike None None report = true).
  { unfold App.get_report in Hget. rewrite Hrs in Hget.
    rewrite find_app_new in Hget.
    - injection Hget as <-. split; [|reflexivity].
      rewrite Hrs. apply in_or_app. right. now left.
    - intros y Hy. apply Z.eqb_neq.
      pose proof (next_id_fresh (map App.id (App.reports d)) (App.id y)
                    (in_map App.id _ _ Hy)). lia.
    - apply Z.eqb_refl. }
  destruct Hlast as [Hin Hpub].
  unfold App.search_reports.
  rewrite firstn_all2.
  - apply order_by_desc_In, filter_In. now split.
  - rewrite order_by_desc_length, Hrs, filter_app, length_app. simpl.
    destruct (App.public_condition ilike None None _); simpl; lia.
Qed.

Lemma submitted_report_is_public_witness :
  exists report,
    App.get_report
      (fst (App.submit_report App.fromisoformat (fun _ => ".png")
              Examples.small_db "call" "" "" "They asked for my PIN" "" ""
              "" None "0f" 500))
      4 = Some report
    /\ In report
          (App.search_reports Sql.ilike
             (fst (App.submit_report App.fromisoformat (fun _ => ".png")
                     Examples.small_db "call" "" ""
                     "They asked for my PIN" "" "" "" None "0f" 500))
             None None).
Proof.
  apply (submitted_report_is_public_at_once Sql.ilike App.fromisoformat
           (fun _ => ".png") Examples.small_db).
  vm_compute. lia.
Defined.

(** ** The pages of the admin list *)

Lemma firstn_plus {A : Type} (a b : nat) (l : list A) :
  firstn (a + b) l = firstn a l ++ firstn b (skipn a l).
Proof.
  revert l. induction a as [|a IH]; intros l; simpl; [reflexivity|].
  destruct l as [|x l]; simpl.
  - now rewrite firstn_nil.
  - now rewrite IH.
Qed.

(** Cutting a list into [k] consecutive chunks of [n] rows and gluing
    them gives its first [n * k] rows. *)
Lemma chunks_concat {A : Type} (n k : nat) (l : list A) :
  List.concat (map (fun i => firstn n (skipn (n * i) l)) (seq 0 k))
  = firstn (n * k) l.
Proof.
  induction k as [|k IH].
  - rewrite Nat.mul_0_r. reflexivity.
  - rewrite seq_S, map_app, concat_app, IH. simpl.
    rewrite app_nil_r, Nat.mul_succ_r. symmetry. apply firstn_plus.
Qed.

Lemma NoDup_map_filter {A : Type} (key : A -> Z) (p : A -> bool)
      (l : list A) :
  NoDup (map key l) -> NoDup (map key (filter p l)).
Proof.
  induction l as [|x l IH]; simpl; intros H; [constructor|].
  inversion H as [|? ? Hx Hrest]; subst.
  destruct (p x); simpl; [|now apply IH].
  constructor; [|now apply IH].
  intros Hin. apply Hx. apply in_map_iff in Hin.
  destruct Hin as (y & Hy & Hin). apply filter_In in Hin.
  rewrite <- Hy. apply in_map. tauto.
Qed.

Lemma NoDup_firstn {A : Type} (n : nat) (l : list A) :
  NoDup l -> NoDup (firstn n l).
Proof.
  intros H. rewrite <- (firstn_skipn n l) in H.
  now apply NoDup_app_remove_r in H.
Qed.

(** With distinct keys, [ORDER BY key DESC] leaves the database no
    choice. *)
Lemma sorted_perm_unique {A : Type} (key : A -> Z) (l1 : list A) :
  forall l2,
    NoDup (map key l1) ->
    Permutation l1 l2 ->
    Sql.newest_first key l1 ->
    Sql.newest_first key l2 ->
    l1 = l2.
Proof.
  unfold Sql.newest_first.
  induction l1 as [|x l1 IH]; intros l2 Hnd Hperm Hs1 Hs2.
  - apply Permutation_nil in Hperm. now subst.
  - destruct l2 as [|y l2];
      [symmetry in Hperm; apply Permutation_nil in Hperm; discriminate|].
    inversion Hnd as [|? ? Hx Hnd']; subst.
    inversion Hs1 as [|? ? Hs1' Hall1]; subst.
    inversion Hs2 as [|? ? Hs2' Hall2]; subst.
    assert (Hxy : x = y).
    { assert (Hxin : In x (y :: l2))
        by (apply (Permutation_in _ Hperm); now left).
      assert (Hyin : In y (x :: l1))
        by (apply (Permutation_in _ (Permutation_sym Hperm)); now left).
      destruct Hxin as [E|Hxin]; [now symmetry|].
      destruct Hyin as [E|Hyin]; [assumption|].
      exfalso. apply Hx.
      rewrite Forall_forall in Hall1, Hall2.
      specialize (Hall1 _ Hyin). specialize (Hall2 _ Hxin).
      replace (key x) with (key y) by lia. now apply in_map. }
    subst y. f_equal. apply IH; auto.
    now apply Permutation_cons_inv in Hperm.
Qed.

Section AdminPages.
Variable ilike : string -> string -> bool.
Variables (d : App.DB) (admin_user status : string) (show_deleted : Z)
          (q : string).
(** [orders p] is the order in which the database returns the rows at
    the request for page [p]. *)
Variable orders : Z -> list App.Report -> list App.Report.
Hypothesis orders_ok : forall p, Sql.orders_desc App.created_on (orders p).
Hypothesis distinct_times :
  NoDup
    (map App.created_on
       (filter (App.admin_condition ilike status show_deleted q)
               (App.reports d))).

Lemma orders_agree (p : Z) :
  orders p (filter (App.admin_condition ilike status show_deleted q)
                   (App.reports d))
  = Sql.order_by_desc App.created_on
      (filter (App.admin_condition ilike status show_deleted q)
              (App.reports d)).
Proof.
  destruct (orders_ok p (filter (App.admin_condition ilike status
                                   show_deleted q) (App.reports d)))
    as [Hperm Hsorted].
  symmetry. apply (sorted_perm_unique App.created_on).
  - eapply Permutation_NoDup;
      [apply Permutation_map, order_by_desc_perm | exact distinct_times].
  - rewrite Hperm. symmetry. apply order_by_desc_perm.
  - apply order_by_desc_sorted.
  - exact Hsorted.
Qed.

Lemma admin_page_rows (page : Z) :
  option_map App.ap_reports
    (App.admin_page ilike (orders page) d admin_user status show_deleted q
       page)
  = if 25 * (Z.max page 1 - 1) <=? 2 ^ 63 - 1 then
      Some
        (firstn 25
           (skipn (Z.to_nat (25 * (Z.max page 1 - 1)))
              (Sql.order_by_desc App.created_on
                 (filter (App.admin_condition ilike status show_deleted q)
                         (App.reports d)))))
    else None.
Proof.
  unfold App.admin_page, Sql.limit_offset, App.page_size, Sql.bigint_max.
  replace ((Z.max page 1 - 1) * 25) with (25 * (Z.max page 1 - 1)) by lia.
  destruct (25 * (Z.max page 1 - 1) <=? 2 ^ 63 - 1); [|reflexivity].
  cbn [option_map App.ap_reports]. now rewrite orders_agree.
Qed.

(** The pages of the admin list partition the result. When the matching
    reports have distinct creation times and the table has no more rows
    than a 64-bit count can tell, the pages from the first to the last,
    each asked for in a request of its own and glued together, are the
    whole list of matching reports, newest first: no report is left out
    and none shows twice. A page number below one gives the first page;
    a page after the last one is empty, and it is a server error once
    its offset is no 64-bit integer. *)
Theorem admin_pages_partition_the_result :
  Z.of_nat (List.length (App.reports d)) <= 2 ^ 63 - 1 ->
  let page_rows p :=
    option_map App.ap_reports
      (App.admin_page ilike (orders p) d admin_user status show_deleted q
         p) in
  exists first,
    App.admin_page ilike (orders 1) d admin_user status show_deleted q 1
    = Some first
    /\ (exists chunks,
          map (fun p => page_rows (Z.of_nat p))
              (seq 1 (Z.to_nat (App.ap_total_pages first)))
          = map Some chunks
          /\ List.concat chunks
             = Sql.order_by_desc App.created_on
                 (filter (App.admin_condition ilike status show_deleted q)
                         (App.reports d)))
    /\ (forall page, page <= 1 -> page_rows page = page_rows 1)
    /\ (forall page,
           App.ap_total_pages first < page ->
           25 * (page - 1) <= 2 ^ 63 - 1 ->
           page_rows page = Some [])
    /\ (forall page, 2 ^ 63 - 1 < 25 * (page - 1) -> page_rows page = None).
Proof.
  intros Hrows page_rows.
  set (matching := filter (App.admin_condition ilike status show_deleted q)
                          (App.reports d)) in *.
  set (all := Sql.order_by_desc App.created_on matching).
  set (pages := Z.max ((Z.of_nat (List.length all) + 25 - 1) / 25) 1).
  assert (Hlen : (List.length matching <= List.length (App.reports d))%nat)
    by apply filter_length_le.
  assert (Hall : List.length all = List.length matching)
    by apply order_by_desc_length.
  pose proof (total_pages_ceiling (Z.of_nat (List.length all)) ltac:(lia))
    as Hc.
  cbv zeta in Hc. unfold App.page_size in Hc. fold pages in Hc.
  destruct Hc as (Hone & Hcover & Hlast).
  assert (Hrows_of : forall page,
             page_rows page
             = if 25 * (Z.max page 1 - 1) <=? 2 ^ 63 - 1 then
                 Some (firstn 25
                         (skipn (Z.to_nat (25 * (Z.max page 1 - 1))) all))
               else None)
    by (intros page; apply admin_page_rows).
  eexists. split.
  { unfold App.admin_page, App.page_size, Sql.bigint_max.
    simpl Z.leb. reflexivity. }
  cbn [App.ap_total_pages]. unfold App.page_size.
  fold matching. rewrite <- Hall. fold pages.
  split; [|split; [|split]].
  - exists (map (fun i => firstn 25 (skipn (25 * i) all))
                (seq 0 (Z.to_nat pages))).
    split.
    + rewrite <- seq_shift, !map_map. apply map_ext_in.
      intros i Hi. apply in_seq in Hi. rewrite Hrows_of.
      replace (25 * (Z.max (Z.of_nat (S i)) 1 - 1)) with (Z.of_nat (25 * i))
        by lia.
      rewrite Nat2Z.id.
      assert (Hfit : Z.of_nat (25 * i) <= 2 ^ 63 - 1).
      { destruct (Z.eq_dec pages 1) as [E|E]; [lia|].
        assert (25 * (pages - 1) < Z.of_nat (List.length all)) by lia.
        lia. }
      apply Z.leb_le in Hfit. now rewrite Hfit.
    + rewrite chunks_concat. apply firstn_all2. lia.
  - intros page Hp. rewrite !Hrows_of.
    now replace (Z.max page 1) with (Z.max 1 1) by lia.
  - intros page Hp Hfit. rewrite Hrows_of.
    replace (Z.max page 1) with page by lia.
    apply Z.leb_le in Hfit. rewrite Hfit.
    rewrite skipn_all2; [now rewrite firstn_nil | lia].
  - intros page Hbig. rewrite Hrows_of.
    replace (Z.max page 1) with page by lia.
    apply Z.leb_gt in Hbig. now rewrite Hbig.
Qed.
End AdminPages.

Lemma admin_pages_witness :
  let page_rows p :=
    option_map App.ap_reports
      (App.admin_page Sql.ilike (Sql.order_by_desc App.created_on)
         Examples.big_db "admin" "all" 0 "" p) in
  page_rows (-3) = page_rows 1
  /\ page_rows 10 = Some []
  /\ page_rows (4 * 10 ^ 17) = None.
Proof.
  assert (Hok : forall p : Z,
             Sql.orders_desc App.created_on
               ((fun _ => Sql.order_by_desc App.created_on) p)).
  { intros _ l. split;
      [symmetry; apply order_by_desc_perm | apply order_by_desc_sorted]. }
  assert (Hnd : NoDup
                  (map App.created_on
                     (filter (App.admin_condition Sql.ilike "all" 0 "")
                             (App.reports Examples.big_db)))).
  { apply (NoDup_map_filter App.created_on).
    unfold Examples.big_db. cbn [App.reports]. rewrite map_map.
    cbn [App.created_on App.new_report].
    apply Finite.Injective_map_NoDup; [|apply seq_NoDup].
    intros a b. apply Nat2Z.inj. }
  destruct (admin_pages_partition_the_result Sql.ilike Examples.big_db
              "admin" "all" 0 "" (fun _ => Sql.order_by_desc App.created_on)
              Hok Hnd)
    as (first & Hfirst & _ & Hlow & Hhigh & Hover).
  - vm_compute. discriminate.
  - cbv zeta. split; [|split].
    + apply Hlow. lia.
    + apply Hhigh; [|lia].
      vm_compute in Hfirst. injection Hfirst as <-. vm_compute. reflexivity.
    + apply Hover. lia.
Defined.


(** ** The attachments of the search page *)

Lemma dict_get_setdefault (k k' : Z) (a : App.Attachment)
      (m : list (Z * list App.Attachment)) :
  Pages.dict_get k' (App.setdefault_append k a m)
  = if k' =? k
    then Some (match Pages.dict_get k m with Some l => l | None => [] end
               ++ [a])
    else Pages.dict_get k' m.
Proof.
  unfold Pages.dict_get.
  induction m as [|[k0 l0] m IH]; simpl.
  - rewrite (Z.eqb_sym k k'). now destruct (k' =? k).
  - destruct (k0 =? k) eqn:E0; simpl.
    + apply Z.eqb_eq in E0. subst k0.
      rewrite (Z.eqb_sym k k'). now destruct (k' =? k).
    + destruct (k0 =? k') eqn:E1; simpl.
      * apply Z.eqb_eq in E1. subst k0.
        rewrite E0. reflexivity.
      * exact IH.
Qed.

Lemma setdefault_keys (k : Z) (a : App.Attachment)
      (m : list (Z * list App.Attachment)) :
  NoDup (map fst m) -> NoDup (map fst (App.setdefault_append k a m)).
Proof.
  intros Hnd.
  induction m as [|[k0 l0] m IH]; simpl.
  - repeat constructor. intros [].
  - inversion Hnd as [|? ? Hk0 Hrest]; subst.
    destruct (k0 =? k) eqn:E; simpl.
    + constructor; assumption.
    + constructor; [|now apply IH].
      intros Hin. apply Hk0. clear IH Hnd Hk0 Hrest.
      induction m as [|[k1 l1] m IHm]; simpl in *.
      * destruct Hin as [Hin|[]]. apply Z.eqb_neq in E. congruence.
      * destruct (k1 =? k); simpl in Hin; [exact Hin|].
        destruct Hin as [Hin|Hin]; [now left | right; now apply IHm].
Qed.

Lemma dict_get_fold (k : Z) (atts : list App.Attachment) :
  forall m,
    Pages.dict_get k
      (fold_left (fun m a => App.setdefault_append (App.att_report_id a) a m)
                 atts m)
    = match Pages.dict_get k m,
            filter (fun a => App.att_report_id a =? k) atts with
      | Some l0, l => Some (l0 ++ l)
      | None, [] => None
      | None, l => Some l
      end.
Proof.
  induction atts as [|a atts IH]; intros m; simpl.
  - destruct (Pages.dict_get k m); [now rewrite app_nil_r | reflexivity].
  - rewrite IH, dict_get_setdefault. rewrite (Z.eqb_sym k).
    destruct (App.att_report_id a =? k) eqn:E.
    + apply Z.eqb_eq in E. rewrite E.
      destruct (Pages.dict_get k m) as [l0|]; simpl.
      * now rewrite <- app_assoc.
      * reflexivity.
    + reflexivity.
Qed.

Lemma keys_fold (atts : list App.Attachment) :
  forall m,
    NoDup (map fst m) ->
    NoDup
      (map fst
         (fold_left
            (fun m a => App.setdefault_append (App.att_report_id a) a m)
            atts m)).
Proof.
  induction atts as [|a atts IH]; intros m Hnd; simpl; [assumption|].
  apply IH. now apply setdefault_keys.
Qed.

Lemma filter_filter {A : Type} (p q : A -> bool) (l : list A) :
  filter p (filter q l) = filter (fun x => q x && p x) l.
Proof.
  induction l as [|x l IH]; simpl; [reflexivity|].
  destruct (q x); simpl; [destruct (p x)|]; now rewrite IH.
Qed.

(** What the dictionary of the search page holds under a key. *)
Lemma attachments_map_get :
  forall (ilike : string -> string -> bool) (d : App.DB)
         (q report_type : option string) (k : Z),
    let page := App.search_page ilike d q report_type in
    NoDup (map fst (App.sp_attachments_map page))
    /\ Pages.dict_get k (App.sp_attachments_map page)
       = if existsb (Z.eqb k) (map App.id (App.sp_reports page))
         then match Pages.live_attachments d k with
              | [] => None
              | l => Some l
              end
         else None.
Proof.
  intros ilike d q report_type k page. subst page.
  unfold App.search_page. cbn [App.sp_attachments_map App.sp_reports].
  generalize (map App.id (App.search_reports ilike d q report_type)).
  intros ids. unfold App.attachments_map.
  destruct ids as [|i rest]; [split; [constructor | reflexivity]|].
  set (ids := i :: rest).
  split; [apply keys_fold; constructor|].
  rewrite dict_get_fold. simpl Pages.dict_get.
  rewrite filter_filter. unfold Pages.live_attachments.
  destruct (existsb (Z.eqb k) ids) eqn:Ek.
  - rewrite (filter_ext _ (fun a => (App.att_report_id a =? k)
                                    && negb (App.att_deleted a))).
    + now destruct (filter _ (App.attachments d)).
    + intros a. destruct (App.att_report_id a =? k) eqn:E.
      * apply Z.eqb_eq in E. rewrite E, Ek.
        now rewrite andb_true_r, andb_true_l.
      * now rewrite andb_false_r.
  - rewrite filter_nothing; [reflexivity|].
    intros a _. destruct (App.att_report_id a =? k) eqn:E;
      [|apply andb_false_r].
    apply Z.eqb_eq in E. rewrite E, Ek. reflexivity.
Qed.


Lemma find_unique {A : Type} (key : A -> Z) (l : list A) (x : A) :
  NoDup (map key l) -> In x l ->
  find (fun y => key y =? key x) l = Some x.
Proof.
  induction l as [|z l IH]; simpl; intros Hnd Hx; [destruct Hx|].
  inversion Hnd as [|? ? Hz Hrest]; subst.
  destruct Hx as [<-|Hx]; [now rewrite Z.eqb_refl|].
  destruct (key z =? key x) eqn:E; [|now apply IH].
  apply Z.eqb_eq in E. exfalso. apply Hz. rewrite E. now apply in_map.
Qed.

(** Whatever the search page offers can be fetched: with distinct report
    ids and distinct attachment ids, the download of any attachment
    listed on the page returns that file. *)
Theorem listed_attachment_is_downloadable :
  forall (ilike : string -> string -> bool) (d : App.DB)
         (q report_type : option string) (k : Z)
         (l : list App.Attachment) (a : App.Attachment),
    NoDup (map App.id (App.reports d)) ->
    NoDup (map App.att_id (App.attachments d)) ->
    Pages.dict_get k
      (App.sp_attachments_map (App.search_page ilike d q report_type))
    = Some l ->
    In a l ->
    App.download_attachment d (App.att_id a)
    = App.FileResponse (App.storage_path a) (App.original_name a)
        (match App.mime_type a with
         | Some m => if App.truthy m then m else "application/octet-stream"
         | None => "application/octet-stream"
         end).
Proof.
  intros ilike d q report_type k l a Hrid Haid Hget Hin.
  destruct (attachments_map_get ilike d q
              report_type k) as [_ Hdict].
  cbv zeta in Hdict. rewrite Hdict in Hget. clear Hdict.
  destruct (existsb (Z.eqb k)
              (map App.id
                 (App.sp_reports (App.search_page ilike d q report_type))))
    eqn:Ek; [|discriminate].
  assert (Hl : l = Pages.live_attachments d k).
  { destruct (Pages.live_attachments d k); [discriminate|].
    now injection Hget as <-. }
  subst l. unfold Pages.live_attachments in Hin.
  apply filter_In in Hin. destruct Hin as [Ha Hc].
  apply andb_true_iff in Hc. destruct Hc as [Hk Hlive].
  apply Z.eqb_eq in Hk. apply negb_true_iff in Hlive.
  apply existsb_exists in Ek. destruct Ek as (i & Hi & Eki).
  apply Z.eqb_eq in Eki. subst i.
  apply in_map_iff in Hi. destruct Hi as (r & Hid & Hr).
  simpl in Hr. apply search_reports_In in Hr. destruct Hr as [Hr Hpub].
  apply public_condition_spec in Hpub. destruct Hpub as (Hdel & Hflag & _).
  unfold App.download_attachment, App.get_attachment.
  rewrite (find_unique App.att_id _ a Haid Ha), Hlive.
  unfold App.get_report. rewrite Hk, <- Hid.
  rewrite (find_unique App.id _ r Hrid Hr), Hdel, Hflag. reflexivity.
Qed.

Lemma listed_attachment_witness :
  App.download_attachment Examples.small_db 1
  = App.FileResponse "uploads/shot.png" "shot.png" "image/png".
Proof.
  apply (listed_attachment_is_downloadable Sql.ilike Examples.small_db None
           None 1 [Examples.file_of 1 1] (Examples.file_of 1 1)).
  - repeat constructor; simpl; intros H;
      repeat (destruct H as [H|H]; try discriminate); assumption.
  - repeat constructor; simpl; intros H;
      repeat (destruct H as [H|H]; try discriminate); assumption.
  - reflexivity.
  - now left.
Defined.


(** ** The round trip of a local time in any zone *)

(** The wall-clock value after storing and displaying under one name. *)
Lemma round_trip_wall :
  forall (tzdb : string -> option Legacy.Zone) (name : string) (w : Z),
    name <> "" ->
    tzdb "UTC" = Some Legacy.utc_zone ->
    (forall z, tzdb name = Some z ->
               Legacy.well_formed z = true
               /\ Legacy.skipped_wall (Legacy.before z)
                    (Legacy.transitions z) w = false
               /\ Legacy.representable w = true
               /\ Legacy.representable
                    (w - Legacy.offset_at_wall false (Legacy.before z)
                           (Legacy.transitions z) w) = true) ->
    option_map Legacy.wall
      (Legacy.convert_utc_to_local tzdb
         (Some (Legacy.convert_local_to_utc tzdb w (Some name)))
         (Some name))
    = Some w.
Proof.
  intros tzdb name w Hne Hutc Hzone.
  destruct (tzdb name) as [z|] eqn:Ez.
  - destruct (Hzone z eq_refl) as (Hwf & Hskip & Hw & Hu).
    destruct (round_trip_in_known_zone tzdb name z w Hne Hutc Ez Hwf Hskip
                Hw Hu) as (dt & -> & <- & _).
    reflexivity.
  - unfold Legacy.convert_local_to_utc, Legacy.convert_utc_to_local.
    apply String.eqb_neq in Hne. now rewrite Hne, Ez.
Qed.

(** Storing a local time under a zone name and displaying it under the
    same name gives the local time back, for every name that is not
    empty: a name that the timezone database does not know takes the
    local time as UTC both ways, and a name that it knows reproduces
    every wall-clock value that the zone does not skip and whose UTC
    value is within the range of [datetime]. *)
Theorem local_time_round_trip_in_any_zone :
  forall (tzdb : string -> option Legacy.Zone) (name : string) (w : Z),
    name <> "" ->
    tzdb "UTC" = Some Legacy.utc_zone ->
    (forall z, tzdb name = Some z ->
               Legacy.well_formed z = true
               /\ Legacy.skipped_wall (Legacy.before z)
                    (Legacy.transitions z) w = false
               /\ Legacy.representable w = true
               /\ Legacy.representable
                    (w - Legacy.offset_at_wall false (Legacy.before z)
                           (Legacy.transitions z) w) = true) ->
    option_map Legacy.wall
      (Legacy.convert_utc_to_local tzdb
         (Some (Legacy.convert_local_to_utc tzdb w (Some name)))
         (Some name))
    = Some w.
Proof. exact round_trip_wall. Qed.

Lemma local_time_round_trip_witness :
  let round name w :=
    option_map Legacy.wall
      (Legacy.convert_utc_to_local Legacy.tzdata
         (Some (Legacy.convert_local_to_utc Legacy.tzdata w (Some name)))
         (Some name)) in
  round "Mars/Olympus" (Legacy.combine 2024 3 10 2 30 0)
  = Some (Legacy.combine 2024 3 10 2 30 0)
  /\ round "UTC" (Legacy.combine 2024 3 10 2 30 0)
     = Some (Legacy.combine 2024 3 10 2 30 0)
  /\ round "America/New_York" (Legacy.combine 2024 7 4 9 0 0)
     = Some (Legacy.combine 2024 7 4 9 0 0).
Proof.
  cbv zeta. split; [|split];
    (apply (local_time_round_trip_in_any_zone Legacy.tzdata);
     [discriminate | reflexivity |]);
    intros z Hz; vm_compute in Hz; try discriminate;
    injection Hz as <-; repeat split; reflexivity.
Defined.

(** ** No report is listed twice *)

(** With distinct report ids, the public search lists no report twice,
    and neither does any page of the admin list, in whatever order the
    database returns the matching reports. *)
Theorem search_lists_no_report_twice :
  forall (ilike : string -> string -> bool) (d : App.DB),
    NoDup (map App.id (App.reports d)) ->
    (forall q report_type,
        NoDup (map App.id (App.search_reports ilike d q report_type)))
    /\ (forall order admin_user status show_deleted q page pg,
           (forall l, Permutation (order l) l) ->
           App.admin_page ilike order d admin_user status show_deleted q
             page
           = Some pg ->
           NoDup (map App.id (App.ap_reports pg))).
Proof.
  intros ilike d Hnd.
  split.
  - intros q report_type. unfold App.search_reports.
    rewrite <- firstn_map. apply NoDup_firstn.
    eapply Permutation_NoDup;
      [apply Permutation_map, order_by_desc_perm|].
    now apply NoDup_map_filter.
  - intros order admin_user status show_deleted q page pg Horder Hpg.
    unfold App.admin_page in Hpg.
    destruct ((Z.max page 1 - 1) * App.page_size <=? Sql.bigint_max);
      [|discriminate].
    injection Hpg as <-. unfold Sql.limit_offset. cbn [App.ap_reports].
    set (matching := filter (App.admin_condition ilike status show_deleted q)
                            (App.reports d)).
    assert (Hsorted : NoDup (map App.id (order matching))).
    { pose proof (Horder matching) as Hperm.
      eapply Permutation_NoDup;
        [apply Permutation_map; symmetry; exact Hperm|].
      now apply NoDup_map_filter. }
    rewrite <- firstn_map. apply NoDup_firstn.
    rewrite <- skipn_map.
    rewrite <- (firstn_skipn
                  (Z.to_nat ((Z.max page 1 - 1) * App.page_size))
                  (map App.id _)) in Hsorted.
    now apply NoDup_app_remove_l in Hsorted.
Qed.

Lemma search_lists_no_report_twice_witness :
  NoDup (map App.id
           (App.search_reports Sql.ilike Examples.small_db (Some "win")
              None)).
Proof.
  apply search_lists_no_report_twice.
  repeat constructor; simpl; intros H;
    repeat (destruct H as [H|H]; try discriminate); assumption.
Defined.


(** ** Submitting a report in the legacy application *)

Lemma next_id_positive (ids : list Z) : 1 <= App.next_id ids.
Proof.
  unfold App.next_id. induction ids as [|x ids IH]; simpl; lia.
Qed.

Section IntakeFacts.
Variable tzdb : string -> option Legacy.Zone.
Variable urlparse_netloc : string -> option string.

(** The [Submit Report] handler always stores the report, under an id
    that no stored report has, and says so, unless [urlparse] rejects
    the link URL: then the report is stored all the same, without its
    link and without the success message. Without a ticked box or
    without a URL no link is stored; otherwise exactly one is, for the
    new report. *)
Theorem legacy_submit_stores_report_and_link :
  forall (rs : list Intake.FullReport) (links : list Legacy.LinkRow)
         (f : Intake.Form) (now : Z),
    let out := Intake.submit tzdb urlparse_netloc rs links f now in
    let url := Intake.form_link_url f in
    Intake.reports out
    = rs ++ [Intake.payload tzdb (Intake.new_id out) f now]
    /\ ~ In (Intake.new_id out) (map Intake.id rs)
    /\ (Intake.form_contain_link f = false \/ url = "" ->
        Intake.report_links out = links /\ Intake.succeeded out = true)
    /\ (Intake.form_contain_link f = true -> url <> "" ->
        match urlparse_netloc url with
        | Some loc =>
            Intake.report_links out
            = links ++ [Legacy.mkLinkRow (Intake.new_id out) url
                          (Legacy.domain_of url loc) None now now false]
            /\ Intake.succeeded out = true
        | None =>
            Intake.report_links out = links
            /\ Intake.succeeded out = false
        end).
Proof.
  intros rs links f now out url. subst out url.
  unfold Intake.submit, Legacy.insert_simple.
  pose proof (next_id_positive (map Intake.id rs)) as Hpos.
  assert (Hnz : (App.next_id (map Intake.id rs) =? 0) = false)
    by (apply Z.eqb_neq; lia).
  rewrite Hnz. simpl negb. rewrite andb_true_l.
  assert (Hfresh : ~ In (App.next_id (map Intake.id rs))
                        (map Intake.id rs)).
  { intros Hin. apply next_id_fresh in Hin. lia. }
  destruct (Intake.form_contain_link f) eqn:Ec; simpl.
  - destruct (App.truthy (Intake.form_link_url f)) eqn:Et.
    + assert (Hu : Intake.form_link_url f <> "")
        by (apply String.eqb_neq; now apply negb_true_iff).
      destruct (urlparse_netloc (Intake.form_link_url f)) as [loc|] eqn:El;
        simpl; (split; [reflexivity|]); (split; [exact Hfresh|]);
        (split; [intros [H|H]; [discriminate | contradiction]|]);
        intros _ _; auto.
    + assert (Hu : Intake.form_link_url f = "")
        by (apply String.eqb_eq; now apply negb_false_iff).
      simpl. split; [reflexivity|]. split; [exact Hfresh|].
      split; [auto|]. intros _ H. contradiction.
  - split; [reflexivity|]. split; [exact Hfresh|].
    split; [auto|]. discriminate.
Qed.
End IntakeFacts.

Lemma legacy_submit_witness :
  let good := Intake.submit Legacy.tzdata Legacy.netloc [] [] Samples.good_form 500 in
  let bad := Intake.submit Legacy.tzdata Legacy.netloc [] [] Samples.bad_form 500 in
  (Intake.report_links good
   = [Legacy.mkLinkRow 1 "http://bit.ly/x" "bit.ly" None 500 500 false]
   /\ Intake.succeeded good = true)
  /\ (Intake.report_links bad = [] /\ Intake.succeeded bad = false).
Proof.
  cbv zeta. split.
  - destruct (legacy_submit_stores_report_and_link Legacy.tzdata Legacy.netloc
                [] [] Samples.good_form 500) as (_ & _ & _ & H).
    apply (H eq_refl). discriminate.
  - destruct (legacy_submit_stores_report_and_link Legacy.tzdata Legacy.netloc
                [] [] Samples.bad_form 500) as (_ & _ & _ & H).
    apply (H eq_refl). discriminate.
Defined.

(** ** The times on the dashboard *)

Section DashboardFacts.
Variable tzdb : string -> option Legacy.Zone.
Variable urlparse_netloc : string -> option string.
Variable ilike : string -> string -> bool.
Variable null_received_at : Intake.Null.
Variable null_received_at_tz : Intake.Null.


(** What the dashboard shows for a row without a usable timezone. With
    a received-at time in the row, an empty zone name, or a missing one
    that the frame holds as [None], gives no local time and the word
    unknown; a missing name that the frame holds as [NaN], and a name
    that the timezone database does not know, give the stored time
    unchanged. A missing received-at time that the frame holds as [NaT]
    stops the page at the row. *)
Theorem dashboard_local_time_without_a_zone :
  forall (strftime : Legacy.datetime -> string) (r : Intake.FullReport),
    let local :=
      Intake.local_display tzdb null_received_at null_received_at_tz
        strftime r in
    let utc := Intake.utc_display null_received_at strftime r in
    (forall dt,
        Intake.received_at r = Some dt ->
        utc = Some (strftime dt)
        /\ (Intake.received_at_tz r = Some ""
            \/ (Intake.received_at_tz r = None
                /\ null_received_at_tz = Intake.AsNone) ->
            local = Some "unknown")
        /\ (Intake.received_at_tz r = None ->
            null_received_at_tz = Intake.AsMarker ->
            local = Some (strftime dt))
        /\ (forall name,
               Intake.received_at_tz r = Some name ->
               name <> "" -> tzdb name = None ->
               local = Some (strftime dt)))
    /\ (Intake.received_at r = None ->
        (null_received_at = Intake.AsNone ->
         utc = Some (strftime (Intake.created_on r)))
        /\ (null_received_at = Intake.AsMarker -> utc = None)).
Proof.
  intros strftime r local utc. subst local utc.
  unfold Intake.local_display, Intake.utc_display, Intake.local_dt,
    Intake.utc_dt, Intake.tz_name, Intake.cell.
  split.
  - intros dt Hdt. rewrite Hdt. split; [reflexivity|]. split; [|split].
    + intros [Hz | [Hz Hn]]; rewrite Hz; [reflexivity|].
      rewrite Hn. reflexivity.
    + intros Hz Hn. rewrite Hz, Hn. reflexivity.
    + intros name Hz Hne Hdb. rewrite Hz.
      unfold App.truthy. apply String.eqb_neq in Hne. rewrite Hne.
      cbn [negb Legacy.convert_utc_to_local]. rewrite Hne, Hdb.
      reflexivity.
  - intros Hr. rewrite Hr. split; intros ->; reflexivity.
Qed.
End DashboardFacts.


Lemma dashboard_local_time_witness :
  let strftime (_ : Legacy.datetime) := "2024-07-04 13:00:00 UTC" in
  Intake.local_display Legacy.tzdata Intake.AsNone Intake.AsNone strftime
    Samples.row_without_zone
  = Some "unknown"
  /\ Intake.local_display Legacy.tzdata Intake.AsNone Intake.AsMarker
       strftime Samples.row_without_zone
     = Some "2024-07-04 13:00:00 UTC".
Proof.
  cbv zeta. split.
  - destruct (dashboard_local_time_without_a_zone Legacy.tzdata
                Intake.AsNone Intake.AsNone
                (fun _ => "2024-07-04 13:00:00 UTC")
                Samples.row_without_zone) as [H _].
    destruct (H _ eq_refl) as (_ & Hunknown & _).
    apply Hunknown. right. split; reflexivity.
  - destruct (dashboard_local_time_without_a_zone Legacy.tzdata
                Intake.AsNone Intake.AsMarker
                (fun _ => "2024-07-04 13:00:00 UTC")
                Samples.row_without_zone) as [H _].
    destruct (H _ eq_refl) as (_ & _ & Hnan & _).
    apply Hnan; reflexivity.
Defined.
